(** * Conditional segment flow: the ODE function subsystem

    A shallow embedding of [src/models/odefunc.py]: the divergence
    estimators [divergence_approx] and [divergence_bf], the drift networks
    [ODEnet], [ODEHypernet] and [ODEHypernet2D], and the state functions
    [ODEfunc], [ODEhyperfunc] and [ODEhyperfunc2D] an ODE solver calls.

    Tensors are modelled by their shape, dtype, gradient flag and entries;
    entries live in a scalar type that is kept abstract.  Python exceptions
    are values of an error type, the attributes a module mutates are a
    record that is passed through each call. *)

From Stdlib Require Import String Ascii ZArith Bool Lia Arith List.
From Stdlib Require Import Ring_theory Ring ZArithRing.
Import ListNotations.

(** ** Python exceptions and results *)

(** The argument tuple of the assertion message of [divergence_approx], and
    plain text for the other assertion. *)
Inductive assert_msg : Type :=
| MsgText (text : string)
| MsgFailedToAddNode (f_size : list nat) (f_requires_grad y_requires_grad
    e_dzdx_requires_grad e_requires_grad e_dzdx_e_requires_grad : bool) (cnt : nat).

Inductive exn : Type :=
| AssertionError (msg : assert_msg)
| IndexError (what : string)
| AttributeError (obj attr : string)
| KeyError (key : string)
| ValueError (what : string)
| RuntimeError (what : string).

Inductive result (A : Type) : Type :=
| Ok (a : A)
| Raise (e : exn).

Arguments Ok {A} a.
Arguments Raise {A} e.

Definition bind {A B : Type} (c : result A) (k : A -> result B) : result B :=
  match c with
  | Ok a => k a
  | Raise e => Raise e
  end.

Notation "x <- c ;; k" := (bind c (fun x => k))
  (at level 61, c at next level, right associativity).

Definition is_ok {A : Type} (c : result A) : bool :=
  match c with Ok _ => true | Raise _ => false end.

(** [xs[n]] on a tuple or list. *)
Definition getitem {A : Type} (xs : list A) (n : nat) : result A :=
  match nth_error xs n with
  | Some x => Ok x
  | None => Raise (IndexError "tuple index out of range")
  end.

(** ** [str.split("-")] and [int(str)] *)

Definition dash : ascii := ascii_of_nat 45.
Definition plus_sign : ascii := ascii_of_nat 43.
Definition underscore : ascii := ascii_of_nat 95.

Fixpoint split_dash (s : string) : list string :=
  match s with
  | EmptyString => [EmptyString]
  | String c s' =>
      if Ascii.eqb c dash then EmptyString :: split_dash s'
      else match split_dash s' with
           | p :: ps => String c p :: ps
           | [] => [String c EmptyString]
           end
  end.

(** White space as [int] skips it at both ends of an ASCII string: tab, line
    feed, vertical tab, form feed, carriage return and space. *)
Definition is_space (c : ascii) : bool :=
  let n := nat_of_ascii c in
  ((9 <=? n) && (n <=? 13)) || (n =? 32).

Fixpoint lstrip (s : string) : string :=
  match s with
  | String c s' => if is_space c then lstrip s' else s
  | EmptyString => EmptyString
  end.

Definition digit_val (c : ascii) : option Z :=
  let n := nat_of_ascii c in
  if (48 <=? n) && (n <=? 57) then Some (Z.of_nat (n - 48)) else None.

(** The run of decimal digits and single underscores at the head of a
    string, as [int] scans it: the value, the number of digits, and what
    follows the run; [None] when two underscores meet or one ends the run. *)
Fixpoint scan_digits (prev_underscore : bool) (acc : Z) (digits : nat) (s : string)
  : option (Z * nat * string) :=
  match s with
  | EmptyString => if prev_underscore then None else Some (acc, digits, s)
  | String c s' =>
      match digit_val c with
      | Some d => scan_digits false (10 * acc + d)%Z (S digits) s'
      | None =>
          if Ascii.eqb c underscore then
            if prev_underscore then None else scan_digits true acc digits s'
          else if prev_underscore then None else Some (acc, digits, s)
      end
  end.

(** The default of [sys.int_max_str_digits]. *)
Definition int_max_str_digits : nat := 4300.

(** A string of ASCII characters: the strings [int] is modelled on. *)
Definition ascii_only (s : string) : bool :=
  forallb (fun c => nat_of_ascii c <? 128) (list_ascii_of_string s).

(** [int(s)] for a string [s] of ASCII characters, in the order CPython
    proceeds: white space, a sign, no underscore first, the run of digits,
    the limit on the number of digits, then nothing but white space.  A
    string with other characters is outside the model (the decimal digits
    and spaces of other scripts, which [int] accepts, have no counterpart
    here): statements about [int] carry [ascii_only]. *)
Definition py_int (s : string) : result Z :=
  let invalid := Raise (ValueError "invalid literal for int() with base 10") in
  let body := lstrip s in
  let signed :=
    match body with
    | String c r =>
        if Ascii.eqb c plus_sign then (false, r)
        else if Ascii.eqb c dash then (true, r)
        else (false, body)
    | EmptyString => (false, body)
    end in
  match snd signed with
  | EmptyString => invalid
  | String c _ =>
      if Ascii.eqb c underscore then invalid
      else
        match scan_digits false 0%Z 0 (snd signed) with
        | None => invalid
        | Some (value, digits, tail) =>
            if int_max_str_digits <? digits then
              Raise (ValueError "Exceeds the limit (4300 digits) for integer string conversion")
            else if digits =? 0 then invalid
            else
              match lstrip tail with
              | EmptyString => Ok (if fst signed then (- value)%Z else value)
              | String _ _ => invalid
              end
        end
  end.

(** [list(map(int, xs))]: the first failing element raises. *)
Fixpoint map_result {A B : Type} (f : A -> result B) (xs : list A) : result (list B) :=
  match xs with
  | [] => Ok []
  | x :: xs' => y <- f x ;; ys <- map_result f xs' ;; Ok (y :: ys)
  end.

(** ** The nonlinearity registry *)

Inductive Nonlinearity : Type :=
| Tanh | ReLU | Softplus | ELU | Swish | Square | Identity.

(** [NONLINEARITIES[key]]. *)
Definition NONLINEARITIES (key : string) : result Nonlinearity :=
  if String.eqb key "tanh" then Ok Tanh
  else if String.eqb key "relu" then Ok ReLU
  else if String.eqb key "softplus" then Ok Softplus
  else if String.eqb key "elu" then Ok ELU
  else if String.eqb key "swish" then Ok Swish
  else if String.eqb key "square" then Ok Square
  else if String.eqb key "identity" then Ok Identity
  else Raise (KeyError key).

(** ** Scalars *)

(** The entries of a tensor.  The ring operations are what the tensor
    operations below use; [ssigmoid] and [snonlin] are the pointwise
    functions behind [torch.sigmoid] and the registry's modules. *)
Class Scalar (R : Type) : Type := {
  szero : R;
  sone : R;
  sadd : R -> R -> R;
  smul : R -> R -> R;
  ssub : R -> R -> R;
  sopp : R -> R;
  ssigmoid : R -> R;
  snonlin : Nonlinearity -> R -> R
}.

(** Floating dtypes: the only ones a tensor that requires gradients has. *)
Inductive Dtype : Type := Float16 | BFloat16 | Float32 | Float64.

Definition Dtype_eqb (a b : Dtype) : bool :=
  match a, b with
  | Float16, Float16 | BFloat16, BFloat16 | Float32, Float32 | Float64, Float64 => true
  | _, _ => false
  end.

(** [torch.promote_types]. *)
Definition promote (a b : Dtype) : Dtype :=
  match a, b with
  | Float64, _ | _, Float64 => Float64
  | Float32, _ | _, Float32 => Float32
  | Float16, Float16 => Float16
  | BFloat16, BFloat16 => BFloat16
  | _, _ => Float32
  end.

Definition numel (sh : list nat) : nat := fold_right Nat.mul 1 sh.

(** All multi-indices of a shape, in row-major order. *)
Fixpoint indices (sh : list nat) : list (list nat) :=
  match sh with
  | [] => [[]]
  | d :: sh' => flat_map (fun k => map (cons k) (indices sh')) (seq 0 d)
  end.

Fixpoint ravel (sh idx : list nat) : nat :=
  match sh, idx with
  | _ :: sh', k :: idx' => k * numel sh' + ravel sh' idx'
  | _, _ => 0
  end.

Fixpoint unravel (sh : list nat) (n : nat) : list nat :=
  match sh with
  | [] => []
  | _ :: sh' => n / numel sh' :: unravel sh' (n mod numel sh')
  end.

Fixpoint list_nat_eqb (a b : list nat) : bool :=
  match a, b with
  | [], [] => true
  | x :: a', y :: b' => (x =? y) && list_nat_eqb a' b'
  | _, _ => false
  end.

(** Broadcasting of two shapes, aligned at the last dimension. *)
Fixpoint broadcast_rev (a b : list nat) : option (list nat) :=
  match a, b with
  | [], _ => Some b
  | _, [] => Some a
  | x :: a', y :: b' =>
      let d := if x =? y then Some x
               else if x =? 1 then Some y
               else if y =? 1 then Some x else None in
      match d, broadcast_rev a' b' with
      | Some d, Some r => Some (d :: r)
      | _, _ => None
      end
  end.

Definition broadcast_shapes (a b : list nat) : option (list nat) :=
  option_map (@rev nat) (broadcast_rev (rev a) (rev b)).

(** The index of an operand of shape [sh] under a broadcast index [idx]. *)
Fixpoint zip_bidx (sh idx : list nat) : list nat :=
  match sh, idx with
  | d :: sh', k :: idx' => (if d =? 1 then 0 else k) :: zip_bidx sh' idx'
  | _, _ => []
  end.

Definition bidx (sh idx : list nat) : list nat :=
  zip_bidx sh (skipn (length idx - length sh) idx).

(** ** Tensors *)

Section Tensors.

Context {R : Type} {SR : Scalar R}.

(** A tensor: its size, dtype, [requires_grad] flag and entries by
    multi-index (only the indices of [shape] are meaningful). *)
Record Tensor : Type := mkTensor {
  shape : list nat;
  dtype : Dtype;
  requires_grad : bool;
  data : list nat -> R
}.

Definition rsum {A : Type} (xs : list A) (f : A -> R) : R :=
  fold_right (fun x acc => sadd (f x) acc) szero xs.

(** The entry at [idx] of the tensor a call returned. *)
Definition entry (c : result Tensor) (idx : list nat) : option R :=
  match c with Ok t => Some (data t idx) | Raise _ => None end.

(** [t.size(0)]. *)
Definition size0 (t : Tensor) : result nat :=
  match shape t with
  | d :: _ => Ok d
  | [] => Raise (IndexError "Dimension specified as 0 but tensor has no dimensions")
  end.

(** [t.requires_grad_(flag)]. *)
Definition requires_grad_ (flag : bool) (t : Tensor) : Tensor :=
  mkTensor (shape t) (dtype t) flag (data t).

(** [torch.zeros_like(t)]. *)
Definition zeros_like (t : Tensor) : Tensor :=
  mkTensor (shape t) (dtype t) false (fun _ => szero).

(** [torch.randn_like(y, requires_grad=True).to(y)], the drawn entries
    being [sample]. *)
Definition randn_like (y : Tensor) (sample : list nat -> R) : Tensor :=
  mkTensor (shape y) (dtype y) true sample.

(** [-t]. *)
Definition neg (t : Tensor) : Tensor :=
  mkTensor (shape t) (dtype t) (requires_grad t) (fun idx => sopp (data t idx)).

(** A pointwise function of one tensor. *)
Definition pointwise (f : R -> R) (t : Tensor) : Tensor :=
  mkTensor (shape t) (dtype t) (requires_grad t) (fun idx => f (data t idx)).

Definition sigmoid : Tensor -> Tensor := pointwise ssigmoid.

(** The forward pass of a module of the registry. *)
Definition apply_nonlinearity (n : Nonlinearity) : Tensor -> Tensor :=
  pointwise (snonlin n).

(** A binary pointwise operation with broadcasting and dtype promotion. *)
Definition binop (f : R -> R -> R) (a b : Tensor) : result Tensor :=
  match broadcast_shapes (shape a) (shape b) with
  | Some sh =>
      Ok (mkTensor sh (promote (dtype a) (dtype b))
            (requires_grad a || requires_grad b)
            (fun idx => f (data a (bidx (shape a) idx)) (data b (bidx (shape b) idx))))
  | None => Raise (RuntimeError "The size of tensor a must match the size of tensor b")
  end.

Definition mul : Tensor -> Tensor -> result Tensor := binop smul.
Definition add : Tensor -> Tensor -> result Tensor := binop sadd.

(** [a += b]: [b] is broadcast to the size of [a], which is kept. *)
Definition add_ (a b : Tensor) : result Tensor :=
  match broadcast_shapes (shape a) (shape b) with
  | Some sh =>
      if list_nat_eqb sh (shape a) then
        Ok (mkTensor (shape a) (dtype a) (requires_grad a || requires_grad b)
              (fun idx => sadd (data a idx) (data b (bidx (shape b) idx))))
      else Raise (RuntimeError "output with this shape does not match the broadcast shape")
  | None => Raise (RuntimeError "The size of tensor a must match the size of tensor b")
  end.

(** [t.sum(dim=-1)]. *)
Definition sum_last (t : Tensor) : Tensor :=
  match rev (shape t) with
  | [] => t
  | d :: _ =>
      mkTensor (removelast (shape t)) (dtype t) (requires_grad t)
        (fun idx => rsum (seq 0 d) (fun i => data t (idx ++ [i])))
  end.

(** [t.sum()]. *)
Definition sum_all (t : Tensor) : Tensor :=
  mkTensor [] (dtype t) (requires_grad t)
    (fun _ => rsum (indices (shape t)) (data t)).

(** [t.unsqueeze(k)] for [0 <= k <= rank]. *)
Definition unsqueeze (k : nat) (t : Tensor) : result Tensor :=
  if k <=? length (shape t) then
    Ok (mkTensor (firstn k (shape t) ++ 1 :: skipn k (shape t)) (dtype t)
          (requires_grad t)
          (fun idx => data t (firstn k idx ++ skipn (S k) idx)))
  else Raise (IndexError "Dimension out of range").

(** [t.unsqueeze(-1)]. *)
Definition unsqueeze_last (t : Tensor) : Tensor :=
  mkTensor (shape t ++ [1]) (dtype t) (requires_grad t)
    (fun idx => data t (removelast idx)).

(** [t.view(dims)]: the entries are read again in row-major order under the
    new size (a contiguous tensor, or a column slice viewed along its
    columns); one entry of [dims] may be [-1] and is then inferred. *)
Definition view_shape (n : nat) (dims : list Z) : result (list nat) :=
  if existsb (fun d => (d <? -1)%Z) dims then
    Raise (RuntimeError "invalid shape dimension")
  else
    let known := fold_right Nat.mul 1
                   (map Z.to_nat (filter (fun d => negb (d =? -1)%Z) dims)) in
    match length (filter (fun d => (d =? -1)%Z) dims) with
    | 0 =>
        if known =? n then Ok (map Z.to_nat dims)
        else Raise (RuntimeError "shape is invalid for input size")
    | 1 =>
        if known =? 0 then
          Raise (RuntimeError "shape is invalid or the unspecified dimension is ambiguous")
        else if n mod known =? 0 then
          Ok (map (fun d => if (d =? -1)%Z then n / known else Z.to_nat d) dims)
        else Raise (RuntimeError "shape is invalid for input size")
    | _ => Raise (RuntimeError "only one dimension can be inferred")
    end.

Definition view (dims : list Z) (t : Tensor) : result Tensor :=
  sh <- view_shape (numel (shape t)) dims ;;
  Ok (mkTensor sh (dtype t) (requires_grad t)
        (fun idx => data t (unravel (shape t) (ravel sh idx)))).

(** A Python slice bound against a length. *)
Definition slice_bound (len : nat) (z : Z) : nat :=
  Z.to_nat (if (z <? 0)%Z then Z.max 0 (z + Z.of_nat len) else Z.min z (Z.of_nat len)).

(** [t[:, start:stop]]. *)
Definition slice_cols (t : Tensor) (start stop : Z) : result Tensor :=
  match shape t with
  | b :: w :: rest =>
      let lo := slice_bound w start in
      let hi := slice_bound w stop in
      Ok (mkTensor (b :: (hi - lo) :: rest) (dtype t) (requires_grad t)
            (fun idx => match idx with
                        | r :: c :: more => data t (r :: (lo + c) :: more)
                        | _ => data t idx
                        end))
  | _ => Raise (IndexError "too many indices for tensor")
  end.

(** [t[:, :, i]]. *)
Definition index_dim2 (t : Tensor) (i : nat) : result Tensor :=
  match shape t with
  | b :: n :: d :: rest =>
      if i <? d then
        Ok (mkTensor (b :: n :: rest) (dtype t) (requires_grad t)
              (fun idx => data t (firstn 2 idx ++ i :: skipn 2 idx)))
      else Raise (IndexError "index is out of bounds for dimension 2")
  | _ => Raise (IndexError "too many indices for tensor")
  end.

(** [torch.cat((a, b), dim=k)]: the sizes agree except in dimension [k]. *)
Definition cat (k : nat) (a b : Tensor) : result Tensor :=
  match nth_error (shape a) k, nth_error (shape b) k with
  | Some da, Some db =>
      if list_nat_eqb (firstn k (shape a) ++ skipn (S k) (shape a))
                      (firstn k (shape b) ++ skipn (S k) (shape b)) then
        Ok (mkTensor (firstn k (shape a) ++ (da + db) :: skipn (S k) (shape a))
              (promote (dtype a) (dtype b))
              (requires_grad a || requires_grad b)
              (fun idx => let j := nth k idx 0 in
                          if j <? da then data a idx
                          else data b (firstn k idx ++ (j - da) :: skipn (S k) idx)))
      else Raise (RuntimeError "Sizes of tensors must match except in the cat dimension")
  | _, _ => Raise (IndexError "Dimension out of range")
  end.

(** [torch.bmm(a, b)]: batches of matrices of one dtype. *)
Definition bmm (a b : Tensor) : result Tensor :=
  match shape a, shape b with
  | [ba; n; m], [bb; m'; p] =>
      if negb ((ba =? bb) && (m =? m')) then
        Raise (RuntimeError "batch1 and batch2 must have matching sizes")
      else if negb (Dtype_eqb (dtype a) (dtype b)) then
        Raise (RuntimeError "expected both batches to have the same dtype")
      else
        Ok (mkTensor [ba; n; p] (dtype a) (requires_grad a || requires_grad b)
              (fun idx => match idx with
                          | [r; x; z] =>
                              rsum (seq 0 m) (fun k => smul (data a [r; x; k]) (data b [r; k; z]))
                          | _ => szero
                          end))
  | _, _ => Raise (RuntimeError "batch1 and batch2 must be 3D tensors")
  end.

End Tensors.

Arguments Tensor R : clear implicits.

(** [for x in xs: s = body(x, s)], stopping at the first exception. *)
Fixpoint for_each {A S : Type} (body : A -> S -> result S) (xs : list A) (s : S)
  : result S :=
  match xs with
  | [] => Ok s
  | x :: xs' => s' <- body x s ;; for_each body xs' s'
  end.

(** ** Hypernetwork drift networks: [ODEHypernet] and [ODEHypernet2D] *)

(** The five pieces a layer slices from the weight vector, named after the
    variables of [forward] (the bias is the unnamed slice added to [dx]). *)
Inductive Segment : Type :=
| SegWeight | SegBias | SegWeightScales | SegBiasScales | SegWeightShift.

(** The attributes [__init__] sets. *)
Record ODEHypernet : Type := mkODEHypernet {
  activation : Nonlinearity;
  use_bias : bool;
  dims : list Z
}.

(** [ODEHypernet.__init__] and [ODEHypernet2D.__init__], which are the same:
    [self.dims = [input_dim] + list(map(int, dims.split("-"))) + [input_dim]]. *)
Definition ODEHypernet_init (dims_str : string) (input_dim : Z)
    (nonlinearity : string) (use_bias_arg : bool) : result ODEHypernet :=
  act <- NONLINEARITIES nonlinearity ;;
  hidden <- map_result py_int (split_dash dims_str) ;;
  Ok (mkODEHypernet act use_bias_arg ([input_dim] ++ hidden ++ [input_dim])).

Section Hypernet.

Context {R : Type} {SR : Scalar R}.

(** The local variables of [forward] that a loop iteration updates: [dx],
    the cursor [i], and (a ghost of the model, for stating the layout) the
    column ranges [start:stop] sliced from the weight vector so far, in
    program order. *)
Record Locals : Type := mkLocals {
  dx : Tensor R;
  cursor : Z;
  reads : list (Segment * Z * Z)
}.

(** One iteration of the loop of [ODEHypernet.forward]. *)
Definition ODEHypernet_layer (self : ODEHypernet) (context : Tensor R)
    (target_networks_weights : Tensor R) (batch_size : nat) (l : nat) (s : Locals)
  : result Locals :=
  let d0 := nth l (dims self) 0%Z in
  let d1 := nth (S l) (dims self) 0%Z in
  let i := cursor s in
  w_cols <- slice_cols target_networks_weights i (i + d0 * d1) ;;
  weight <- view [Z.of_nat batch_size; d0; d1] w_cols ;;
  let i1 := (i + d0 * d1)%Z in
  dx1 <- bmm (dx s) weight ;;
  b_cols <- slice_cols target_networks_weights i1 (i1 + d1) ;;
  bias <- unsqueeze 1 b_cols ;;
  dx2 <- add_ dx1 bias ;;
  let i2 := (i1 + d1)%Z in
  ws_cols <- slice_cols target_networks_weights i2 (i2 + d1) ;;
  weight_scales <- view [Z.of_nat batch_size; 1%Z; d1] ws_cols ;;
  let i3 := (i2 + d1)%Z in
  bs_cols <- slice_cols target_networks_weights i3 (i3 + d1) ;;
  bias_scales <- unsqueeze 1 bs_cols ;;
  let i4 := (i3 + d1)%Z in
  c1 <- unsqueeze 2 context ;;
  g <- bmm c1 weight_scales ;;
  g' <- add g bias_scales ;;
  let scale := sigmoid g' in
  dx3 <- mul scale dx2 ;;
  sh_cols <- slice_cols target_networks_weights i4 (i4 + d1) ;;
  weight_shift <- view [Z.of_nat batch_size; 1%Z; d1] sh_cols ;;
  let i5 := (i4 + d1)%Z in
  c2 <- unsqueeze 2 context ;;
  shift <- bmm c2 weight_shift ;;
  dx4 <- add_ dx3 shift ;;
  let dx5 := if l <? length (dims self) - 2
             then apply_nonlinearity (activation self) dx4 else dx4 in
  Ok (mkLocals dx5 i5
        (reads s ++ [(SegWeight, i, (i + d0 * d1)%Z); (SegBias, i1, (i1 + d1)%Z);
                     (SegWeightScales, i2, (i2 + d1)%Z);
                     (SegBiasScales, i3, (i3 + d1)%Z);
                     (SegWeightShift, i4, (i4 + d1)%Z)])).

(** [ODEHypernet.forward], returning its local variables at the end. *)
Definition ODEHypernet_run (self : ODEHypernet) (context y : Tensor R)
    (target_networks_weights : Tensor R) : result Locals :=
  batch_size <- size0 target_networks_weights ;;
  for_each (ODEHypernet_layer self context target_networks_weights batch_size)
    (seq 0 (length (dims self) - 1)) (mkLocals y 0%Z []).

(** [ODEHypernet.forward(context, y, target_networks_weights)]. *)
Definition ODEHypernet_forward (self : ODEHypernet) (context y : Tensor R)
    (target_networks_weights : Tensor R) : result (Tensor R) :=
  s <- ODEHypernet_run self context y target_networks_weights ;; Ok (dx s).

(** One iteration of the loop of [ODEHypernet2D.forward]. *)
Definition ODEHypernet2D_layer (self : ODEHypernet) (context y_points : Tensor R)
    (target_networks_weights : Tensor R) (batch_size : nat) (l : nat) (s : Locals)
  : result Locals :=
  let d0 := nth l (dims self) 0%Z in
  let d1 := nth (S l) (dims self) 0%Z in
  let i := cursor s in
  w_cols <- slice_cols target_networks_weights i (i + (d0 + 2) * d1) ;;
  weight <- view [Z.of_nat batch_size; (d0 + 2)%Z; d1] w_cols ;;
  let i1 := (i + (d0 + 2) * d1)%Z in
  dx0 <- cat 2 (dx s) y_points ;;
  dx1 <- bmm dx0 weight ;;
  b_cols <- slice_cols target_networks_weights i1 (i1 + d1) ;;
  bias <- unsqueeze 1 b_cols ;;
  dx2 <- add_ dx1 bias ;;
  let i2 := (i1 + d1)%Z in
  ws_cols <- slice_cols target_networks_weights i2 (i2 + d1) ;;
  weight_scales <- view [Z.of_nat batch_size; 1%Z; d1] ws_cols ;;
  let i3 := (i2 + d1)%Z in
  bs_cols <- slice_cols target_networks_weights i3 (i3 + d1) ;;
  bias_scales <- unsqueeze 1 bs_cols ;;
  let i4 := (i3 + d1)%Z in
  c1 <- unsqueeze 2 context ;;
  g <- bmm c1 weight_scales ;;
  g' <- add g bias_scales ;;
  let scale := sigmoid g' in
  dx3 <- mul scale dx2 ;;
  sh_cols <- slice_cols target_networks_weights i4 (i4 + d1) ;;
  weight_shift <- view [Z.of_nat batch_size; 1%Z; d1] sh_cols ;;
  let i5 := (i4 + d1)%Z in
  c2 <- unsqueeze 2 context ;;
  shift <- bmm c2 weight_shift ;;
  dx4 <- add_ dx3 shift ;;
  let dx5 := if l <? length (dims self) - 2
             then apply_nonlinearity (activation self) dx4 else dx4 in
  Ok (mkLocals dx5 i5
        (reads s ++ [(SegWeight, i, (i + (d0 + 2) * d1)%Z); (SegBias, i1, (i1 + d1)%Z);
                     (SegWeightScales, i2, (i2 + d1)%Z);
                     (SegBiasScales, i3, (i3 + d1)%Z);
                     (SegWeightShift, i4, (i4 + d1)%Z)])).

(** [ODEHypernet2D.forward], returning its local variables at the end. *)
Definition ODEHypernet2D_run (self : ODEHypernet) (context y y_points : Tensor R)
    (target_networks_weights : Tensor R) : result Locals :=
  batch_size <- size0 target_networks_weights ;;
  for_each (ODEHypernet2D_layer self context y_points target_networks_weights batch_size)
    (seq 0 (length (dims self) - 1)) (mkLocals y 0%Z []).

(** [ODEHypernet2D.forward(context, y, y_points, target_networks_weights)]. *)
Definition ODEHypernet2D_forward (self : ODEHypernet) (context y y_points : Tensor R)
    (target_networks_weights : Tensor R) : result (Tensor R) :=
  s <- ODEHypernet2D_run self context y y_points target_networks_weights ;; Ok (dx s).

End Hypernet.

Arguments Locals R : clear implicits.

(** *** The layout of the weight vector, as the specification words it *)

Definition zsum (ls : list nat) (f : nat -> Z) : Z :=
  fold_right (fun l acc => (f l + acc)%Z) 0%Z ls.

(** The width of layer [l]: a weight matrix of [(dims[l] + extra) * dims[l+1]]
    entries and four vectors of [dims[l+1]] entries ([extra] is 2 for the 2D
    variant and 0 otherwise). *)
Definition layer_width (extra : Z) (ds : list Z) (l : nat) : Z :=
  ((nth l ds 0 + extra) * nth (S l) ds 0 + 4 * nth (S l) ds 0)%Z.

Definition layout_width (extra : Z) (ds : list Z) : Z :=
  zsum (seq 0 (length ds - 1)) (layer_width extra ds).

(** Where layer [l] starts, and its five segments in the fixed order. *)
Definition layout_offset (extra : Z) (ds : list Z) (l : nat) : Z :=
  zsum (seq 0 l) (layer_width extra ds).

Definition layer_segments (extra : Z) (ds : list Z) (l : nat) : list (Segment * Z * Z) :=
  let d1 := nth (S l) ds 0%Z in
  let o := layout_offset extra ds l in
  let o1 := (o + (nth l ds 0 + extra) * d1)%Z in
  [(SegWeight, o, o1); (SegBias, o1, (o1 + d1)%Z);
   (SegWeightScales, (o1 + d1)%Z, (o1 + 2 * d1)%Z);
   (SegBiasScales, (o1 + 2 * d1)%Z, (o1 + 3 * d1)%Z);
   (SegWeightShift, (o1 + 3 * d1)%Z, (o1 + 4 * d1)%Z)].

Definition layout_segments (extra : Z) (ds : list Z) : list (Segment * Z * Z) :=
  flat_map (layer_segments extra ds) (seq 0 (length ds - 1)).

(** What one loop iteration is to do to the cursor and to the log of reads:
    move the cursor by the width of its layer and, when it starts at the
    layer's offset, append the layer's five segments. *)
Definition advances {R : Type} (extra : Z) (ds : list Z)
    (body : nat -> Locals R -> result (Locals R)) : Prop :=
  forall l s s', body l s = Ok s' ->
    cursor s' = (cursor s + layer_width extra ds l)%Z /\
    (cursor s = layout_offset extra ds l ->
     reads s' = reads s ++ layer_segments extra ds l).

(** *** The forward passes read off the layout

    A second description of the two forward passes, after the words of the
    specification and without the cursor of the code: every layer finds its
    five segments in the layout, in the fixed order, and uses each by its
    role. *)

Section LayoutPass.

Context {R : Type} {SR : Scalar R}.

(** The columns of the weight vector that a segment names. *)
Definition segment_columns (w : Tensor R) (seg : Segment * Z * Z) : result (Tensor R) :=
  slice_cols w (snd (fst seg)) (snd seg).

(** The matrix product of a layer: [dx] (followed, in the 2D variant, by the
    two coordinates of every point) times the weight matrix of [d0 + extra]
    rows and [d1] columns that the weight segment holds for each batch
    element. *)
Definition product_by_layout (extra : Z) (ds : list Z) (points : option (Tensor R))
    (w : Tensor R) (batch_size : nat) (l : nat) (seg_weight : Segment * Z * Z)
    (dx : Tensor R) : result (Tensor R) :=
  w_cols <- segment_columns w seg_weight ;;
  weight <- view [Z.of_nat batch_size; (nth l ds 0 + extra)%Z; nth (S l) ds 0%Z] w_cols ;;
  input <- match points with
           | Some y_points => cat 2 dx y_points
           | None => Ok dx
           end ;;
  bmm input weight.

(** The affine part of a layer: the bias segment, one row per batch element,
    is added to the matrix product at every point. *)
Definition affine_by_layout (extra : Z) (ds : list Z) (points : option (Tensor R))
    (w : Tensor R) (batch_size : nat) (l : nat) (seg_weight seg_bias : Segment * Z * Z)
    (dx : Tensor R) : result (Tensor R) :=
  product <- product_by_layout extra ds points w batch_size l seg_weight dx ;;
  b_cols <- segment_columns w seg_bias ;;
  bias <- unsqueeze 1 b_cols ;;
  add_ product bias.

(** The scale of a layer: the sigmoid of the context times the weight-scales
    segment plus the bias-scales segment. *)
Definition scale_by_layout (ds : list Z) (context w : Tensor R) (batch_size : nat)
    (l : nat) (seg_weight_scales seg_bias_scales : Segment * Z * Z)
  : result (Tensor R) :=
  ws_cols <- segment_columns w seg_weight_scales ;;
  weight_scales <- view [Z.of_nat batch_size; 1%Z; nth (S l) ds 0%Z] ws_cols ;;
  bs_cols <- segment_columns w seg_bias_scales ;;
  bias_scales <- unsqueeze 1 bs_cols ;;
  c <- unsqueeze 2 context ;;
  g <- bmm c weight_scales ;;
  g' <- add g bias_scales ;;
  Ok (sigmoid g').

(** The shift of a layer: the context times the weight-shift segment. *)
Definition shift_by_layout (ds : list Z) (context w : Tensor R) (batch_size : nat)
    (l : nat) (seg_weight_shift : Segment * Z * Z) : result (Tensor R) :=
  sh_cols <- segment_columns w seg_weight_shift ;;
  weight_shift <- view [Z.of_nat batch_size; 1%Z; nth (S l) ds 0%Z] sh_cols ;;
  c <- unsqueeze 2 context ;;
  bmm c weight_shift.

(** Layer [l]: its five segments in the order of the layout are the weight
    matrix, the bias, the weight and the bias of the scale, and the weight of
    the shift; the layer is [scale * (input . weight + bias) + shift],
    followed by the nonlinearity in every layer but the last. *)
Definition layer_by_layout (extra : Z) (self : ODEHypernet) (context : Tensor R)
    (points : option (Tensor R)) (w : Tensor R) (batch_size : nat) (l : nat)
    (dx : Tensor R) : result (Tensor R) :=
  match layer_segments extra (dims self) l with
  | [seg_weight; seg_bias; seg_weight_scales; seg_bias_scales; seg_weight_shift] =>
      affine <- affine_by_layout extra (dims self) points w batch_size l
                  seg_weight seg_bias dx ;;
      scale <- scale_by_layout (dims self) context w batch_size l
                 seg_weight_scales seg_bias_scales ;;
      scaled <- mul scale affine ;;
      shift <- shift_by_layout (dims self) context w batch_size l seg_weight_shift ;;
      out <- add_ scaled shift ;;
      Ok (if l <? length (dims self) - 2
          then apply_nonlinearity (activation self) out else out)
  | _ => Raise (IndexError "list index out of range")
  end.

(** The pass: the layers [0 .. len(dims) - 2], one after the other, on the
    state; [extra] is 0 and [points] is absent for [ODEHypernet], [extra] is
    2 and [points] are the coordinates for [ODEHypernet2D]. *)
Definition forward_by_layout (extra : Z) (self : ODEHypernet) (context : Tensor R)
    (points : option (Tensor R)) (y w : Tensor R) : result (Tensor R) :=
  batch_size <- size0 w ;;
  for_each (layer_by_layout extra self context points w batch_size)
    (seq 0 (length (dims self) - 1)) y.

End LayoutPass.

(** ** The drift network [ODEnet] *)

Inductive LayerType : Type :=
| IgnoreLinear | SquashLinear | ScaleLinear | ConcatLinear | ConcatLinear_v2
| ConcatSquashLinear | ConcatScaleLinear.

(** The dictionary [base_layer] is looked up in. *)
Definition base_layer_table (layer_type : string) : result LayerType :=
  if String.eqb layer_type "ignore" then Ok IgnoreLinear
  else if String.eqb layer_type "squash" then Ok SquashLinear
  else if String.eqb layer_type "scale" then Ok ScaleLinear
  else if String.eqb layer_type "concat" then Ok ConcatLinear
  else if String.eqb layer_type "concat_v2" then Ok ConcatLinear_v2
  else if String.eqb layer_type "concatsquash" then Ok ConcatSquashLinear
  else if String.eqb layer_type "concatscale" then Ok ConcatScaleLinear
  else Raise (KeyError layer_type).

(** Modelled from the spec: the classes of the module [diffeq_layers] are
    not among the sources.  A layer is kept as the class and the three
    arguments [base_layer(dim_in, dim_out, context_dim)] constructs it from. *)
Record DiffeqLayer : Type := mkDiffeqLayer {
  layer_class : LayerType;
  dim_in : Z;
  dim_out : Z;
  layer_context_dim : Z
}.

Record ODEnet : Type := mkODEnet {
  layers : list DiffeqLayer;
  activation_fns : list Nonlinearity
}.

(** The variables the loop of [ODEnet.__init__] updates. *)
Record Building : Type := mkBuilding {
  built_layers : list DiffeqLayer;
  built_activation_fns : list Nonlinearity;
  hidden_shape : list Z
}.

(** One iteration of the loop of [ODEnet.__init__]. *)
Definition ODEnet_init_step (base_layer : LayerType) (context_dim : Z)
    (nonlinearity : string) (dim_out : Z) (s : Building) : result Building :=
  h0 <- getitem (hidden_shape s) 0 ;;
  let layer := mkDiffeqLayer base_layer h0 dim_out context_dim in
  act <- NONLINEARITIES nonlinearity ;;
  Ok (mkBuilding (built_layers s ++ [layer]) (built_activation_fns s ++ [act])
        (dim_out :: tl (hidden_shape s))).

(** [ODEnet.__init__(hidden_dims, input_shape, context_dim, layer_type,
    nonlinearity)]. *)
Definition ODEnet_init (hidden_dims input_shape : list Z) (context_dim : Z)
    (layer_type nonlinearity : string) : result ODEnet :=
  base_layer <- base_layer_table layer_type ;;
  d <- getitem input_shape 0 ;;
  s <- for_each (ODEnet_init_step base_layer context_dim nonlinearity)
         (hidden_dims ++ [d]) (mkBuilding [] [] input_shape) ;;
  Ok (mkODEnet (built_layers s) (removelast (built_activation_fns s))).

Section DriftNetwork.

Context {R : Type} {SR : Scalar R}.

(** Modelled from the spec: the forward pass [layer(context, x)] of a layer
    of [diffeq_layers]. *)
Variable layer_forward : DiffeqLayer -> Tensor R -> Tensor R -> result (Tensor R).

(** One iteration of the loop of [ODEnet.forward]. *)
Definition ODEnet_forward_step (self : ODEnet) (context : Tensor R)
    (item : nat * DiffeqLayer) (dx : Tensor R) : result (Tensor R) :=
  let (l, layer) := item in
  dx1 <- layer_forward layer context dx ;;
  if l <? length (layers self) - 1 then
    act <- getitem (activation_fns self) l ;;
    Ok (apply_nonlinearity act dx1)
  else Ok dx1.

(** [ODEnet.forward(context, y)]. *)
Definition ODEnet_forward (self : ODEnet) (context y : Tensor R) : result (Tensor R) :=
  for_each (ODEnet_forward_step self context)
    (combine (seq 0 (length (layers self))) (layers self)) y.

End DriftNetwork.

(** ** Divergence estimators *)

Section Divergence.

Context {R : Type} {SR : Scalar R}.

(** A tensor computed from the state [y], with what [torch.autograd.grad]
    reads off its graph: [jacobian p q] is the derivative of entry [p] of
    the tensor by entry [q] of [y], and [double_backward] tells whether a
    gradient built from it with [create_graph=True] has gradient history
    itself. *)
Record GraphTensor : Type := mkGraphTensor {
  value : Tensor R;
  jacobian : list nat -> list nat -> R;
  double_backward : bool
}.

(** [g[:, :, i]] and [g.sum()] with their graphs. *)
Definition graph_index_dim2 (g : GraphTensor) (i : nat) : result GraphTensor :=
  v <- index_dim2 (value g) i ;;
  Ok (mkGraphTensor v
        (fun p q => jacobian g (firstn 2 p ++ i :: skipn 2 p) q)
        (double_backward g)).

Definition graph_sum (g : GraphTensor) : GraphTensor :=
  mkGraphTensor (sum_all (value g))
    (fun _ q => rsum (indices (shape (value g))) (fun p => jacobian g p q))
    (double_backward g).

(** The gradient engine: [autograd_grad k outputs inputs grad_outputs] is
    the first component of
    [torch.autograd.grad(outputs, inputs, grad_outputs, create_graph=True)]
    at the call number [k] of a run. *)
Definition Autograd : Type :=
  nat -> GraphTensor -> Tensor R -> option (Tensor R) -> result (Tensor R).

(** The engine as documented: the vector-Jacobian product of [grad_outputs]
    (an implicit one for a scalar output) with the Jacobian of [outputs]. *)
Definition vjp_grad : Autograd :=
  fun _ outputs inputs grad_outputs =>
    let out_shape := shape (value outputs) in
    v <- match grad_outputs with
         | Some e =>
             if list_nat_eqb (shape e) out_shape then Ok (data e)
             else Raise (RuntimeError "Mismatch in shape of grad_output and output")
         | None =>
             if numel out_shape =? 1 then Ok (fun _ => sone)
             else Raise (RuntimeError "grad can be implicitly created only for scalar outputs")
         end ;;
    if negb (requires_grad (value outputs)) then
      Raise (RuntimeError "element 0 of tensors does not require grad and does not have a grad_fn")
    else if negb (requires_grad inputs) then
      Raise (RuntimeError "One of the differentiated Tensors does not require grad")
    else
      Ok (mkTensor (shape inputs) (dtype inputs) (double_backward outputs)
            (fun q => rsum (indices out_shape) (fun p => smul (v p) (jacobian outputs p q)))).

Variable autograd_grad : Autograd.

(** The [while] loop of [divergence_approx]: its condition bounds the
    iterations left by [10 - cnt], the measure [left] of the recursion. *)
Fixpoint divergence_approx_retry (left cnt : nat) (f : GraphTensor) (y e : Tensor R)
    (e_dzdx e_dzdx_e : Tensor R) : result (Tensor R * Tensor R * nat) :=
  match left with
  | 0 => Ok (e_dzdx, e_dzdx_e, cnt)
  | S left' =>
      if negb (requires_grad e_dzdx_e) && (cnt <? 10) then
        e_dzdx' <- autograd_grad (S cnt) f y (Some e) ;;
        e_dzdx_e' <- mul e_dzdx' e ;;
        divergence_approx_retry left' (S cnt) f y e e_dzdx' e_dzdx_e'
      else Ok (e_dzdx, e_dzdx_e, cnt)
  end.

(** [divergence_approx(f, y, e)] for a tensor [e]. *)
Definition divergence_approx (f : GraphTensor) (y e : Tensor R) : result (Tensor R) :=
  e_dzdx <- autograd_grad 0 f y (Some e) ;;
  e_dzdx_e <- mul e_dzdx e ;;
  looped <- divergence_approx_retry 10 0 f y e e_dzdx e_dzdx_e ;;
  let '(e_dzdx, e_dzdx_e, cnt) := looped in
  let approx_tr_dzdx := sum_last e_dzdx_e in
  if requires_grad approx_tr_dzdx then Ok approx_tr_dzdx
  else Raise (AssertionError
                (MsgFailedToAddNode (shape (value f)) (requires_grad (value f))
                   (requires_grad y) (requires_grad e_dzdx) (requires_grad e)
                   (requires_grad e_dzdx_e) cnt)).

(** [sum_diag] of [divergence_bf]: the float [0.] until the first addition. *)
Inductive SumDiag : Type :=
| FloatZero
| SumTensor (t : Tensor R).

(** One iteration of the loop of [divergence_bf]. *)
Definition divergence_bf_step (dx : GraphTensor) (y : Tensor R) (i : nat)
    (sum_diag : SumDiag) : result SumDiag :=
  column <- graph_index_dim2 dx i ;;
  g <- autograd_grad i (graph_sum column) y None ;;
  gi <- index_dim2 g i ;;
  match sum_diag with
  | FloatZero => Ok (SumTensor (pointwise (fun x => sadd x szero) gi))
  | SumTensor t => t' <- add_ t gi ;; Ok (SumTensor t')
  end.

(** [divergence_bf(dx, y)]. *)
Definition divergence_bf (dx : GraphTensor) (y : Tensor R) : result (Tensor R) :=
  d <- match rev (shape y) with
       | d :: _ => Ok d
       | [] => Raise (IndexError "tuple index out of range")
       end ;;
  sum_diag <- for_each (divergence_bf_step dx y) (seq 0 d) FloatZero ;;
  match sum_diag with
  | FloatZero => Raise (AttributeError "float" "contiguous")
  | SumTensor t => Ok t
  end.

(** Gradient call number [k] of a run returns [g], whose product with the
    probe is [p]. *)
Definition attempt (f : GraphTensor) (y e : Tensor R) (k : nat) (g p : Tensor R)
  : Prop :=
  autograd_grad k f y (Some e) = Ok g /\ mul g e = Ok p.

End Divergence.

Arguments GraphTensor R : clear implicits.
Arguments Autograd R : clear implicits.
Arguments SumDiag R : clear implicits.

(** *** What the estimators are to compute, as the specification words it *)

Section DivergenceSpec.

Context {R : Type} {SR : Scalar R}.

(** [e^T J e] at the batch element with leading index [p], for states of
    width [d]. *)
Definition quadratic_form (e : list nat -> R) (J : list nat -> list nat -> R)
    (p : list nat) (d : nat) : R :=
  rsum (seq 0 d) (fun j =>
    rsum (seq 0 d) (fun i => smul (smul (e (p ++ [j])) (J (p ++ [j]) (p ++ [i]))) (e (p ++ [i])))).

(** The trace of the Jacobian at the batch element with leading index [p]. *)
Definition jacobian_trace (J : list nat -> list nat -> R) (p : list nat) (d : nat) : R :=
  rsum (seq 0 d) (fun i => J (p ++ [i]) (p ++ [i])).

(** The drift acts on each leading index by itself (each batch element of a
    state of size (batch, dim), each point of each batch element of a state
    of size (batch, points, dim)): an output entry has no derivative by the
    entries at another leading index. *)
Definition batchwise (J : list nat -> list nat -> R) (lead : list nat) : Prop :=
  forall p p' j i, In p (indices lead) -> In p' (indices lead) -> p <> p' ->
    J (p' ++ [j]) (p ++ [i]) = szero.

(** The linear drift [dy = A . y] on every batch element: entry [j] of the
    output is [sum_i A j i * y_i], whose derivative by [y_i] is [A j i]. *)
Definition linear_drift (A : nat -> nat -> R) (y : Tensor R) : GraphTensor R :=
  let d := last (shape y) 0 in
  mkGraphTensor
    (mkTensor (shape y) (dtype y) true
       (fun idx => rsum (seq 0 d) (fun i =>
          smul (A (last idx 0) i) (data y (removelast idx ++ [i])))))
    (fun p q =>
       if list_nat_eqb (removelast p) (removelast q)
       then A (last p 0) (last q 0) else szero)
    false.

Definition matrix_trace (A : nat -> nat -> R) (d : nat) : R :=
  rsum (seq 0 d) (fun i => A i i).

(** The entries of the gradient of [dx[:, :, k].sum()] by [y], as the
    documented engine computes them. *)
Definition column_gradient (J : list nat -> list nat -> R) (b n k : nat)
    (q : list nat) : R :=
  rsum (indices []) (fun _ =>
    smul sone (rsum (indices [b; n])
                 (fun p' => J (firstn 2 p' ++ k :: skipn 2 p') q))).

(** What [sum_diag] holds after the iterations [0, ..., k-1] of the loop of
    [divergence_bf]: the float [0.] before the first, then the partial sums
    of the diagonal of the Jacobian at every batch element. *)
Definition partial_trace (J : list nat -> list nat -> R) (b n k : nat)
    (sum_diag : SumDiag R) : Prop :=
  match sum_diag with
  | FloatZero => k = 0
  | SumTensor t =>
      0 < k /\ shape t = [b; n] /\
      forall p, In p (indices [b; n]) ->
        data t p = rsum (seq 0 k) (fun i => J (p ++ [i]) (p ++ [i]))
  end.

End DivergenceSpec.

(** ** State functions *)

(** A method that may update the attributes of [self] before it returns
    or raises: what it wrote before an exception stays written. *)
Definition method (Self A : Type) : Type := Self -> Self * result A.

Definition mbind {Self A B : Type} (c : method Self A) (k : A -> method Self B)
  : method Self B :=
  fun self =>
    match c self with
    | (self', Ok a) => k a self'
    | (self', Raise e) => (self', Raise e)
    end.

Definition lift {Self A : Type} (r : result A) : method Self A :=
  fun self => (self, r).

Definition read {Self A : Type} (get : Self -> A) : method Self A :=
  fun self => (self, Ok (get self)).

Definition write {Self : Type} (set : Self -> Self) : method Self unit :=
  fun self => (set self, Ok tt).

Notation "x <~ c ;; k" := (mbind c (fun x => k))
  (at level 61, c at next level, right associativity).

(** An attribute that [__init__] does not assign: reading it before an
    assignment raises [AttributeError]. *)
Definition getattr {A : Type} (obj name : string) (slot : option A) : result A :=
  match slot with
  | Some a => Ok a
  | None => Raise (AttributeError obj name)
  end.

Section TimeTensor.

Context {R : Type} {SR : Scalar R}.

(** [torch.ones(y.size(0), 1).to(y) * t.clone().detach().requires_grad_(True).type_as(y)]
    for a scalar time [t]. *)
Definition broadcast_time (batch : nat) (y : Tensor R) (t : R) : Tensor R :=
  mkTensor [batch; 1] (dtype y) true (fun _ => smul sone t).

(** The probe a call uses: the fixed one, or the one it samples. *)
Definition probe (fixed : option (Tensor R)) (y : Tensor R) (sample : list nat -> R)
  : Tensor R :=
  match fixed with
  | Some e => e
  | None => randn_like y sample
  end.

(** A tensor of zeros of the size and dtype of [c]. *)
Definition zero_like (z c : Tensor R) : Prop :=
  shape z = shape c /\ dtype z = dtype c /\ forall idx, data z idx = szero.

End TimeTensor.

(** [_num_evals] is a float32 buffer holding a whole number.  [round_float32]
    rounds a whole number to the nearest one float32 holds, the one with
    the even significand when two are as near: every whole number below
    [2^24] in absolute value is held, above that only the multiples of a
    power of 2.  [float32_add] is the float32 sum of two whole numbers that
    float32 holds (a sum below the largest float32, as every sum with 1
    is). *)
Definition round_float32 (x : Z) : Z :=
  let a := Z.abs x in
  if (a <? 2 ^ 24)%Z then x
  else
    let ulp := (2 ^ (Z.log2 a - 23))%Z in
    let q := (a / ulp)%Z in
    let r := (a mod ulp)%Z in
    let q' := if (2 * r <? ulp)%Z then q
              else if (ulp <? 2 * r)%Z then (q + 1)%Z
              else if Z.even q then q else (q + 1)%Z in
    (Z.sgn x * (q' * ulp))%Z.

Definition float32_add (a b : Z) : Z := round_float32 (a + b).

Module ODEfunc.
Section Methods.

Context {R : Type} {SR : Scalar R}.
Variable autograd_grad : Autograd R.

(** The attributes: [_e] is [None] until [before_odeint] assigns it (then
    [Some None] for Python's [None]); [_num_evals] is the whole number the
    float32 buffer holds. *)
Record t : Type := mk {
  diffeq : Tensor R -> Tensor R -> result (GraphTensor R);
  divergence_fn : GraphTensor R -> Tensor R -> Tensor R -> result (Tensor R);
  _num_evals : Z;
  _e : option (option (Tensor R))
}.

Definition init (diffeq_arg : Tensor R -> Tensor R -> result (GraphTensor R)) : t :=
  mk diffeq_arg (divergence_approx autograd_grad) 0%Z None.

Definition before_odeint (e : option (Tensor R)) (self : t) : t :=
  mk (diffeq self) (divergence_fn self) 0%Z (Some e).

(** [forward(t, states)]; [sample] are the entries [torch.randn_like] draws
    when it is called. *)
Definition forward (time : R) (states : list (Tensor R)) (sample : list nat -> R)
  : method t (list (Tensor R)) :=
  y0 <~ lift (getitem states 0) ;;
  batch <~ lift (size0 y0) ;;
  let t_rows := broadcast_time batch y0 time in
  _ <~ write (fun self =>
         mk (diffeq self) (divergence_fn self) (float32_add (_num_evals self) 1) (_e self)) ;;
  let states := map (requires_grad_ true) states in
  let y := requires_grad_ true y0 in
  fixed <~ (fun self => (self, getattr "ODEfunc" "_e" (_e self))) ;;
  e <~ match fixed with
       | None =>
           let fresh := randn_like y sample in
           _ <~ write (fun self =>
                  mk (diffeq self) (divergence_fn self) (_num_evals self)
                     (Some (Some fresh))) ;;
           lift (Ok fresh)
       | Some e => lift (Ok e)
       end ;;
  self <~ read (fun self => self) ;;
  lift (match length states with
        | 3 =>
            c <- getitem states 2 ;;
            c_rows <- view [Z.of_nat batch; (-1)%Z] c ;;
            tc <- cat 1 t_rows c_rows ;;
            dy <- diffeq self tc y ;;
            div <- divergence_fn self dy y e ;;
            let divergence := unsqueeze_last div in
            Ok [value dy; neg divergence; requires_grad_ true (zeros_like c)]
        | 2 =>
            dy <- diffeq self t_rows y ;;
            div <- divergence_fn self dy y e ;;
            divergence <- view [(-1)%Z; 1%Z] div ;;
            Ok [value dy; neg divergence]
        | _ => Raise (AssertionError (MsgText "`len(states)` should be 2 or 3"))
        end).

End Methods.
End ODEfunc.

Module ODEhyperfunc.
Section Methods.

Context {R : Type} {SR : Scalar R}.
Variable autograd_grad : Autograd R.

(** The attributes; [training] is the flag every [nn.Module] carries, set
    at construction and switched by [train]. *)
Record t : Type := mk {
  diffeq : Tensor R -> Tensor R -> Tensor R -> result (GraphTensor R);
  use_div_approx_train : bool;
  use_div_approx_test : bool;
  training : bool;
  _num_evals : Z;
  _e : option (option (Tensor R))
}.

Definition init (use_div_approx_train_arg use_div_approx_test_arg : bool)
    (diffeq_arg : Tensor R -> Tensor R -> Tensor R -> result (GraphTensor R)) : t :=
  mk diffeq_arg use_div_approx_train_arg use_div_approx_test_arg true 0%Z None.

(** [self.train(mode)]; [self.eval()] is [train false]. *)
Definition train (mode : bool) (self : t) : t :=
  mk (diffeq self) (use_div_approx_train self) (use_div_approx_test self) mode
     (_num_evals self) (_e self).

Definition before_odeint (e : option (Tensor R)) (self : t) : t :=
  mk (diffeq self) (use_div_approx_train self) (use_div_approx_test self)
     (training self) 0%Z (Some e).

Definition forward (time : R) (states : list (Tensor R)) (sample : list nat -> R)
  : method t (list (Tensor R)) :=
  y0 <~ lift (getitem states 0) ;;
  batch <~ lift (size0 y0) ;;
  let t_rows := broadcast_time batch y0 time in
  _ <~ write (fun self =>
         mk (diffeq self) (use_div_approx_train self) (use_div_approx_test self)
            (training self) (float32_add (_num_evals self) 1) (_e self)) ;;
  let states := map (requires_grad_ true) states in
  let y := requires_grad_ true y0 in
  fixed <~ (fun self => (self, getattr "ODEhyperfunc" "_e" (_e self))) ;;
  e <~ match fixed with
       | None =>
           let fresh := randn_like y sample in
           _ <~ write (fun self =>
                  mk (diffeq self) (use_div_approx_train self)
                     (use_div_approx_test self) (training self) (_num_evals self)
                     (Some (Some fresh))) ;;
           lift (Ok fresh)
       | Some e => lift (Ok e)
       end ;;
  self <~ read (fun self => self) ;;
  lift (c <- getitem states 2 ;;
        dy <- diffeq self t_rows y c ;;
        div <- (if training self then
                  if use_div_approx_train self
                  then divergence_approx autograd_grad dy y e
                  else divergence_bf autograd_grad dy y
                else
                  if use_div_approx_test self
                  then divergence_approx autograd_grad dy y e
                  else divergence_bf autograd_grad dy y) ;;
        let divergence := unsqueeze_last div in
        Ok [value dy; neg divergence; requires_grad_ true (zeros_like c)]).

End Methods.
End ODEhyperfunc.

Module ODEhyperfunc2D.
Section Methods.

Context {R : Type} {SR : Scalar R}.
Variable autograd_grad : Autograd R.

Record t : Type := mk {
  diffeq : Tensor R -> Tensor R -> Tensor R -> Tensor R -> result (GraphTensor R);
  divergence_fn : GraphTensor R -> Tensor R -> Tensor R -> result (Tensor R);
  _num_evals : Z;
  _e : option (option (Tensor R))
}.

Definition init
    (diffeq_arg : Tensor R -> Tensor R -> Tensor R -> Tensor R -> result (GraphTensor R))
  : t :=
  mk diffeq_arg (divergence_approx autograd_grad) 0%Z None.

Definition before_odeint (e : option (Tensor R)) (self : t) : t :=
  mk (diffeq self) (divergence_fn self) 0%Z (Some e).

Definition forward (time : R) (states : list (Tensor R)) (sample : list nat -> R)
  : method t (list (Tensor R)) :=
  y0 <~ lift (getitem states 0) ;;
  batch <~ lift (size0 y0) ;;
  let t_rows := broadcast_time batch y0 time in
  _ <~ write (fun self =>
         mk (diffeq self) (divergence_fn self) (float32_add (_num_evals self) 1) (_e self)) ;;
  let states := map (requires_grad_ true) states in
  let y := requires_grad_ true y0 in
  fixed <~ (fun self => (self, getattr "ODEhyperfunc2D" "_e" (_e self))) ;;
  e <~ match fixed with
       | None =>
           let fresh := randn_like y sample in
           _ <~ write (fun self =>
                  mk (diffeq self) (divergence_fn self) (_num_evals self)
                     (Some (Some fresh))) ;;
           lift (Ok fresh)
       | Some e => lift (Ok e)
       end ;;
  self <~ read (fun self => self) ;;
  lift (c <- getitem states 2 ;;
        target_networks_weights <- getitem states 3 ;;
        dy <- diffeq self t_rows y c target_networks_weights ;;
        div <- divergence_fn self dy y e ;;
        let divergence := unsqueeze_last div in
        Ok [value dy; neg divergence; requires_grad_ true (zeros_like c);
            requires_grad_ true (zeros_like target_networks_weights)]).

End Methods.
End ODEhyperfunc2D.

(** The estimator [ODEhyperfunc.forward] is to use, as the specification
    words it: the train flag decides in training mode, the test flag in
    evaluation mode. *)
Inductive Estimator : Type := Approximate | BruteForce.

Definition selected_estimator (training use_div_approx_train use_div_approx_test : bool)
  : Estimator :=
  if (training && use_div_approx_train) || (negb training && use_div_approx_test)
  then Approximate else BruteForce.

(** ** The integers as scalars, for running the model *)

(** The ring of integers, with the sign for the sigmoid and integer
    functions for the nonlinearities: the theorems hold for every
    interpretation of these, the outputs quoted at the concrete inputs are
    those of this one. *)
#[export] Instance ZScalar : Scalar Z := {
  szero := 0%Z;
  sone := 1%Z;
  sadd := Z.add;
  smul := Z.mul;
  ssub := Z.sub;
  sopp := Z.opp;
  ssigmoid := Z.sgn;
  snonlin := fun n x =>
    match n with
    | ReLU => Z.max 0 x
    | Square => (x * x)%Z
    | _ => x
    end
}.

(** A tensor of integers given by its rows (rank 2) or its matrices (rank 3). *)
Definition tensor2 (rows cols : nat) (rg : bool) (entries : list (list Z)) : Tensor Z :=
  mkTensor [rows; cols] Float32 rg
    (fun idx => nth (nth 1 idx 0) (nth (nth 0 idx 0) entries []) 0%Z).

Definition tensor3 (b n d : nat) (rg : bool) (entries : list (list (list Z))) : Tensor Z :=
  mkTensor [b; n; d] Float32 rg
    (fun idx => nth (nth 2 idx 0) (nth (nth 1 idx 0) (nth (nth 0 idx 0) entries []) []) 0%Z).

(** ** Concrete inputs *)

(** A hypernetwork drift [1 -> 2 -> 1] with its 16 weights, two points of
    one batch element, and the time as context; the 2D variant with two more
    coordinates per point and its 22 weights. *)
Definition ex_hypernet : ODEHypernet := mkODEHypernet ReLU true [1; 2; 1]%Z.

Definition ex_weights : Tensor Z :=
  tensor2 1 16 true [[1; 2; 3; 4; 1; 1; 0; 0; 5; 6; 1; 1; 7; 1; 0; 2]%Z].

Definition ex_points : Tensor Z := tensor3 1 2 1 false [[[1]; [2]]]%Z.

Definition ex_context : Tensor Z := tensor2 1 1 true [[1]]%Z.

Definition ex_y_points : Tensor Z := tensor3 1 2 2 false [[[1; 0]; [0; 1]]]%Z.

Definition ex_weights2D : Tensor Z :=
  tensor2 1 22 true
    [[1; 2; 1; 1; 1; 1; 3; 4; 1; 1; 0; 0; 5; 6; 1; 1; 1; 1; 7; 1; 0; 2]%Z].

(** The same weights with another bias for the first layer. *)
Definition ex_weights_other_bias : Tensor Z :=
  tensor2 1 16 true [[1; 2; 9; 9; 1; 1; 0; 0; 5; 6; 1; 1; 7; 1; 0; 2]%Z].

Definition ex_weights2D_other_bias : Tensor Z :=
  tensor2 1 22 true
    [[1; 2; 1; 1; 1; 1; 9; 9; 1; 1; 0; 0; 5; 6; 1; 1; 1; 1; 7; 1; 0; 2]%Z].

(** A linear drift on states of width 2, two states with their log-density
    and context channels, and a weight channel. *)
Definition ex_matrix (j i : nat) : Z := nth i (nth j [[1; 2]; [3; 4]]%Z []) 0%Z.

Definition ex_y : Tensor Z := tensor2 2 2 false [[1; 2]; [3; 4]]%Z.

Definition ex_log_p : Tensor Z := tensor2 2 1 false [[0]; [0]]%Z.

Definition ex_c : Tensor Z := tensor2 2 1 false [[5]; [6]]%Z.

Definition ex_y3 : Tensor Z := tensor3 1 2 2 false [[[1; 2]; [3; 4]]]%Z.

Definition ex_w : Tensor Z := tensor2 1 3 false [[7; 8; 9]]%Z.

Definition ex_sample : list nat -> Z := fun _ => 1%Z.

Definition ex_diffeq : Tensor Z -> Tensor Z -> result (GraphTensor Z) :=
  fun _ y => Ok (linear_drift ex_matrix y).

Definition ex_diffeq3 : Tensor Z -> Tensor Z -> Tensor Z -> result (GraphTensor Z) :=
  fun _ y _ => Ok (linear_drift ex_matrix y).

Definition ex_diffeq4
  : Tensor Z -> Tensor Z -> Tensor Z -> Tensor Z -> result (GraphTensor Z) :=
  fun _ y _ _ => Ok (linear_drift ex_matrix y).

Definition ex_odefunc : ODEfunc.t :=
  ODEfunc.before_odeint None (ODEfunc.init vjp_grad ex_diffeq).

Definition ex_odehyperfunc : ODEhyperfunc.t :=
  ODEhyperfunc.train false
    (ODEhyperfunc.before_odeint None (ODEhyperfunc.init true false ex_diffeq3)).

Definition ex_odehyperfunc2D : ODEhyperfunc2D.t :=
  ODEhyperfunc2D.before_odeint None (ODEhyperfunc2D.init vjp_grad ex_diffeq4).

(** The drift [y.sum() * ones(2, 1)], of size (2, 1) whatever the size of
    [y]: its gradient by [y] has no gradient history.  A probe without
    gradient history, and two states of different sizes. *)
Definition ex_total (y : Tensor Z) : GraphTensor Z :=
  mkGraphTensor
    (mkTensor [2; 1] Float32 true (fun _ => rsum (indices (shape y)) (data y)))
    (fun _ _ => 1%Z) false.

Definition ex_e : Tensor Z := tensor2 2 1 false [[1]; [1]]%Z.

Definition ex_state_a : Tensor Z := tensor2 2 3 true [[1; 2; 3]; [4; 5; 6]]%Z.

Definition ex_state_b : Tensor Z := tensor2 2 4 true [[1; 2; 3; 4]; [4; 5; 6; 7]]%Z.

(** A probe of ones that does not require gradients, as one handed to
    [before_odeint] may be; and the drift that puts twice the first point of
    a batch element at every point of it, [dx[b, n, j] = 2 * y[b, 0, j]],
    whose derivative by [y[b, 0, j]] is 2 at every point [n]. *)
Definition ex_probe_without_grad : Tensor Z := tensor2 2 2 false [[1; 1]; [1; 1]]%Z.

Definition ex_first_point_drift (y : Tensor Z) : GraphTensor Z :=
  mkGraphTensor
    (mkTensor (shape y) (dtype y) true
       (fun idx => Z.mul 2 (data y [nth 0 idx 0; 0; nth 2 idx 0])))
    (fun p q =>
       if (nth 0 p 0 =? nth 0 q 0) && (nth 1 q 0 =? 0) && (nth 2 p 0 =? nth 2 q 0)
       then 2%Z else 0%Z)
    false.

(** ** Sequences of solver calls *)

Section SolverCalls.

Context {R : Type} {SR : Scalar R}.

(** One call [forward(t, states)] by the solver: the time, the state tuple,
    and the entries a draw of noise would give at that call. *)
Definition Call : Type := (R * list (Tensor R) * (list nat -> R))%type.

(** Whether a call gets as far as [self._num_evals += 1]: [states[0]] and
    [y.size(0)] are evaluated before it. *)
Definition reaches_counter (call : Call) : bool :=
  is_ok (y <- getitem (snd (fst call)) 0 ;; size0 y).

(** The probe a call draws when it comes to sampling: noise of the size and
    dtype of [states[0]]. *)
Definition drawn_probe (call : Call) : option (Tensor R) :=
  match getitem (snd (fst call)) 0 with
  | Ok y0 => Some (randn_like (requires_grad_ true y0) (snd call))
  | Raise _ => None
  end.

(** The module after the calls of a list, in order, whatever each returned
    or raised. *)
Definition ODEfunc_calls (calls : list Call) (self : ODEfunc.t) : ODEfunc.t :=
  fold_left (fun s call =>
               fst (ODEfunc.forward (fst (fst call)) (snd (fst call)) (snd call) s))
    calls self.

Definition ODEhyperfunc_calls (autograd_grad : Autograd R) (calls : list Call)
    (self : ODEhyperfunc.t) : ODEhyperfunc.t :=
  fold_left (fun s call =>
               fst (ODEhyperfunc.forward autograd_grad (fst (fst call))
                      (snd (fst call)) (snd call) s))
    calls self.

Definition ODEhyperfunc2D_calls (calls : list Call) (self : ODEhyperfunc2D.t)
  : ODEhyperfunc2D.t :=
  fold_left (fun s call =>
               fst (ODEhyperfunc2D.forward (fst (fst call)) (snd (fst call))
                      (snd call) s))
    calls self.

End SolverCalls.

(** ** The keys of the two registries *)

Definition layer_type_keys : list string :=
  ["ignore"; "squash"; "scale"; "concat"; "concat_v2"; "concatsquash";
   "concatscale"]%string.

Definition nonlinearity_keys : list string :=
  ["tanh"; "relu"; "softplus"; "elu"; "swish"; "square"; "identity"]%string.

(** The number of dashes of a string. *)
Definition count_dashes (s : string) : nat :=
  count_occ ascii_dec (list_ascii_of_string s) dash.

(** ** A hypernetwork as the drift of a state function *)

Section HypernetDrift.

Context {R : Type} {SR : Scalar R}.

(** The [diffeq] handed to [ODEhyperfunc]: the forward pass of an
    [ODEHypernet], called as [diffeq(t, y, c)], so with the time as context
    and the third channel as weight vector.  What the gradient engine reads
    off the graph of the result, [jac] and [history], is not determined by
    the forward pass in this model and is given with it. *)
Definition ODEHypernet_diffeq (net : ODEHypernet)
    (jac : Tensor R -> Tensor R -> Tensor R -> list nat -> list nat -> R)
    (history : bool) : Tensor R -> Tensor R -> Tensor R -> result (GraphTensor R) :=
  fun t y w =>
    v <- ODEHypernet_forward net t y w ;;
    Ok (mkGraphTensor v (jac t y w) history).

(** The [diffeq] handed to [ODEhyperfunc2D]: the forward pass of an
    [ODEHypernet2D], called as [diffeq(t, y, c, target_networks_weights)]. *)
Definition ODEHypernet2D_diffeq (net : ODEHypernet)
    (jac : Tensor R -> Tensor R -> Tensor R -> Tensor R -> list nat -> list nat -> R)
    (history : bool)
  : Tensor R -> Tensor R -> Tensor R -> Tensor R -> result (GraphTensor R) :=
  fun t y c w =>
    v <- ODEHypernet2D_forward net t y c w ;;
    Ok (mkGraphTensor v (jac t y c w) history).

End HypernetDrift.

(** A state function in evaluation mode over the example hypernetwork, with
    a graph without derivatives: the sizes do not depend on them. *)
Definition ex_hypernet_func : ODEhyperfunc.t :=
  ODEhyperfunc.train false
    (ODEhyperfunc.before_odeint None
       (ODEhyperfunc.init true false
          (ODEHypernet_diffeq ex_hypernet (fun _ _ _ _ _ => 0%Z) true))).

(** The example points with the second one moved. *)
Definition ex_points_moved : Tensor Z := tensor3 1 2 1 false [[[1]; [5]]]%Z.

(** * Proofs *)

(** ** The result monad *)

Lemma bind_ok {A B : Type} (c : result A) (k : A -> result B) (b : B) :
  bind c k = Ok b -> exists a, c = Ok a /\ k a = Ok b.
Proof.
  destruct c as [a | e]; simpl; intros H.
  - exists a. split; [reflexivity | exact H].
  - discriminate H.
Qed.

Lemma is_ok_inv {A : Type} (c : result A) :
  is_ok c = true -> exists a, c = Ok a.
Proof.
  destruct c as [a | e]; simpl; intros H; [exists a; reflexivity | discriminate H].
Qed.

Lemma method_ok_inv {Self A : Type} (p : Self * result A) :
  is_ok (snd p) = true -> exists self' a, p = (self', Ok a).
Proof.
  destruct p as [self' [a | e]]; simpl; intros H;
    [exists self', a; reflexivity | discriminate H].
Qed.

(** Splits an equation [x <- c ;; k = Ok b] into its two steps. *)
Ltac bind_inv H :=
  let a := fresh "v" in
  let Ha := fresh "E" in
  apply bind_ok in H; destruct H as [a [Ha H]].

Ltac binds_inv H := repeat bind_inv H.

(** ** The weight vector layout *)

Lemma zsum_app (xs ys : list nat) (f : nat -> Z) :
  zsum (xs ++ ys) f = (zsum xs f + zsum ys f)%Z.
Proof.
  induction xs as [| x xs IH]; simpl; [reflexivity | rewrite IH; lia].
Qed.

Lemma layout_offset_succ (extra : Z) (ds : list Z) (l : nat) :
  layout_offset extra ds (S l) = (layout_offset extra ds l + layer_width extra ds l)%Z.
Proof.
  unfold layout_offset. rewrite seq_S, zsum_app. simpl. lia.
Qed.

Section LayoutSteps.

Context {R : Type} {SR : Scalar R}.

Lemma ODEHypernet_layer_advances (self : ODEHypernet) (context w : Tensor R) (b : nat) :
  advances 0 (dims self) (ODEHypernet_layer self context w b).
Proof.
  intros l s s' H. unfold ODEHypernet_layer in H. binds_inv H.
  injection H as <-. simpl. unfold layer_width. split; [lia |].
  intros Hc. unfold layer_segments. rewrite <- Hc.
  repeat (f_equal; try lia).
Qed.

Lemma ODEHypernet2D_layer_advances (self : ODEHypernet) (context yp w : Tensor R)
    (b : nat) :
  advances 2 (dims self) (ODEHypernet2D_layer self context yp w b).
Proof.
  intros l s s' H. unfold ODEHypernet2D_layer in H. binds_inv H.
  injection H as <-. simpl. unfold layer_width. split; [lia |].
  intros Hc. unfold layer_segments. rewrite <- Hc.
  repeat (f_equal; try lia).
Qed.

(** A loop over the layers [a, a+1, ..., a+n-1] that starts at the offset of
    layer [a] ends at the offset of layer [a+n], having read the segments of
    these layers in order. *)
Lemma for_each_layout (extra : Z) (ds : list Z)
    (body : nat -> Locals R -> result (Locals R)) :
  advances extra ds body ->
  forall n a s s',
    cursor s = layout_offset extra ds a ->
    for_each body (seq a n) s = Ok s' ->
    cursor s' = layout_offset extra ds (a + n) /\
    reads s' = reads s ++ flat_map (layer_segments extra ds) (seq a n).
Proof.
  intros Hbody n. induction n as [| n IH]; intros a s s' Hc H; simpl in H.
  - injection H as <-. rewrite Nat.add_0_r, app_nil_r. auto.
  - bind_inv H. destruct (Hbody _ _ _ E) as [Hcur Hreads].
    specialize (Hreads Hc).
    destruct (IH (S a) v s') as [Hc' Hr'].
    + rewrite Hcur, Hc, layout_offset_succ. reflexivity.
    + exact H.
    + split.
      * rewrite Hc'. f_equal. lia.
      * rewrite Hr', Hreads. simpl. rewrite <- app_assoc. reflexivity.
Qed.

End LayoutSteps.

Lemma ODEHypernet_run_layout {R : Type} {SR : Scalar R} (self : ODEHypernet)
    (context y w : Tensor R) (s : Locals R) :
  ODEHypernet_run self context y w = Ok s ->
  cursor s = layout_width 0 (dims self) /\
  reads s = layout_segments 0 (dims self).
Proof.
  intros H. unfold ODEHypernet_run in H. bind_inv H.
  apply (for_each_layout _ _ _ (ODEHypernet_layer_advances self context w v)) in H;
    [exact H | reflexivity].
Qed.

Lemma ODEHypernet2D_run_layout {R : Type} {SR : Scalar R} (self : ODEHypernet)
    (context y y_points w : Tensor R) (s : Locals R) :
  ODEHypernet2D_run self context y y_points w = Ok s ->
  cursor s = layout_width 2 (dims self) /\
  reads s = layout_segments 2 (dims self).
Proof.
  intros H. unfold ODEHypernet2D_run in H. bind_inv H.
  apply (for_each_layout _ _ _ (ODEHypernet2D_layer_advances self context y_points w v))
    in H; [exact H | reflexivity].
Qed.

(** *** The code's passes are the passes read off the layout *)

Section LayoutPassFacts.

Context {R : Type} {SR : Scalar R}.

(** Takes the next step of two passes that run the same computations. *)
Ltac same_step :=
  match goal with
  | |- context [bind ?c _] =>
      lazymatch c with
      | bind _ _ => fail
      | _ => destruct c; cbn [bind]; try reflexivity
      end
  end.

(** An iteration of [ODEHypernet.forward] whose cursor stands at the offset
    of its layer computes the layer read off the layout. *)
Lemma ODEHypernet_layer_by_layout (self : ODEHypernet) (context w : Tensor R)
    (B l : nat) (s : Locals R) :
  cursor s = layout_offset 0 (dims self) l ->
  (s' <- ODEHypernet_layer self context w B l s ;; Ok (dx s'))
  = layer_by_layout 0 self context None w B l (dx s).
Proof.
  intros Hc.
  unfold ODEHypernet_layer, layer_by_layout, layer_segments, affine_by_layout,
    product_by_layout, scale_by_layout, shift_by_layout, segment_columns.
  cbn [fst snd]. rewrite <- Hc.
  set (i := cursor s). set (d0 := nth l (dims self) 0%Z).
  set (d1 := nth (S l) (dims self) 0%Z).
  rewrite Z.add_0_r.
  replace (i + d0 * d1 + 2 * d1)%Z with (i + d0 * d1 + d1 + d1)%Z by lia.
  replace (i + d0 * d1 + 3 * d1)%Z with (i + d0 * d1 + d1 + d1 + d1)%Z by lia.
  replace (i + d0 * d1 + 4 * d1)%Z with (i + d0 * d1 + d1 + d1 + d1 + d1)%Z by lia.
  cbn [bind]. repeat same_step.
Qed.

Lemma ODEHypernet2D_layer_by_layout (self : ODEHypernet) (context y_points w : Tensor R)
    (B l : nat) (s : Locals R) :
  cursor s = layout_offset 2 (dims self) l ->
  (s' <- ODEHypernet2D_layer self context y_points w B l s ;; Ok (dx s'))
  = layer_by_layout 2 self context (Some y_points) w B l (dx s).
Proof.
  intros Hc.
  unfold ODEHypernet2D_layer, layer_by_layout, layer_segments, affine_by_layout,
    product_by_layout, scale_by_layout, shift_by_layout, segment_columns.
  cbn [fst snd]. rewrite <- Hc.
  set (i := cursor s). set (d0 := nth l (dims self) 0%Z).
  set (d1 := nth (S l) (dims self) 0%Z).
  replace (i + (d0 + 2) * d1 + 2 * d1)%Z with (i + (d0 + 2) * d1 + d1 + d1)%Z by lia.
  replace (i + (d0 + 2) * d1 + 3 * d1)%Z
    with (i + (d0 + 2) * d1 + d1 + d1 + d1)%Z by lia.
  replace (i + (d0 + 2) * d1 + 4 * d1)%Z
    with (i + (d0 + 2) * d1 + d1 + d1 + d1 + d1)%Z by lia.
  cbn [bind]. repeat same_step.
Qed.

(** A loop whose iterations advance the cursor by the layout and compute the
    layers read off the layout is the loop over these layers. *)
Lemma for_each_by_layout (extra : Z) (ds : list Z)
    (body : nat -> Locals R -> result (Locals R))
    (layer : nat -> Tensor R -> result (Tensor R)) :
  advances extra ds body ->
  (forall l s, cursor s = layout_offset extra ds l ->
     (s' <- body l s ;; Ok (dx s')) = layer l (dx s)) ->
  forall n a s,
    cursor s = layout_offset extra ds a ->
    (s' <- for_each body (seq a n) s ;; Ok (dx s')) = for_each layer (seq a n) (dx s).
Proof.
  intros Hadv Hstep n. induction n as [| n IH]; intros a s Hc; [reflexivity |].
  cbn [seq for_each]. specialize (Hstep a s Hc).
  destruct (body a s) as [s1 | e] eqn:E; cbn [bind] in *.
  - rewrite <- Hstep. cbn [bind]. apply IH.
    destruct (Hadv _ _ _ E) as [Hcur _].
    rewrite Hcur, Hc, layout_offset_succ. reflexivity.
  - rewrite <- Hstep. reflexivity.
Qed.

(** [ODEHypernet.forward] is the pass read off the layout without extra
    rows, exceptions included. *)
Lemma ODEHypernet_forward_by_layout (self : ODEHypernet) (context y w : Tensor R) :
  ODEHypernet_forward self context y w = forward_by_layout 0 self context None y w.
Proof.
  unfold ODEHypernet_forward, ODEHypernet_run, forward_by_layout.
  destruct (size0 w) as [B | e]; [| reflexivity]. cbn [bind].
  apply (for_each_by_layout 0 (dims self)
           (ODEHypernet_layer self context w B)
           (layer_by_layout 0 self context None w B)
           (ODEHypernet_layer_advances self context w B)
           (ODEHypernet_layer_by_layout self context w B)).
  reflexivity.
Qed.

(** [ODEHypernet2D.forward] is the pass read off the layout with two extra
    rows per weight matrix, for the coordinates, exceptions included. *)
Lemma ODEHypernet2D_forward_by_layout (self : ODEHypernet)
    (context y y_points w : Tensor R) :
  ODEHypernet2D_forward self context y y_points w
  = forward_by_layout 2 self context (Some y_points) y w.
Proof.
  unfold ODEHypernet2D_forward, ODEHypernet2D_run, forward_by_layout.
  destruct (size0 w) as [B | e]; [| reflexivity]. cbn [bind].
  apply (for_each_by_layout 2 (dims self)
           (ODEHypernet2D_layer self context y_points w B)
           (layer_by_layout 2 self context (Some y_points) w B)
           (ODEHypernet2D_layer_advances self context y_points w B)
           (fun l s => ODEHypernet2D_layer_by_layout self context y_points w B l s)).
  reflexivity.
Qed.

(** The affine part of a layer adds, at every point of a batch element, the
    entries of that batch element's row of the weight vector that the bias
    segment names. *)
Lemma affine_by_layout_adds_bias (extra : Z) (ds : list Z) (points : option (Tensor R))
    (w : Tensor R) (B W l : nat) (seg_weight : Segment * Z * Z) (role : Segment)
    (start stop : Z) (dx out : Tensor R) :
  shape w = [B; W] ->
  (0 <= start <= stop)%Z -> (stop <= Z.of_nat W)%Z ->
  affine_by_layout extra ds points w B l seg_weight (role, start, stop) dx = Ok out ->
  exists product,
    product_by_layout extra ds points w B l seg_weight dx = Ok product /\
    forall b n j, b < B -> (Z.of_nat j < stop - start)%Z ->
      data out [b; n; j]
      = sadd (data product [b; n; j]) (data w [b; Z.to_nat start + j]).
Proof.
  intros Hw Hstart Hstop H. unfold affine_by_layout in H.
  bind_inv H. exists v. split; [exact E |].
  unfold segment_columns in H. cbn [fst snd] in H.
  unfold slice_cols in H. rewrite Hw in H. cbn [bind] in H.
  unfold unsqueeze in H. cbn [shape length Nat.leb bind firstn skipn app] in H.
  unfold add_ in H. cbn [shape data requires_grad] in H.
  destruct (broadcast_shapes _ _); [| discriminate H].
  destruct (list_nat_eqb _ _); [| discriminate H].
  injection H as <-. intros b n j Hb Hj. cbn [data]. f_equal. unfold bidx. cbn [length Nat.sub skipn zip_bidx firstn app].
  assert (Hlo : slice_bound W start = Z.to_nat start)
    by (unfold slice_bound; destruct (Z.ltb_spec start 0); f_equal; lia).
  assert (Hhi : slice_bound W stop = Z.to_nat stop)
    by (unfold slice_bound; destruct (Z.ltb_spec stop 0); f_equal; lia).
  rewrite Hlo, Hhi.
  destruct (Nat.eqb_spec B 1) as [HB | HB];
    destruct (Nat.eqb_spec (Z.to_nat stop - Z.to_nat start) 1) as [Hd | Hd];
    repeat f_equal; lia.
Qed.

End LayoutPassFacts.

(** The dimension list [__init__] builds from a dims string. *)
Lemma ODEHypernet_init_dims (dims_str nonlinearity : string) (input_dim : Z)
    (flag : bool) (self : ODEHypernet) :
  ODEHypernet_init dims_str input_dim nonlinearity flag = Ok self ->
  exists hidden,
    map_result py_int (split_dash dims_str) = Ok hidden /\
    dims self = [input_dim] ++ hidden ++ [input_dim] /\
    use_bias self = flag.
Proof.
  intros H. unfold ODEHypernet_init in H. binds_inv H. injection H as <-.
  exists v0. auto.
Qed.

(** C2.  One forward pass of [ODEHypernet] that returns has moved the
    cursor by exactly [sum_l (dims[l]*dims[l+1] + 4*dims[l+1])] entries of
    the weight vector, and one of [ODEHypernet2D] by
    [sum_l ((dims[l]+2)*dims[l+1] + 4*dims[l+1])], whatever dims string and
    [input_dim] the module was built from; the column ranges sliced are,
    layer by layer, the weight matrix, the bias, the weight scales, the bias
    scales and the shift, each starting where the one before it ended.  And
    the segments are used as what they are read as: on all inputs, exceptions
    included, the result of either pass is the result of the pass read off
    the layout, in which layer [l] takes its five segments from the layout
    and computes [scale * (input . weight + bias) + shift] from them. *)
Theorem forward_consumes_layout {R : Type} {SR : Scalar R} (self : ODEHypernet)
    (context y y_points w : Tensor R) :
  (forall s, ODEHypernet_run self context y w = Ok s ->
     cursor s = layout_width 0 (dims self) /\
     reads s = layout_segments 0 (dims self)) /\
  (forall s, ODEHypernet2D_run self context y y_points w = Ok s ->
     cursor s = layout_width 2 (dims self) /\
     reads s = layout_segments 2 (dims self)) /\
  ODEHypernet_forward self context y w
    = forward_by_layout 0 self context None y w /\
  ODEHypernet2D_forward self context y y_points w
    = forward_by_layout 2 self context (Some y_points) y w.
Proof.
  split; [| split; [| split]].
  - intros s H. exact (ODEHypernet_run_layout self context y w s H).
  - intros s H. exact (ODEHypernet2D_run_layout self context y y_points w s H).
  - apply ODEHypernet_forward_by_layout.
  - apply ODEHypernet2D_forward_by_layout.
Qed.

(** ** [use_bias] *)

Lemma layer_segments_bias (extra : Z) (ds : list Z) (l : nat) :
  exists start,
    In (SegBias, start, (start + nth (S l) ds 0)%Z) (layer_segments extra ds l).
Proof.
  unfold layer_segments. eexists. right. left. reflexivity.
Qed.

Lemma layout_segments_bias (extra : Z) (ds : list Z) (l : nat) :
  l < length ds - 1 ->
  exists start,
    In (SegBias, start, (start + nth (S l) ds 0)%Z) (layout_segments extra ds).
Proof.
  intros Hl. destruct (layer_segments_bias extra ds l) as [start Hin].
  exists start. unfold layout_segments. apply in_flat_map.
  exists l. split; [apply in_seq; lia | exact Hin].
Qed.

(** C10.  The output of [ODEHypernet.forward] and of
    [ODEHypernet2D.forward] is the same for both values of [use_bias], on
    all inputs, exceptions included; with either value a pass that returns
    has sliced a bias segment of width [dims[l+1]] for every layer [l]; with
    either value the pass is the pass read off the layout, every layer of
    which adds its bias segment to the matrix product; and this addition
    puts, at every point of batch element [b] and every output column [j],
    the entry [start + j] of row [b] of the weight vector on top of the
    product, [start] being where the bias segment begins. *)
Theorem use_bias_is_never_read {R : Type} {SR : Scalar R} (act : Nonlinearity)
    (ds : list Z) (context y y_points w : Tensor R) :
  ODEHypernet_forward (mkODEHypernet act true ds) context y w =
    ODEHypernet_forward (mkODEHypernet act false ds) context y w /\
  ODEHypernet2D_forward (mkODEHypernet act true ds) context y y_points w =
    ODEHypernet2D_forward (mkODEHypernet act false ds) context y y_points w /\
  (forall flag s l,
     ODEHypernet_run (mkODEHypernet act flag ds) context y w = Ok s ->
     l < length ds - 1 ->
     exists start, In (SegBias, start, (start + nth (S l) ds 0)%Z) (reads s)) /\
  (forall flag s l,
     ODEHypernet2D_run (mkODEHypernet act flag ds) context y y_points w = Ok s ->
     l < length ds - 1 ->
     exists start, In (SegBias, start, (start + nth (S l) ds 0)%Z) (reads s)) /\
  (forall flag,
     ODEHypernet_forward (mkODEHypernet act flag ds) context y w
     = forward_by_layout 0 (mkODEHypernet act flag ds) context None y w) /\
  (forall flag,
     ODEHypernet2D_forward (mkODEHypernet act flag ds) context y y_points w
     = forward_by_layout 2 (mkODEHypernet act flag ds) context (Some y_points) y w) /\
  (forall extra points B W l seg_weight start stop dx out,
     shape w = [B; W] ->
     (0 <= start <= stop)%Z -> (stop <= Z.of_nat W)%Z ->
     affine_by_layout extra ds points w B l seg_weight (SegBias, start, stop) dx
       = Ok out ->
     exists product,
       product_by_layout extra ds points w B l seg_weight dx = Ok product /\
       forall b n j, b < B -> (Z.of_nat j < stop - start)%Z ->
         data out [b; n; j]
         = sadd (data product [b; n; j]) (data w [b; Z.to_nat start + j])).
Proof.
  split; [reflexivity |]. split; [reflexivity |].
  split; [| split; [| split; [| split]]].
  - intros flag s l H Hl.
    apply ODEHypernet_run_layout in H. destruct H as [_ ->].
    apply layout_segments_bias. exact Hl.
  - intros flag s l H Hl.
    apply ODEHypernet2D_run_layout in H. destruct H as [_ ->].
    apply layout_segments_bias. exact Hl.
  - intros flag. apply ODEHypernet_forward_by_layout.
  - intros flag. apply ODEHypernet2D_forward_by_layout.
  - intros extra points B W l seg_weight start stop dx0 out Hw Hstart Hstop H.
    exact (affine_by_layout_adds_bias extra ds points w B W l seg_weight SegBias
             start stop dx0 out Hw Hstart Hstop H).
Qed.

(** ** [ODEnet] *)

(** The loop of [ODEnet.__init__] appends one layer and one activation per
    output width, each layer reading the width the one before produced. *)
Lemma ODEnet_init_loop (base : LayerType) (context_dim : Z) (nonlinearity : string)
    (act : Nonlinearity) :
  NONLINEARITIES nonlinearity = Ok act ->
  forall (outs : list Z) (s : Building),
    hidden_shape s <> [] ->
    exists s',
      for_each (ODEnet_init_step base context_dim nonlinearity) outs s = Ok s' /\
      length (built_layers s') = length (built_layers s) + length outs /\
      built_activation_fns s' = built_activation_fns s ++ repeat act (length outs) /\
      map dim_out (built_layers s') = map dim_out (built_layers s) ++ outs.
Proof.
  intros Hact outs. induction outs as [| d outs IH]; intros s Hs; simpl.
  - exists s. rewrite !app_nil_r, Nat.add_0_r. auto.
  - unfold ODEnet_init_step at 1. destruct (hidden_shape s) as [| h0 hs] eqn:Eh; [congruence |].
    simpl. rewrite Hact. simpl.
    destruct (IH (mkBuilding (built_layers s ++ [mkDiffeqLayer base h0 d context_dim])
                    (built_activation_fns s ++ [act]) (d :: tl (h0 :: hs))))
      as [s' [Hrun [Hlen [Hacts Houts]]]]; [simpl; congruence |].
    exists s'. split; [exact Hrun |]. simpl in *.
    rewrite Hlen, Hacts, Houts. rewrite length_app, map_app. simpl.
    rewrite <- !app_assoc. simpl. repeat split; lia.
Qed.

(** For any hidden widths, [ODEnet] has one layer more than hidden widths,
    one activation less than layers, and its last layer maps back to the
    width [D] of the state. *)
Lemma ODEnet_init_counts (hidden rest : list Z) (D context_dim : Z)
    (layer_type nonlinearity : string) (base : LayerType) (act : Nonlinearity) :
  base_layer_table layer_type = Ok base ->
  NONLINEARITIES nonlinearity = Ok act ->
  exists net,
    ODEnet_init hidden (D :: rest) context_dim layer_type nonlinearity = Ok net /\
    length (layers net) = length hidden + 1 /\
    activation_fns net = repeat act (length hidden) /\
    map dim_out (layers net) = hidden ++ [D].
Proof.
  intros Hbase Hact.
  destruct (ODEnet_init_loop base context_dim nonlinearity act Hact (hidden ++ [D])
              (mkBuilding [] [] (D :: rest))) as [s [Hrun [Hlen [Hacts Houts]]]];
    [simpl; congruence |].
  exists (mkODEnet (built_layers s) (removelast (built_activation_fns s))).
  unfold ODEnet_init. rewrite Hbase. cbn [bind getitem nth_error]. rewrite Hrun.
  cbn [bind layers activation_fns]. split; [reflexivity |].
  simpl in Hlen, Hacts, Houts. rewrite length_app in Hlen. simpl in Hlen.
  split; [lia |]. split; [| exact Houts].
  rewrite Hacts, length_app, repeat_app. simpl. apply removelast_last.
Qed.

(** C7.  For all [D > 0] and [H > 0], [ODEnet] built with hidden widths
    [(H,)] and an input shape [(D, ...)] has exactly two layers, the last of
    output width [D]; its forward pass applies the nonlinearity after the
    first layer and not after the last. *)
Theorem ODEnet_one_hidden_layer {R : Type} {SR : Scalar R} (D H context_dim : Z)
    (rest : list Z) (layer_type nonlinearity : string) (base : LayerType)
    (act : Nonlinearity) :
  (0 < D)%Z -> (0 < H)%Z ->
  base_layer_table layer_type = Ok base ->
  NONLINEARITIES nonlinearity = Ok act ->
  exists first last_layer,
    ODEnet_init [H] (D :: rest) context_dim layer_type nonlinearity
      = Ok (mkODEnet [first; last_layer] [act]) /\
    length [first; last_layer] = 2 /\
    dim_in first = D /\ dim_out first = H /\
    dim_in last_layer = H /\ dim_out last_layer = D /\
    forall (layer_forward : DiffeqLayer -> Tensor R -> Tensor R -> result (Tensor R))
           (context y : Tensor R),
      ODEnet_forward layer_forward (mkODEnet [first; last_layer] [act]) context y =
        (h <- layer_forward first context y ;;
         layer_forward last_layer context (apply_nonlinearity act h)).
Proof.
  intros _ _ Hbase Hact.
  exists (mkDiffeqLayer base D H context_dim), (mkDiffeqLayer base H D context_dim).
  split.
  - unfold ODEnet_init. rewrite Hbase. simpl.
    unfold ODEnet_init_step. simpl. rewrite Hact. reflexivity.
  - repeat split. intros layer_forward context y.
    unfold ODEnet_forward. simpl.
    destruct (layer_forward _ context y) as [h | e]; simpl; [| reflexivity].
    destruct (layer_forward _ context (apply_nonlinearity act h)); reflexivity.
Qed.

(** ** State functions *)

Section StateFunctionFacts.

Context {R : Type} {SR : Scalar R}.

Lemma zeros_like_zero_like (c : Tensor R) (flag : bool) :
  zero_like (requires_grad_ true (zeros_like (requires_grad_ flag c))) c.
Proof. repeat split. Qed.

(** [ODEfunc.forward] once [before_odeint] has assigned [_e], on a state
    tuple whose first channel has a batch dimension. *)
Lemma ODEfunc_forward_armed (self : ODEfunc.t) (time : R) {states : list (Tensor R)}
    (sample : list nat -> R) {y0 : Tensor R} {batch : nat} {fixed : option (Tensor R)} :
  getitem states 0 = Ok y0 ->
  size0 y0 = Ok batch ->
  ODEfunc._e self = Some fixed ->
  ODEfunc.forward time states sample self =
    (let y := requires_grad_ true y0 in
     let e := probe fixed y sample in
     let t_rows := broadcast_time batch y0 time in
     let states' := map (requires_grad_ true) states in
     (ODEfunc.mk (ODEfunc.diffeq self) (ODEfunc.divergence_fn self)
        (float32_add (ODEfunc._num_evals self) 1) (Some (Some e)),
      match length states with
      | 3 =>
          c <- getitem states' 2 ;;
          c_rows <- view [Z.of_nat batch; (-1)%Z] c ;;
          tc <- cat 1 t_rows c_rows ;;
          dy <- ODEfunc.diffeq self tc y ;;
          div <- ODEfunc.divergence_fn self dy y e ;;
          Ok [value dy; neg (unsqueeze_last div); requires_grad_ true (zeros_like c)]
      | 2 =>
          dy <- ODEfunc.diffeq self t_rows y ;;
          div <- ODEfunc.divergence_fn self dy y e ;;
          divergence <- view [(-1)%Z; 1%Z] div ;;
          Ok [value dy; neg divergence]
      | _ => Raise (AssertionError (MsgText "`len(states)` should be 2 or 3"))
      end)).
Proof.
  intros Hy Hb He. unfold ODEfunc.forward, mbind, lift, write, read.
  rewrite Hy, Hb. cbn [ODEfunc._e ODEfunc._num_evals ODEfunc.diffeq ODEfunc.divergence_fn].
  rewrite He. cbn [getattr]. rewrite length_map.
  destruct fixed as [e |]; cbn [probe ODEfunc._e ODEfunc._num_evals ODEfunc.diffeq
    ODEfunc.divergence_fn]; [rewrite <- He |]; reflexivity.
Qed.


(** [ODEhyperfunc.forward] once [before_odeint] has assigned [_e]. *)
Lemma ODEhyperfunc_forward_armed (autograd_grad : Autograd R) (self : ODEhyperfunc.t)
    (time : R) {states : list (Tensor R)} (sample : list nat -> R) {y0 : Tensor R}
    {batch : nat} {fixed : option (Tensor R)} :
  getitem states 0 = Ok y0 ->
  size0 y0 = Ok batch ->
  ODEhyperfunc._e self = Some fixed ->
  ODEhyperfunc.forward autograd_grad time states sample self =
    (let y := requires_grad_ true y0 in
     let e := probe fixed y sample in
     (ODEhyperfunc.mk (ODEhyperfunc.diffeq self) (ODEhyperfunc.use_div_approx_train self)
        (ODEhyperfunc.use_div_approx_test self) (ODEhyperfunc.training self)
        (float32_add (ODEhyperfunc._num_evals self) 1) (Some (Some e)),
      c <- getitem (map (requires_grad_ true) states) 2 ;;
      dy <- ODEhyperfunc.diffeq self (broadcast_time batch y0 time) y c ;;
      div <- match selected_estimator (ODEhyperfunc.training self)
                     (ODEhyperfunc.use_div_approx_train self)
                     (ODEhyperfunc.use_div_approx_test self) with
             | Approximate => divergence_approx autograd_grad dy y e
             | BruteForce => divergence_bf autograd_grad dy y
             end ;;
      Ok [value dy; neg (unsqueeze_last div); requires_grad_ true (zeros_like c)])).
Proof.
  intros Hy Hb He. unfold ODEhyperfunc.forward, mbind, lift, write, read.
  rewrite Hy, Hb.
  cbn [ODEhyperfunc._e ODEhyperfunc._num_evals ODEhyperfunc.diffeq
       ODEhyperfunc.training ODEhyperfunc.use_div_approx_train
       ODEhyperfunc.use_div_approx_test].
  rewrite He. cbn [getattr]. unfold selected_estimator.
  destruct fixed as [e |];
    cbn [probe ODEhyperfunc._e ODEhyperfunc._num_evals ODEhyperfunc.diffeq
         ODEhyperfunc.training ODEhyperfunc.use_div_approx_train
         ODEhyperfunc.use_div_approx_test];
    [rewrite <- He |];
    destruct (ODEhyperfunc.training self), (ODEhyperfunc.use_div_approx_train self),
      (ODEhyperfunc.use_div_approx_test self); reflexivity.
Qed.

(** [ODEhyperfunc2D.forward] once [before_odeint] has assigned [_e]. *)
Lemma ODEhyperfunc2D_forward_armed (self : ODEhyperfunc2D.t) (time : R)
    {states : list (Tensor R)} (sample : list nat -> R) {y0 : Tensor R}
    {batch : nat} {fixed : option (Tensor R)} :
  getitem states 0 = Ok y0 ->
  size0 y0 = Ok batch ->
  ODEhyperfunc2D._e self = Some fixed ->
  ODEhyperfunc2D.forward time states sample self =
    (let y := requires_grad_ true y0 in
     let e := probe fixed y sample in
     (ODEhyperfunc2D.mk (ODEhyperfunc2D.diffeq self) (ODEhyperfunc2D.divergence_fn self)
        (float32_add (ODEhyperfunc2D._num_evals self) 1) (Some (Some e)),
      c <- getitem (map (requires_grad_ true) states) 2 ;;
      w <- getitem (map (requires_grad_ true) states) 3 ;;
      dy <- ODEhyperfunc2D.diffeq self (broadcast_time batch y0 time) y c w ;;
      div <- ODEhyperfunc2D.divergence_fn self dy y e ;;
      Ok [value dy; neg (unsqueeze_last div); requires_grad_ true (zeros_like c);
          requires_grad_ true (zeros_like w)])).
Proof.
  intros Hy Hb He. unfold ODEhyperfunc2D.forward, mbind, lift, write, read.
  rewrite Hy, Hb.
  cbn [ODEhyperfunc2D._e ODEhyperfunc2D._num_evals ODEhyperfunc2D.diffeq
       ODEhyperfunc2D.divergence_fn].
  rewrite He. cbn [getattr].
  destruct fixed as [e |];
    cbn [probe ODEhyperfunc2D._e ODEhyperfunc2D._num_evals ODEhyperfunc2D.diffeq
         ODEhyperfunc2D.divergence_fn];
    [rewrite <- He |]; reflexivity.
Qed.

(** A call that returns has read [states[0]], its batch size and [_e]. *)
Lemma ODEfunc_forward_ok_inv {self self' : ODEfunc.t} {time : R}
    {states out : list (Tensor R)} {sample : list nat -> R} :
  ODEfunc.forward time states sample self = (self', Ok out) ->
  exists y0 batch fixed,
    getitem states 0 = Ok y0 /\ size0 y0 = Ok batch /\ ODEfunc._e self = Some fixed.
Proof.
  unfold ODEfunc.forward, mbind, lift, write, read. intros H.
  destruct (getitem states 0) as [y0 | ?] eqn:Hy; [| discriminate H].
  destruct (size0 y0) as [batch | ?] eqn:Hb; [| discriminate H].
  cbn [ODEfunc._e] in H.
  destruct (ODEfunc._e self) as [fixed |] eqn:He; [| discriminate H].
  exists y0, batch, fixed. repeat split; assumption.
Qed.

Lemma ODEhyperfunc_forward_ok_inv {autograd_grad : Autograd R}
    {self self' : ODEhyperfunc.t} {time : R} {states out : list (Tensor R)}
    {sample : list nat -> R} :
  ODEhyperfunc.forward autograd_grad time states sample self = (self', Ok out) ->
  exists y0 batch fixed,
    getitem states 0 = Ok y0 /\ size0 y0 = Ok batch /\ ODEhyperfunc._e self = Some fixed.
Proof.
  unfold ODEhyperfunc.forward, mbind, lift, write, read. intros H.
  destruct (getitem states 0) as [y0 | ?] eqn:Hy; [| discriminate H].
  destruct (size0 y0) as [batch | ?] eqn:Hb; [| discriminate H].
  cbn [ODEhyperfunc._e] in H.
  destruct (ODEhyperfunc._e self) as [fixed |] eqn:He; [| discriminate H].
  exists y0, batch, fixed. repeat split; assumption.
Qed.

Lemma ODEhyperfunc2D_forward_ok_inv {self self' : ODEhyperfunc2D.t} {time : R}
    {states out : list (Tensor R)} {sample : list nat -> R} :
  ODEhyperfunc2D.forward time states sample self = (self', Ok out) ->
  exists y0 batch fixed,
    getitem states 0 = Ok y0 /\ size0 y0 = Ok batch /\ ODEhyperfunc2D._e self = Some fixed.
Proof.
  unfold ODEhyperfunc2D.forward, mbind, lift, write, read. intros H.
  destruct (getitem states 0) as [y0 | ?] eqn:Hy; [| discriminate H].
  destruct (size0 y0) as [batch | ?] eqn:Hb; [| discriminate H].
  cbn [ODEhyperfunc2D._e] in H.
  destruct (ODEhyperfunc2D._e self) as [fixed |] eqn:He; [| discriminate H].
  exists y0, batch, fixed. repeat split; assumption.
Qed.

Lemma getitem_map {A B : Type} (f : A -> B) (xs : list A) (n : nat) (b : B) :
  getitem (map f xs) n = Ok b -> exists a, nth_error xs n = Some a /\ b = f a.
Proof.
  unfold getitem. rewrite nth_error_map.
  destruct (nth_error xs n) as [a |]; simpl; intros H; [| discriminate H].
  injection H as <-. exists a. auto.
Qed.

(** C3.  Whenever a call of [forward] returns, on a 3-channel state tuple
    for [ODEfunc] and [ODEhyperfunc] and on a 4-channel one for
    [ODEhyperfunc2D], the derivative it returns for the third channel (and,
    with 4 channels, for the fourth) is a tensor of zeros of the size and
    dtype of that input channel. *)
Theorem auxiliary_channels_have_zero_derivative :
  (forall (self self' : ODEfunc.t) time states sample out c,
     length states = 3 -> nth_error states 2 = Some c ->
     ODEfunc.forward time states sample self = (self', Ok out) ->
     length out = 3 /\ exists z, nth_error out 2 = Some z /\ zero_like z c) /\
  (forall autograd_grad (self self' : ODEhyperfunc.t) time states sample out c,
     length states = 3 -> nth_error states 2 = Some c ->
     ODEhyperfunc.forward autograd_grad time states sample self = (self', Ok out) ->
     length out = 3 /\ exists z, nth_error out 2 = Some z /\ zero_like z c) /\
  (forall (self self' : ODEhyperfunc2D.t) time states sample out c w,
     length states = 4 -> nth_error states 2 = Some c -> nth_error states 3 = Some w ->
     ODEhyperfunc2D.forward time states sample self = (self', Ok out) ->
     length out = 4 /\
     exists z zw, nth_error out 2 = Some z /\ zero_like z c /\
                  nth_error out 3 = Some zw /\ zero_like zw w).
Proof.
  split; [| split].
  - intros self self' time states sample out c Hlen Hc H.
    destruct (ODEfunc_forward_ok_inv H) as [y0 [batch [fixed [Hy [Hb He]]]]].
    rewrite (ODEfunc_forward_armed self time sample Hy Hb He) in H.
    cbv zeta in H. rewrite Hlen in H. injection H as _ H.
    binds_inv H. injection H as <-.
    apply getitem_map in E. destruct E as [c' [Hc' ->]].
    rewrite Hc in Hc'. injection Hc' as <-.
    split; [reflexivity |]. eexists. split; [reflexivity |].
    apply zeros_like_zero_like.
  - intros ag self self' time states sample out c Hlen Hc H.
    destruct (ODEhyperfunc_forward_ok_inv H)
      as [y0 [batch [fixed [Hy [Hb He]]]]].
    rewrite (ODEhyperfunc_forward_armed ag self time sample Hy Hb He) in H.
    cbv zeta in H. injection H as _ H.
    binds_inv H. injection H as <-.
    apply getitem_map in E. destruct E as [c' [Hc' ->]].
    rewrite Hc in Hc'. injection Hc' as <-.
    split; [reflexivity |]. eexists. split; [reflexivity |].
    apply zeros_like_zero_like.
  - intros self self' time states sample out c w Hlen Hc Hw H.
    destruct (ODEhyperfunc2D_forward_ok_inv H)
      as [y0 [batch [fixed [Hy [Hb He]]]]].
    rewrite (ODEhyperfunc2D_forward_armed self time sample Hy Hb He) in H.
    cbv zeta in H. injection H as _ H.
    binds_inv H. injection H as <-.
    apply getitem_map in E. destruct E as [c' [Hc' ->]].
    rewrite Hc in Hc'. injection Hc' as <-.
    apply getitem_map in E0. destruct E0 as [w' [Hw' ->]].
    rewrite Hw in Hw'. injection Hw' as <-.
    split; [reflexivity |]. eexists. eexists.
    split; [reflexivity |]. split; [apply zeros_like_zero_like |].
    split; [reflexivity | apply zeros_like_zero_like].
Qed.

End StateFunctionFacts.

Section StateFunctionClaims.

Context {R : Type} {SR : Scalar R}.

Lemma getitem_0_length {A : Type} (xs : list A) (x : A) :
  getitem xs 0 = Ok x -> length xs <> 0.
Proof. destruct xs; [discriminate | simpl; lia]. Qed.

(** C4, amended.  On the empty tuple [ODEfunc.forward] raises [IndexError]
    at [states[0]].  Once [before_odeint] has run and the first channel has
    a batch dimension: with 3 channels the drift is computed from the
    concatenation of the broadcast time with the context viewed as rows,
    together with [y]; with 2 channels from the broadcast time and [y]; with
    any other length the call raises the assertion error, whatever the drift
    network is. *)
Theorem ODEfunc_forward_branches_on_length :
  (forall (self : ODEfunc.t) time sample,
     snd (ODEfunc.forward time [] sample self)
       = Raise (IndexError "tuple index out of range")) /\
  (forall (self : ODEfunc.t) time states sample y0 batch fixed,
     getitem states 0 = Ok y0 ->
     size0 y0 = Ok batch ->
     ODEfunc._e self = Some fixed ->
     let y := requires_grad_ true y0 in
     let e := probe fixed y sample in
     let t_rows := broadcast_time batch y0 time in
     let after := ODEfunc.forward time states sample self in
     (forall log_p c,
        states = [y0; log_p; c] ->
        snd after =
          (c_rows <- view [Z.of_nat batch; (-1)%Z] (requires_grad_ true c) ;;
           tc <- cat 1 t_rows c_rows ;;
           dy <- ODEfunc.diffeq self tc y ;;
           div <- ODEfunc.divergence_fn self dy y e ;;
           Ok [value dy; neg (unsqueeze_last div);
               requires_grad_ true (zeros_like (requires_grad_ true c))])) /\
     (forall log_p,
        states = [y0; log_p] ->
        snd after =
          (dy <- ODEfunc.diffeq self t_rows y ;;
           div <- ODEfunc.divergence_fn self dy y e ;;
           divergence <- view [(-1)%Z; 1%Z] div ;;
           Ok [value dy; neg divergence])) /\
     (length states <> 2 -> length states <> 3 ->
        snd after = Raise (AssertionError (MsgText "`len(states)` should be 2 or 3")))).
Proof.
  split.
  - reflexivity.
  - intros self time states sample y0 batch fixed Hy Hb He y e t_rows after.
    subst after. rewrite (ODEfunc_forward_armed self time sample Hy Hb He).
    cbv zeta. cbn [fst snd]. repeat split.
    + intros log_p c ->. reflexivity.
    + intros log_p ->. reflexivity.
    + pose proof (getitem_0_length _ _ Hy) as Hne.
      destruct (length states) as [| [| [| [| n]]]]; try reflexivity; congruence.
Qed.

(** C5, amended.  A call of [forward] on a freshly constructed [ODEfunc]
    raises [AttributeError] where it reads [_e].  After [before_odeint()]
    with no probe, the first call draws noise of the size of [y] (and of its
    dtype), stores it in [_e] and goes on as if that probe had been handed to
    [before_odeint]; it returns, with 2 channels whenever the drift network
    and the divergence do, and with 3 channels whenever moreover the context
    can be viewed as rows and joined to the time. *)
Theorem forward_samples_noise_once_armed :
  (forall autograd_grad diffeq time (states : list (Tensor R)) sample y0 batch,
     getitem states 0 = Ok y0 ->
     size0 y0 = Ok batch ->
     snd (ODEfunc.forward time states sample (ODEfunc.init autograd_grad diffeq))
       = Raise (AttributeError "ODEfunc" "_e")) /\
  (forall (self : ODEfunc.t) time states sample y0 batch,
     getitem states 0 = Ok y0 ->
     size0 y0 = Ok batch ->
     let y := requires_grad_ true y0 in
     let e := randn_like y sample in
     let after := ODEfunc.forward time states sample (ODEfunc.before_odeint None self) in
     ODEfunc._e (fst after) = Some (Some e) /\
     shape e = shape y0 /\ dtype e = dtype y0 /\
     after = ODEfunc.forward time states sample (ODEfunc.before_odeint (Some e) self) /\
     (forall log_p dy div divergence,
        states = [y0; log_p] ->
        ODEfunc.diffeq self (broadcast_time batch y0 time) y = Ok dy ->
        ODEfunc.divergence_fn self dy y e = Ok div ->
        view [(-1)%Z; 1%Z] div = Ok divergence ->
        snd after = Ok [value dy; neg divergence]) /\
     (forall log_p c c_rows tc dy div,
        states = [y0; log_p; c] ->
        view [Z.of_nat batch; (-1)%Z] (requires_grad_ true c) = Ok c_rows ->
        cat 1 (broadcast_time batch y0 time) c_rows = Ok tc ->
        ODEfunc.diffeq self tc y = Ok dy ->
        ODEfunc.divergence_fn self dy y e = Ok div ->
        snd after = Ok [value dy; neg (unsqueeze_last div);
                        requires_grad_ true (zeros_like (requires_grad_ true c))])).
Proof.
  split.
  - intros ag diffeq time states sample y0 batch Hy Hb.
    unfold ODEfunc.forward, ODEfunc.init, mbind, lift, write, read.
    rewrite Hy, Hb. reflexivity.
  - intros self time states sample y0 batch Hy Hb y e after. subst after.
    rewrite (ODEfunc_forward_armed (ODEfunc.before_odeint None self) time sample
               Hy Hb eq_refl).
    rewrite (ODEfunc_forward_armed (ODEfunc.before_odeint (Some e) self) time sample
               Hy Hb eq_refl).
    cbv zeta. cbn [fst snd probe ODEfunc._e ODEfunc.before_odeint ODEfunc.diffeq
                   ODEfunc.divergence_fn ODEfunc._num_evals].
    repeat split.
    + intros log_p dy div divergence -> Hdy Hdiv Hview. unfold e, y in *.
      cbn [length]. rewrite Hdy. cbn [bind]. rewrite Hdiv. cbn [bind].
      rewrite Hview. reflexivity.
    + intros log_p c c_rows tc dy div -> Hrows Hcat Hdy Hdiv. unfold e, y in *.
      cbn [length map]. unfold getitem. cbn [nth_error bind].
      rewrite Hrows. cbn [bind]. rewrite Hcat. cbn [bind].
      rewrite Hdy. cbn [bind]. rewrite Hdiv. reflexivity.
Qed.

Lemma selected_estimator_approximate (training train_flag test_flag : bool) :
  selected_estimator training train_flag test_flag = Approximate <->
  (training = true /\ train_flag = true) \/ (training = false /\ test_flag = true).
Proof.
  unfold selected_estimator.
  destruct training, train_flag, test_flag; simpl; split; intros H;
    try reflexivity; try discriminate H; auto;
    destruct H as [[? ?] | [? ?]]; discriminate.
Qed.


(** What a call of [ODEhyperfunc.forward] that returns has done. *)
Lemma ODEhyperfunc_forward_returns (autograd_grad : Autograd R)
    (self self' : ODEhyperfunc.t) (time : R) (states out : list (Tensor R))
    (sample : list nat -> R) :
  ODEhyperfunc.forward autograd_grad time states sample self = (self', Ok out) ->
  exists y0 batch c dy,
    nth_error states 0 = Some y0 /\ size0 y0 = Ok batch /\
    nth_error states 2 = Some c /\
    ODEhyperfunc.diffeq self (broadcast_time batch y0 time)
      (requires_grad_ true y0) (requires_grad_ true c) = Ok dy /\
    nth_error out 0 = Some (value dy) /\
    exists z, nth_error out 2 = Some z /\ zero_like z c.
Proof.
  intros H.
  destruct (ODEhyperfunc_forward_ok_inv H) as [y0 [batch [fixed [Hy [Hb He]]]]].
  rewrite (ODEhyperfunc_forward_armed autograd_grad self time sample Hy Hb He) in H.
  cbv zeta in H. injection H as _ H. binds_inv H. injection H as <-.
  apply getitem_map in E. destruct E as [c [Hc ->]].
  exists y0, batch, c, v0. repeat split.
  - unfold getitem in Hy. destruct (nth_error states 0); [| discriminate Hy].
    injection Hy as ->. reflexivity.
  - exact Hb.
  - exact Hc.
  - exact E0.
  - eexists. split; [reflexivity | apply zeros_like_zero_like].
Qed.

(** C9, amended.  [ODEhyperfunc.forward] never returns on a state tuple of
    fewer than 3 channels, and once [before_odeint] has run it fails there
    with [IndexError]; when it returns, the drift network was called with the
    broadcast time as its context, [y], and [states[2]] as its third
    argument, and the third derivative is the tensor of zeros of the size
    and dtype of [states[2]]. *)
Theorem ODEhyperfunc_reads_third_channel :
  (forall autograd_grad (self : ODEhyperfunc.t) time states sample,
     length states < 3 ->
     is_ok (snd (ODEhyperfunc.forward autograd_grad time states sample self)) = false) /\
  (forall autograd_grad (self : ODEhyperfunc.t) time states sample fixed,
     ODEhyperfunc._e self = Some fixed ->
     length states < 3 ->
     exists what,
       snd (ODEhyperfunc.forward autograd_grad time states sample self)
         = Raise (IndexError what)) /\
  (forall autograd_grad (self self' : ODEhyperfunc.t) time states sample out,
     ODEhyperfunc.forward autograd_grad time states sample self = (self', Ok out) ->
     exists y0 batch c dy,
       nth_error states 0 = Some y0 /\ size0 y0 = Ok batch /\
       nth_error states 2 = Some c /\
       ODEhyperfunc.diffeq self (broadcast_time batch y0 time)
         (requires_grad_ true y0) (requires_grad_ true c) = Ok dy /\
       nth_error out 0 = Some (value dy) /\
       exists z, nth_error out 2 = Some z /\ zero_like z c).
Proof.
  split; [| split].
  - intros ag self time states sample Hlen.
    destruct (ODEhyperfunc.forward ag time states sample self) as [self' [out | ex]] eqn:E;
      [| reflexivity].
    destruct (ODEhyperfunc_forward_returns ag self self' time states out sample E)
      as [_ [_ [c [_ [_ [_ [Hc _]]]]]]].
    assert (Hnone : nth_error states 2 = None) by (apply nth_error_None; lia).
    congruence.
  - intros ag self time states sample fixed He Hlen.
    destruct (getitem states 0) as [y0 | ex] eqn:Hy.
    + destruct (size0 y0) as [batch | ex] eqn:Hb.
      * rewrite (ODEhyperfunc_forward_armed ag self time sample Hy Hb He).
        cbv zeta. cbn [snd]. unfold getitem at 1.
        rewrite (proj2 (nth_error_None _ 2)); [| rewrite length_map; lia].
        eexists. reflexivity.
      * unfold ODEhyperfunc.forward, mbind, lift. rewrite Hy, Hb. cbn [snd].
        unfold size0 in Hb. destruct (shape y0); [| discriminate Hb].
        injection Hb as <-. eexists. reflexivity.
    + unfold ODEhyperfunc.forward, mbind, lift. rewrite Hy. cbn [snd].
      unfold getitem in Hy. destruct (nth_error states 0); [discriminate Hy |].
      injection Hy as <-. eexists. reflexivity.
  - intros ag self self' time states sample out.
    apply ODEhyperfunc_forward_returns.
Qed.

End StateFunctionClaims.

(** ** Shapes and indices *)

Lemma list_nat_eqb_eq (a b : list nat) : list_nat_eqb a b = true <-> a = b.
Proof.
  revert b. induction a as [| x a IH]; intros [| y b]; simpl; split; intros H;
    try reflexivity; try discriminate H.
  - apply andb_true_iff in H. destruct H as [Hx Hab].
    apply Nat.eqb_eq in Hx. apply IH in Hab. congruence.
  - injection H as -> ->. rewrite Nat.eqb_refl. simpl. apply IH. reflexivity.
Qed.

Lemma list_nat_eqb_refl (a : list nat) : list_nat_eqb a a = true.
Proof. apply list_nat_eqb_eq. reflexivity. Qed.

Lemma list_nat_eqb_neq (a b : list nat) : a <> b -> list_nat_eqb a b = false.
Proof.
  intros H. destruct (list_nat_eqb a b) eqn:E; [| reflexivity].
  apply list_nat_eqb_eq in E. contradiction.
Qed.

Lemma broadcast_rev_refl (sh : list nat) : broadcast_rev sh sh = Some sh.
Proof.
  induction sh as [| d sh IH]; simpl; [reflexivity |].
  rewrite Nat.eqb_refl, IH. reflexivity.
Qed.

Lemma broadcast_shapes_refl (sh : list nat) : broadcast_shapes sh sh = Some sh.
Proof.
  unfold broadcast_shapes. rewrite broadcast_rev_refl. simpl.
  rewrite rev_involutive. reflexivity.
Qed.

Lemma indices_length (sh idx : list nat) :
  In idx (indices sh) -> length idx = length sh.
Proof.
  revert idx. induction sh as [| d sh IH]; intros idx H; simpl in H.
  - destruct H as [<- | []]. reflexivity.
  - apply in_flat_map in H. destruct H as [k [_ H]].
    apply in_map_iff in H. destruct H as [idx' [<- H]].
    simpl. f_equal. apply IH. exact H.
Qed.

Lemma zip_bidx_id (sh idx : list nat) :
  In idx (indices sh) -> zip_bidx sh idx = idx.
Proof.
  revert idx. induction sh as [| d sh IH]; intros idx H; simpl in H.
  - destruct H as [<- | []]. reflexivity.
  - apply in_flat_map in H. destruct H as [k [Hk H]].
    apply in_map_iff in H. destruct H as [idx' [<- H]].
    simpl. rewrite (IH _ H). apply in_seq in Hk.
    destruct (Nat.eqb_spec d 1) as [-> |]; [| reflexivity].
    f_equal. lia.
Qed.

(** Under a broadcast that does not change the size, an operand is read at
    the index itself. *)
Lemma bidx_id (sh idx : list nat) : In idx (indices sh) -> bidx sh idx = idx.
Proof.
  intros H. unfold bidx. rewrite (indices_length _ _ H), Nat.sub_diag. simpl.
  apply zip_bidx_id. exact H.
Qed.

Lemma indices_snoc_in (lead : list nat) (d : nat) (p : list nat) (i : nat) :
  In p (indices lead) -> i < d -> In (p ++ [i]) (indices (lead ++ [d])).
Proof.
  revert p. induction lead as [| a lead IH]; intros p Hp Hi; simpl in *.
  - destruct Hp as [<- | []]. simpl. apply in_flat_map.
    exists i. split; [apply in_seq; lia | left; reflexivity].
  - apply in_flat_map in Hp. destruct Hp as [k [Hk Hp]].
    apply in_map_iff in Hp. destruct Hp as [p' [<- Hp']].
    apply in_flat_map. exists k. split; [exact Hk |].
    apply in_map_iff. exists (p' ++ [i]). split; [reflexivity | apply IH; assumption].
Qed.

Lemma NoDup_indices (sh : list nat) : NoDup (indices sh).
Proof.
  induction sh as [| d sh IH]; simpl.
  - constructor; [intros [] | constructor].
  - generalize (seq_NoDup d 0). generalize (seq 0 d) as ks.
    induction ks as [| k ks IHks]; intros Hks; simpl; [constructor |].
    inversion Hks as [| ? ? Hk Hks']; subst.
    apply NoDup_app.
    + apply NoDup_map_NoDup_ForallPairs; [| exact IH].
      intros x y _ _ Hxy. injection Hxy as ->. reflexivity.
    + apply IHks. exact Hks'.
    + intros idx H1 H2. apply in_map_iff in H1. destruct H1 as [x [<- _]].
      apply in_flat_map in H2. destruct H2 as [k' [Hk' H2]].
      apply in_map_iff in H2. destruct H2 as [x' [Heq _]].
      injection Heq as -> _. contradiction.
Qed.

Lemma indices_pair (b n : nat) (p : list nat) :
  In p (indices [b; n]) <-> exists x z, p = [x; z] /\ x < b /\ z < n.
Proof.
  simpl. rewrite in_flat_map. split.
  - intros [x [Hx H]]. apply in_map_iff in H. destruct H as [q [<- H]].
    apply in_flat_map in H. destruct H as [z [Hz H]].
    destruct H as [<- | []]. apply in_seq in Hx. apply in_seq in Hz.
    exists x, z. repeat split; lia.
  - intros [x [z [-> [Hx Hz]]]]. exists x. split; [apply in_seq; lia |].
    apply in_map_iff. exists [z]. split; [reflexivity |].
    apply in_flat_map. exists z. split; [apply in_seq; lia | left; reflexivity].
Qed.

(** ** Sums in a commutative ring *)

Section RingSums.

Context {R : Type} {SR : Scalar R}.
Hypothesis Rth : ring_theory szero sone sadd smul ssub sopp (@eq R).

Add Ring scalar_ring : Rth.

Lemma rsum_ext {A : Type} (xs : list A) (f g : A -> R) :
  (forall x, In x xs -> f x = g x) -> rsum xs f = rsum xs g.
Proof.
  induction xs as [| x xs IH]; intros H; simpl; [reflexivity |].
  rewrite (H x (or_introl eq_refl)), IH; [reflexivity |].
  intros x' Hx'. apply H. right. exact Hx'.
Qed.

Lemma rsum_zero {A : Type} (xs : list A) : rsum xs (fun _ => szero) = szero.
Proof.
  induction xs as [| x xs IH]; simpl; [reflexivity | rewrite IH; ring].
Qed.

Lemma rsum_app {A : Type} (xs ys : list A) (f : A -> R) :
  rsum (xs ++ ys) f = sadd (rsum xs f) (rsum ys f).
Proof.
  induction xs as [| x xs IH]; simpl; [ring | rewrite IH; ring].
Qed.

Lemma rsum_map {A B : Type} (h : A -> B) (xs : list A) (f : B -> R) :
  rsum (map h xs) f = rsum xs (fun x => f (h x)).
Proof.
  induction xs as [| x xs IH]; simpl; [reflexivity | rewrite IH; reflexivity].
Qed.

Lemma rsum_flat_map {A B : Type} (h : A -> list B) (xs : list A) (f : B -> R) :
  rsum (flat_map h xs) f = rsum xs (fun x => rsum (h x) f).
Proof.
  induction xs as [| x xs IH]; simpl; [reflexivity |].
  rewrite rsum_app, IH. reflexivity.
Qed.

Lemma rsum_add {A : Type} (xs : list A) (f g : A -> R) :
  rsum xs (fun x => sadd (f x) (g x)) = sadd (rsum xs f) (rsum xs g).
Proof.
  induction xs as [| x xs IH]; simpl; [ring | rewrite IH; ring].
Qed.

Lemma rsum_mul_r {A : Type} (xs : list A) (f : A -> R) (c : R) :
  smul (rsum xs f) c = rsum xs (fun x => smul (f x) c).
Proof.
  induction xs as [| x xs IH]; simpl; [ring | rewrite <- IH; ring].
Qed.

Lemma rsum_exchange {A B : Type} (xs : list A) (ys : list B) (f : A -> B -> R) :
  rsum xs (fun x => rsum ys (fun y => f x y)) =
  rsum ys (fun y => rsum xs (fun x => f x y)).
Proof.
  induction xs as [| x xs IH]; simpl.
  - rewrite rsum_zero. reflexivity.
  - rewrite IH, <- rsum_add. reflexivity.
Qed.

(** A sum whose terms vanish away from one index of a duplicate-free list. *)
Lemma rsum_single {A : Type} (xs : list A) (f : A -> R) (p : A) :
  NoDup xs -> In p xs -> (forall x, In x xs -> x <> p -> f x = szero) ->
  rsum xs f = f p.
Proof.
  induction xs as [| x xs IH]; intros Hnd Hin Hz; [destruct Hin |].
  inversion Hnd as [| ? ? Hx Hnd']; subst. simpl.
  destruct Hin as [-> | Hin].
  - rewrite (rsum_ext xs f (fun _ => szero)), rsum_zero; [ring |].
    intros x Hxin. apply Hz; [right; exact Hxin |].
    intros ->. contradiction.
  - rewrite (Hz x (or_introl eq_refl)).
    + rewrite IH; [ring | exact Hnd' | exact Hin |].
      intros x' Hx' Hne. apply Hz; [right; exact Hx' | exact Hne].
    + intros ->. contradiction.
Qed.

(** A sum over the indices of a shape, split at the last dimension. *)
Lemma rsum_indices_snoc (lead : list nat) (d : nat) (f : list nat -> R) :
  rsum (indices (lead ++ [d])) f =
  rsum (indices lead) (fun q => rsum (seq 0 d) (fun j => f (q ++ [j]))).
Proof.
  revert f. induction lead as [| a lead IH]; intros f; simpl.
  - rewrite rsum_flat_map. simpl.
    rewrite (rsum_ext (seq 0 d) _ (fun j => f [j])); [ring |].
    intros j _. ring.
  - rewrite !rsum_flat_map. apply rsum_ext. intros k _.
    rewrite !rsum_map. rewrite IH. reflexivity.
Qed.

End RingSums.

Section DivergenceFacts.

Context {R : Type} {SR : Scalar R}.
Hypothesis Rth : ring_theory szero sone sadd smul ssub sopp (@eq R).

Add Ring scalar_ring_divergence : Rth.

Lemma sum_last_requires_grad (t : Tensor R) :
  requires_grad (sum_last t) = requires_grad t.
Proof. unfold sum_last. destruct (rev (shape t)); reflexivity. Qed.

Lemma sum_last_snoc (t : Tensor R) (lead : list nat) (d : nat) :
  shape t = lead ++ [d] ->
  sum_last t =
    mkTensor lead (dtype t) (requires_grad t)
      (fun idx => rsum (seq 0 d) (fun i => data t (idx ++ [i]))).
Proof.
  intros H. unfold sum_last. rewrite H, rev_unit, removelast_last. reflexivity.
Qed.

(** The vector-Jacobian product of a batchwise drift at one batch element
    only involves the probe entries of that element. *)
Lemma vjp_batchwise (J : list nat -> list nat -> R) (v : list nat -> R)
    (lead : list nat) (d : nat) (p : list nat) (i : nat) :
  batchwise J lead -> In p (indices lead) ->
  rsum (indices (lead ++ [d])) (fun p' => smul (v p') (J p' (p ++ [i]))) =
  rsum (seq 0 d) (fun j => smul (v (p ++ [j])) (J (p ++ [j]) (p ++ [i]))).
Proof.
  intros Hb Hp. rewrite (rsum_indices_snoc Rth).
  apply (rsum_single Rth (indices lead)
           (fun q => rsum (seq 0 d) (fun j => smul (v (q ++ [j])) (J (q ++ [j]) (p ++ [i]))))).
  - apply NoDup_indices.
  - exact Hp.
  - intros q Hq Hne.
    rewrite (rsum_ext (seq 0 d) _ (fun _ => szero)); [apply (rsum_zero Rth) |].
    intros j _. rewrite (Hb p q j i Hp Hq); [ring |].
    intros ->. apply Hne. reflexivity.
Qed.

(** [divergence_approx] with the documented gradient engine, when the
    product of the gradient with the probe has gradient history: one
    gradient call, and the quadratic form of the probe at every batch
    element. *)
Lemma divergence_approx_vjp (f : GraphTensor R) (y e : Tensor R) (lead : list nat)
    (d : nat) :
  shape y = lead ++ [d] ->
  shape (value f) = shape y ->
  shape e = shape y ->
  requires_grad (value f) = true ->
  requires_grad y = true ->
  double_backward f || requires_grad e = true ->
  batchwise (jacobian f) lead ->
  exists e_dzdx e_dzdx_e out,
    vjp_grad 0 f y (Some e) = Ok e_dzdx /\
    mul e_dzdx e = Ok e_dzdx_e /\
    divergence_approx vjp_grad f y e = Ok out /\
    out = sum_last e_dzdx_e /\
    shape out = lead /\
    forall p, In p (indices lead) ->
      data out p = quadratic_form (data e) (jacobian f) p d.
Proof.
  intros Hy Hf He Hfg Hyg Hatt Hb.
  assert (Hg : vjp_grad 0 f y (Some e) =
    Ok (mkTensor (shape y) (dtype y) (double_backward f)
          (fun q => rsum (indices (shape (value f)))
                      (fun p => smul (data e p) (jacobian f p q))))).
  { unfold vjp_grad. rewrite He, Hf, list_nat_eqb_refl. cbn [bind].
    rewrite Hfg, Hyg. reflexivity. }
  eexists. eexists. eexists. split; [exact Hg |].
  unfold divergence_approx. rewrite Hg. cbn [bind].
  unfold mul, binop. cbn [shape dtype requires_grad data].
  rewrite He, broadcast_shapes_refl. cbn [bind].
  split; [reflexivity |].
  cbn [divergence_approx_retry requires_grad]. rewrite Hatt. cbn [negb andb bind].
  rewrite sum_last_requires_grad. cbn [requires_grad].
  split; [reflexivity |]. split; [reflexivity |].
  erewrite sum_last_snoc by (cbn [shape]; exact Hy).
  cbn [shape dtype requires_grad data].
  split; [reflexivity |].
  intros p Hp. cbn [data]. unfold quadratic_form.
  rewrite (rsum_exchange Rth). apply rsum_ext. intros i Hi. apply in_seq in Hi.
  rewrite Hf, Hy.
  rewrite !(bidx_id (lead ++ [d]) (p ++ [i])) by (apply indices_snoc_in; [exact Hp | lia]).
  rewrite (vjp_batchwise _ _ _ _ _ _ Hb Hp).
  rewrite (rsum_mul_r Rth). reflexivity.
Qed.


Lemma for_each_app {A S : Type} (body : A -> S -> result S) (xs ys : list A) (s : S) :
  for_each body (xs ++ ys) s = (s' <- for_each body xs s ;; for_each body ys s').
Proof.
  revert s. induction xs as [| x xs IH]; intros s; simpl; [reflexivity |].
  destruct (body x s) as [s1 | ex]; simpl; [apply IH | reflexivity].
Qed.

Lemma pair_snoc (p : list nat) (i : nat) :
  length p = 2 -> firstn 2 p ++ i :: skipn 2 p = p ++ [i].
Proof.
  destruct p as [| x [| z [| w p]]]; simpl; intros H; try discriminate H. reflexivity.
Qed.

Lemma column_gradient_diagonal (J : list nat -> list nat -> R) (b n k : nat)
    (p : list nat) :
  batchwise J [b; n] -> In p (indices [b; n]) ->
  column_gradient J b n k (firstn 2 p ++ k :: skipn 2 p) = J (p ++ [k]) (p ++ [k]).
Proof.
  intros Hb Hp. unfold column_gradient.
  rewrite (pair_snoc p k) by (apply (indices_length [b; n]); exact Hp).
  rewrite (rsum_single Rth (indices [b; n]) _ p (NoDup_indices _) Hp).
  - rewrite (pair_snoc p k) by (apply (indices_length [b; n]); exact Hp).
    simpl. ring.
  - intros q Hq Hne.
    rewrite (pair_snoc q k) by (apply (indices_length [b; n]); exact Hq).
    apply Hb; [exact Hp | exact Hq |]. intros ->. apply Hne. reflexivity.
Qed.

(** The three calls of one iteration of [divergence_bf] before the
    addition: the column of [dx], the gradient of its sum, and the column of
    that gradient. *)
Lemma divergence_bf_column (dx : GraphTensor R) (y : Tensor R) (b n d k : nat) :
  shape y = [b; n; d] ->
  shape (value dx) = [b; n; d] ->
  requires_grad (value dx) = true ->
  requires_grad y = true ->
  k < d ->
  exists column g,
    graph_index_dim2 dx k = Ok column /\
    vjp_grad k (graph_sum column) y None = Ok g /\
    index_dim2 g k =
      Ok (mkTensor [b; n] (dtype y) (double_backward dx)
            (fun idx => column_gradient (jacobian dx) b n k
                          (firstn 2 idx ++ k :: skipn 2 idx))).
Proof.
  intros Hy Hdx Hg Hyg Hk. apply Nat.ltb_lt in Hk.
  eexists. eexists. split; [| split].
  - unfold graph_index_dim2, index_dim2. rewrite Hdx, Hk. reflexivity.
  - unfold vjp_grad, graph_sum, sum_all. cbn [value shape requires_grad numel fold_right].
    cbn [Nat.eqb bind]. rewrite Hg, Hyg. reflexivity.
  - unfold index_dim2. cbn [shape]. rewrite Hy, Hk. reflexivity.
Qed.

Lemma divergence_bf_step_vjp (dx : GraphTensor R) (y : Tensor R) (b n d k : nat)
    (sum_diag : SumDiag R) :
  shape y = [b; n; d] ->
  shape (value dx) = [b; n; d] ->
  requires_grad (value dx) = true ->
  requires_grad y = true ->
  batchwise (jacobian dx) [b; n] ->
  k < d ->
  partial_trace (jacobian dx) b n k sum_diag ->
  exists sum_diag',
    divergence_bf_step vjp_grad dx y k sum_diag = Ok sum_diag' /\
    partial_trace (jacobian dx) b n (S k) sum_diag'.
Proof.
  intros Hy Hdx Hg Hyg Hb Hk Hinv.
  destruct (divergence_bf_column dx y b n d k Hy Hdx Hg Hyg Hk)
    as [column [g [E1 [E2 E3]]]].
  unfold divergence_bf_step. rewrite E1. cbn [bind]. rewrite E2. cbn [bind].
  rewrite E3. cbn [bind].
  destruct sum_diag as [| t].
  - eexists. split; [reflexivity |]. simpl in Hinv. subst k.
    cbn [partial_trace pointwise shape data]. split; [lia |]. split; [reflexivity |].
    intros p Hp. rewrite (column_gradient_diagonal _ b n 0 p Hb Hp). simpl. ring.
  - destruct Hinv as [Hpos [Ht Hsum]].
    unfold add_. cbn [shape]. rewrite Ht, broadcast_shapes_refl, list_nat_eqb_refl.
    eexists. split; [reflexivity |].
    cbn [partial_trace shape data]. split; [lia |]. split; [reflexivity |].
    intros p Hp. rewrite (bidx_id [b; n] p Hp), (Hsum p Hp).
    rewrite (column_gradient_diagonal _ b n k p Hb Hp).
    rewrite seq_S, (rsum_app Rth). simpl. ring.
Qed.

Lemma divergence_bf_loop_vjp (dx : GraphTensor R) (y : Tensor R) (b n d : nat) :
  shape y = [b; n; d] ->
  shape (value dx) = [b; n; d] ->
  requires_grad (value dx) = true ->
  requires_grad y = true ->
  batchwise (jacobian dx) [b; n] ->
  forall k, k <= d ->
    exists sum_diag,
      for_each (divergence_bf_step vjp_grad dx y) (seq 0 k) FloatZero = Ok sum_diag /\
      partial_trace (jacobian dx) b n k sum_diag.
Proof.
  intros Hy Hdx Hg Hyg Hb k. induction k as [| k IH]; intros Hk.
  - exists FloatZero. split; reflexivity.
  - destruct IH as [acc [Hrun Hinv]]; [lia |].
    destruct (divergence_bf_step_vjp dx y b n d k acc Hy Hdx Hg Hyg Hb) as [acc' [Hstep Hinv']];
      [lia | exact Hinv |].
    exists acc'. split; [| exact Hinv'].
    rewrite seq_S, for_each_app, Hrun. cbn [bind Nat.add for_each]. rewrite Hstep.
    reflexivity.
Qed.

(** [divergence_bf] with the documented gradient engine: the trace of the
    Jacobian at every batch element. *)
Lemma divergence_bf_vjp (dx : GraphTensor R) (y : Tensor R) (b n d : nat) :
  shape y = [b; n; d] ->
  shape (value dx) = [b; n; d] ->
  0 < d ->
  requires_grad (value dx) = true ->
  requires_grad y = true ->
  batchwise (jacobian dx) [b; n] ->
  exists out,
    divergence_bf vjp_grad dx y = Ok out /\
    shape out = [b; n] /\
    forall p, In p (indices [b; n]) ->
      data out p = jacobian_trace (jacobian dx) p d.
Proof.
  intros Hy Hdx Hd Hg Hyg Hb.
  destruct (divergence_bf_loop_vjp dx y b n d Hy Hdx Hg Hyg Hb d (le_n d))
    as [acc [Hrun Hinv]].
  unfold divergence_bf. rewrite Hy. cbn [rev app bind]. rewrite Hrun. cbn [bind].
  destruct acc as [| t]; simpl in Hinv; [lia |].
  destruct Hinv as [_ [Ht Hsum]].
  exists t. split; [reflexivity |]. split; [exact Ht |].
  intros p Hp. unfold jacobian_trace. apply Hsum. exact Hp.
Qed.

Lemma linear_drift_batchwise (A : nat -> nat -> R) (y : Tensor R) (lead : list nat) :
  batchwise (jacobian (linear_drift A y)) lead.
Proof.
  intros p p' j i _ _ Hne. cbn [linear_drift jacobian].
  rewrite !removelast_last. rewrite list_nat_eqb_neq; [reflexivity |].
  intros ->. apply Hne. reflexivity.
Qed.

Lemma linear_drift_trace (A : nat -> nat -> R) (y : Tensor R) (p : list nat) (d : nat) :
  jacobian_trace (jacobian (linear_drift A y)) p d = matrix_trace A d.
Proof.
  unfold jacobian_trace, matrix_trace. apply rsum_ext. intros i _.
  cbn [linear_drift jacobian]. rewrite removelast_last, list_nat_eqb_refl, last_last.
  reflexivity.
Qed.

(** C1, amended.  With the documented gradient engine and exact
    arithmetic, for a drift of the size of the state that acts on each
    leading index by itself, drift and state requiring gradients:
    [divergence_approx(f, y, e)], for a probe of the size of the state whose
    product with the gradient has gradient history, makes one gradient call,
    multiplies the vector-Jacobian product by [e] entry by entry and sums
    over the last dimension, which is [e^T J e] at every leading index;
    [divergence_bf(dx, y)], on a state of size (batch, points, dim) with
    [dim > 0], returns the trace of the Jacobian at every point of every
    batch element, and for the linear drift [dy = A . y] the trace of [A]. *)
Theorem divergence_estimators_compute_the_trace :
  (forall (f : GraphTensor R) (y e : Tensor R) (lead : list nat) (d : nat),
     shape y = lead ++ [d] ->
     shape (value f) = shape y ->
     shape e = shape y ->
     requires_grad (value f) = true ->
     requires_grad y = true ->
     double_backward f || requires_grad e = true ->
     batchwise (jacobian f) lead ->
     exists e_dzdx e_dzdx_e out,
       vjp_grad 0 f y (Some e) = Ok e_dzdx /\
       mul e_dzdx e = Ok e_dzdx_e /\
       divergence_approx vjp_grad f y e = Ok out /\
       out = sum_last e_dzdx_e /\
       shape out = lead /\
       forall p, In p (indices lead) ->
         data out p = quadratic_form (data e) (jacobian f) p d) /\
  (forall (dx : GraphTensor R) (y : Tensor R) (b n d : nat),
     shape y = [b; n; d] ->
     shape (value dx) = [b; n; d] ->
     0 < d ->
     requires_grad (value dx) = true ->
     requires_grad y = true ->
     batchwise (jacobian dx) [b; n] ->
     exists out,
       divergence_bf vjp_grad dx y = Ok out /\
       shape out = [b; n] /\
       forall p, In p (indices [b; n]) ->
         data out p = jacobian_trace (jacobian dx) p d) /\
  (forall (A : nat -> nat -> R) (y : Tensor R) (b n d : nat),
     shape y = [b; n; d] ->
     0 < d ->
     requires_grad y = true ->
     exists out,
       divergence_bf vjp_grad (linear_drift A y) y = Ok out /\
       shape out = [b; n] /\
       forall p, In p (indices [b; n]) -> data out p = matrix_trace A d).
Proof.
  split; [| split].
  - intros f y e lead d. apply divergence_approx_vjp.
  - intros dx y b n d. apply divergence_bf_vjp.
  - intros A y b n d Hy Hd Hyg.
    destruct (divergence_bf_vjp (linear_drift A y) y b n d Hy Hy Hd eq_refl Hyg
                (linear_drift_batchwise A y [b; n])) as [out [Hrun [Hsh Hout]]].
    exists out. split; [exact Hrun |]. split; [exact Hsh |].
    intros p Hp. rewrite (Hout p Hp). apply linear_drift_trace.
Qed.

End DivergenceFacts.

Section RetryFacts.

Context {R : Type} {SR : Scalar R}.
Variable autograd_grad : Autograd R.

(** The loop, entered with the outcome of call [cnt], when the calls before
    call [k] give products without gradient history: it stops with the
    outcome of call [k] if that product has gradient history or [k] is 10. *)
Lemma divergence_approx_retry_stops (f : GraphTensor R) (y e : Tensor R) (k : nat)
    (gk pk : Tensor R) :
  k <= 10 ->
  attempt autograd_grad f y e k gk pk ->
  requires_grad pk = true \/ k = 10 ->
  forall left cnt g p,
    cnt + left = 10 -> cnt <= k ->
    attempt autograd_grad f y e cnt g p ->
    (forall j, cnt <= j -> j < k ->
       exists gj pj, attempt autograd_grad f y e j gj pj /\ requires_grad pj = false) ->
    divergence_approx_retry autograd_grad left cnt f y e g p = Ok (gk, pk, k).
Proof.
  intros Hk10 Hk Hstop left. induction left as [| left IH];
    intros cnt g p Hsum Hle Hcnt Hbefore.
  - assert (cnt = k) as -> by lia.
    destruct Hk as [Hk1 Hk2], Hcnt as [Hc1 Hc2].
    rewrite Hk1 in Hc1. injection Hc1 as <-. rewrite Hk2 in Hc2. injection Hc2 as <-.
    reflexivity.
  - cbn [divergence_approx_retry].
    destruct (Nat.eq_dec cnt k) as [-> | Hne].
    + destruct Hk as [Hk1 Hk2], Hcnt as [Hc1 Hc2].
      rewrite Hk1 in Hc1. injection Hc1 as <-. rewrite Hk2 in Hc2. injection Hc2 as <-.
      destruct Hstop as [Hrg | ->]; [| lia].
      rewrite Hrg. reflexivity.
    + destruct (Hbefore cnt (le_n cnt)) as [gj [pj [[Hj1 Hj2] Hrg]]]; [lia |].
      destruct Hcnt as [Hc1 Hc2].
      rewrite Hj1 in Hc1. injection Hc1 as <-. rewrite Hj2 in Hc2. injection Hc2 as <-.
      rewrite Hrg. cbn [negb andb].
      replace (cnt <? 10) with true by (symmetry; apply Nat.ltb_lt; lia).
      assert (Hnext : exists g' p', attempt autograd_grad f y e (S cnt) g' p').
      { destruct (Nat.eq_dec (S cnt) k) as [<- | Hne'].
        - exists gk, pk. exact Hk.
        - destruct (Hbefore (S cnt)) as [g' [p' [Ha _]]]; [lia | lia |].
          exists g', p'. exact Ha. }
      destruct Hnext as [g' [p' Hnext]].
      rewrite (proj1 Hnext). cbn [bind]. rewrite (proj2 Hnext). cbn [bind].
      apply IH; [lia | lia | exact Hnext |].
      intros j Hj1' Hj2'. apply Hbefore; lia.
Qed.

(** C8, amended.  [divergence_approx] repeats the gradient call while the
    product of its result with the probe has no gradient history, at most 10
    times.  When the product of call [k] is the first with gradient history,
    its sum over the last dimension is returned; when the product still has
    none after the tenth repetition, the assertion fails with a message made
    of the size of the drift, the gradient flags of the drift, the state,
    the gradient, the probe and the product, and the count 10. *)
Theorem divergence_approx_retries_then_asserts (f : GraphTensor R) (y e : Tensor R)
    (k : nat) (g p : Tensor R) :
  k <= 10 ->
  (forall j, j < k ->
     exists gj pj, attempt autograd_grad f y e j gj pj /\ requires_grad pj = false) ->
  attempt autograd_grad f y e k g p ->
  (requires_grad p = true ->
     divergence_approx autograd_grad f y e = Ok (sum_last p)) /\
  (k = 10 -> requires_grad p = false ->
     divergence_approx autograd_grad f y e =
       Raise (AssertionError
                (MsgFailedToAddNode (shape (value f)) (requires_grad (value f))
                   (requires_grad y) (requires_grad g) (requires_grad e) false 10))).
Proof.
  intros Hk Hbefore Hatt.
  assert (Hfirst : exists g0 p0, attempt autograd_grad f y e 0 g0 p0).
  { destruct k as [| k'].
    - exists g, p. exact Hatt.
    - destruct (Hbefore 0) as [g0 [p0 [H0 _]]]; [lia |]. exists g0, p0. exact H0. }
  destruct Hfirst as [g0 [p0 H0]].
  assert (Hloop : requires_grad p = true \/ k = 10 ->
    divergence_approx_retry autograd_grad 10 0 f y e g0 p0 = Ok (g, p, k)).
  { intros Hstop. apply divergence_approx_retry_stops; try assumption; try lia.
    intros j _ Hj. apply Hbefore. exact Hj. }
  unfold divergence_approx. rewrite (proj1 H0). cbn [bind]. rewrite (proj2 H0).
  cbn [bind]. split.
  - intros Hrg. rewrite (Hloop (or_introl Hrg)). cbn [bind].
    assert (Hs : requires_grad (sum_last p) = true).
    { unfold sum_last. destruct (rev (shape p)); exact Hrg. }
    rewrite Hs. reflexivity.
  - intros -> Hrg. rewrite (Hloop (or_intror eq_refl)). cbn [bind].
    assert (Hs : requires_grad (sum_last p) = false).
    { unfold sum_last. destruct (rev (shape p)); exact Hrg. }
    rewrite Hs, Hrg. reflexivity.
Qed.

End RetryFacts.

(** ** The theorems at concrete inputs *)

(** C2 at a module built from the dims string ["2"] with [input_dim = 1]:
    16 entries are consumed, and 22 by the 2D variant, and the drift of the
    two points is what the pass read off the layout gives: [30] and [33],
    and [33] and [36] with the coordinates. *)
Lemma forward_consumes_layout_witness :
  ODEHypernet_init "2" 1%Z "relu" true = Ok ex_hypernet /\
  (exists s, ODEHypernet_run ex_hypernet ex_context ex_points ex_weights = Ok s /\
             cursor s = 16%Z) /\
  (exists s, ODEHypernet2D_run ex_hypernet ex_context ex_points ex_y_points
               ex_weights2D = Ok s /\
             cursor s = 22%Z) /\
  (entry (ODEHypernet_forward ex_hypernet ex_context ex_points ex_weights) [0; 0; 0]
     = Some 30%Z /\
   entry (ODEHypernet_forward ex_hypernet ex_context ex_points ex_weights) [0; 1; 0]
     = Some 33%Z) /\
  (entry (ODEHypernet2D_forward ex_hypernet ex_context ex_points ex_y_points
            ex_weights2D) [0; 0; 0] = Some 33%Z /\
   entry (ODEHypernet2D_forward ex_hypernet ex_context ex_points ex_y_points
            ex_weights2D) [0; 1; 0] = Some 36%Z).
Proof.
  split; [reflexivity |]. split; [| split; [| split]].
  - destruct (is_ok_inv (ODEHypernet_run ex_hypernet ex_context ex_points ex_weights))
      as [s E]; [vm_compute; reflexivity |].
    exists s. split; [exact E |].
    rewrite (proj1 (proj1 (forward_consumes_layout ex_hypernet ex_context ex_points
                             ex_y_points ex_weights) s E)).
    reflexivity.
  - destruct (is_ok_inv (ODEHypernet2D_run ex_hypernet ex_context ex_points ex_y_points
                           ex_weights2D)) as [s E]; [vm_compute; reflexivity |].
    exists s. split; [exact E |].
    rewrite (proj1 (proj1 (proj2 (forward_consumes_layout ex_hypernet ex_context
                                    ex_points ex_y_points ex_weights2D)) s E)).
    reflexivity.
  - rewrite (proj1 (proj2 (proj2 (forward_consumes_layout ex_hypernet ex_context
                                    ex_points ex_y_points ex_weights)))).
    split; vm_compute; reflexivity.
  - rewrite (proj2 (proj2 (proj2 (forward_consumes_layout ex_hypernet ex_context
                                    ex_points ex_y_points ex_weights2D)))).
    split; vm_compute; reflexivity.
Defined.

(** C10 at concrete modules built with [use_bias=False]: the two flags give
    one output; the bias segment enters the drift of either class (another
    bias for the first layer gives another drift); and in the first layer
    the second point gets, in its second column, the entry 4 of the bias
    segment on top of the product 4. *)
Lemma use_bias_is_never_read_witness :
  ODEHypernet_forward (mkODEHypernet ReLU true [1; 2; 1]%Z) ex_context ex_points
    ex_weights =
  ODEHypernet_forward (mkODEHypernet ReLU false [1; 2; 1]%Z) ex_context ex_points
    ex_weights /\
  (entry (ODEHypernet_forward (mkODEHypernet ReLU false [1; 2; 1]%Z) ex_context
            ex_points ex_weights) [0; 0; 0] = Some 30%Z /\
   entry (ODEHypernet_forward (mkODEHypernet ReLU false [1; 2; 1]%Z) ex_context
            ex_points ex_weights_other_bias) [0; 0; 0] = Some 41%Z) /\
  (entry (ODEHypernet2D_forward (mkODEHypernet ReLU false [1; 2; 1]%Z) ex_context
            ex_points ex_y_points ex_weights2D) [0; 0; 0] = Some 33%Z /\
   entry (ODEHypernet2D_forward (mkODEHypernet ReLU false [1; 2; 1]%Z) ex_context
            ex_points ex_y_points ex_weights2D_other_bias) [0; 0; 0] = Some 44%Z) /\
  (exists out product,
     affine_by_layout 0 [1; 2; 1]%Z None ex_weights 1 0 (SegWeight, 0%Z, 2%Z)
       (SegBias, 2%Z, 4%Z) ex_points = Ok out /\
     product_by_layout 0 [1; 2; 1]%Z None ex_weights 1 0 (SegWeight, 0%Z, 2%Z)
       ex_points = Ok product /\
     data product [0; 1; 1] = 4%Z /\
     data out [0; 1; 1] = (data product [0; 1; 1]%nat + 4)%Z).
Proof.
  split; [| split; [| split]].
  - exact (proj1 (use_bias_is_never_read ReLU [1; 2; 1]%Z ex_context ex_points
                    ex_y_points ex_weights)).
  - rewrite (proj1 (proj2 (proj2 (proj2 (proj2
               (use_bias_is_never_read ReLU [1; 2; 1]%Z ex_context ex_points
                  ex_y_points ex_weights))))) false).
    rewrite (proj1 (proj2 (proj2 (proj2 (proj2
               (use_bias_is_never_read ReLU [1; 2; 1]%Z ex_context ex_points
                  ex_y_points ex_weights_other_bias))))) false).
    split; vm_compute; reflexivity.
  - rewrite (proj1 (proj2 (proj2 (proj2 (proj2 (proj2
               (use_bias_is_never_read ReLU [1; 2; 1]%Z ex_context ex_points
                  ex_y_points ex_weights2D)))))) false).
    rewrite (proj1 (proj2 (proj2 (proj2 (proj2 (proj2
               (use_bias_is_never_read ReLU [1; 2; 1]%Z ex_context ex_points
                  ex_y_points ex_weights2D_other_bias)))))) false).
    split; vm_compute; reflexivity.
  - destruct (is_ok_inv (affine_by_layout 0 [1; 2; 1]%Z None ex_weights 1 0
                           (SegWeight, 0%Z, 2%Z) (SegBias, 2%Z, 4%Z) ex_points))
      as [out E]; [vm_compute; reflexivity |].
    destruct (proj2 (proj2 (proj2 (proj2 (proj2 (proj2
                (use_bias_is_never_read ReLU [1; 2; 1]%Z ex_context ex_points
                   ex_y_points ex_weights))))))
                0%Z None 1 16 0 (SegWeight, 0%Z, 2%Z) 2%Z 4%Z ex_points out
                eq_refl ltac:(lia) ltac:(vm_compute; discriminate) E)
      as [product [Eproduct Hbias]].
    exists out, product. split; [exact E |]. split; [exact Eproduct |].
    split.
    + assert (Hentry : entry (product_by_layout 0 [1; 2; 1]%Z None ex_weights 1 0
                                (SegWeight, 0%Z, 2%Z) ex_points) [0; 1; 1]
                       = Some 4%Z) by (vm_compute; reflexivity).
      rewrite Eproduct in Hentry. injection Hentry as Hentry. exact Hentry.
    + rewrite (Hbias 0 1 1 ltac:(lia) ltac:(lia)). reflexivity.
Defined.

(** C7 at the network of the end-to-end scenario: hidden widths [(32,)] on
    states of width 2. *)
Lemma ODEnet_one_hidden_layer_witness :
  exists first last_layer,
    ODEnet_init [32%Z] [2%Z] 0%Z "concat" "softplus"
      = Ok (mkODEnet [first; last_layer] [Softplus]) /\
    dim_out last_layer = 2%Z.
Proof.
  destruct (ODEnet_one_hidden_layer (R := Z) 2%Z 32%Z 0%Z [] "concat" "softplus"
              ConcatLinear Softplus ltac:(lia) ltac:(lia) eq_refl eq_refl)
    as [first [last_layer [Hinit [_ [_ [_ [_ [Hout _]]]]]]]].
  exists first, last_layer. split; [exact Hinit | exact Hout].
Defined.

(** C3 at calls that return: a 3-channel tuple for [ODEfunc], a 4-channel
    one for [ODEhyperfunc2D]. *)
Lemma auxiliary_channels_have_zero_derivative_witness :
  (exists self' out z,
     ODEfunc.forward 0%Z [ex_y; ex_log_p; ex_c] ex_sample ex_odefunc = (self', Ok out) /\
     nth_error out 2 = Some z /\ zero_like z ex_c) /\
  (exists self' out z zw,
     ODEhyperfunc2D.forward 0%Z [ex_y3; ex_log_p; ex_c; ex_w] ex_sample ex_odehyperfunc2D
       = (self', Ok out) /\
     nth_error out 2 = Some z /\ zero_like z ex_c /\
     nth_error out 3 = Some zw /\ zero_like zw ex_w).
Proof.
  split.
  - destruct (method_ok_inv
                (ODEfunc.forward 0%Z [ex_y; ex_log_p; ex_c] ex_sample ex_odefunc))
      as [self' [out E]]; [vm_compute; reflexivity |].
    destruct (proj1 auxiliary_channels_have_zero_derivative ex_odefunc self' 0%Z
                [ex_y; ex_log_p; ex_c] ex_sample out ex_c eq_refl eq_refl E) as [_ [z [Hz Hzero]]].
    exists self', out, z. auto.
  - destruct (method_ok_inv
                (ODEhyperfunc2D.forward 0%Z [ex_y3; ex_log_p; ex_c; ex_w] ex_sample
                   ex_odehyperfunc2D))
      as [self' [out E]]; [vm_compute; reflexivity |].
    destruct (proj2 (proj2 auxiliary_channels_have_zero_derivative) ex_odehyperfunc2D
                self' 0%Z [ex_y3; ex_log_p; ex_c; ex_w] ex_sample out ex_c ex_w
                eq_refl eq_refl eq_refl E) as [_ [z [zw [Hz [Hzero [Hzw Hwzero]]]]]].
    exists self', out, z, zw. auto.
Defined.

(** C4, counterexample.  The empty state tuple is not answered by the
    assertion. *)
Lemma empty_state_tuple_raises_index_error :
  snd (ODEfunc.forward 0%Z [] ex_sample ex_odefunc)
    = Raise (IndexError "tuple index out of range") /\
  snd (ODEfunc.forward 0%Z [] ex_sample ex_odefunc)
    <> Raise (AssertionError (MsgText "`len(states)` should be 2 or 3")).
Proof. split; [reflexivity | discriminate]. Qed.

(** C4 at tuples of 1, 4, 2 and 3 channels. *)
Lemma ODEfunc_forward_branches_on_length_witness :
  snd (ODEfunc.forward 0%Z [ex_y] ex_sample ex_odefunc)
    = Raise (AssertionError (MsgText "`len(states)` should be 2 or 3")) /\
  snd (ODEfunc.forward 0%Z [ex_y; ex_log_p; ex_c; ex_w] ex_sample ex_odefunc)
    = Raise (AssertionError (MsgText "`len(states)` should be 2 or 3")) /\
  is_ok (snd (ODEfunc.forward 0%Z [ex_y; ex_log_p] ex_sample ex_odefunc)) = true /\
  is_ok (snd (ODEfunc.forward 0%Z [ex_y; ex_log_p; ex_c] ex_sample ex_odefunc)) = true.
Proof.
  pose proof (proj2 ODEfunc_forward_branches_on_length ex_odefunc 0%Z) as H.
  split; [| split; [| split]].
  - apply (H [ex_y] ex_sample ex_y 2 None eq_refl eq_refl eq_refl); simpl; lia.
  - apply (H [ex_y; ex_log_p; ex_c; ex_w] ex_sample ex_y 2 None eq_refl eq_refl eq_refl);
      simpl; lia.
  - destruct (H [ex_y; ex_log_p] ex_sample ex_y 2 None eq_refl eq_refl eq_refl)
      as [_ [H2 _]].
    rewrite (H2 ex_log_p eq_refl). vm_compute. reflexivity.
  - destruct (H [ex_y; ex_log_p; ex_c] ex_sample ex_y 2 None eq_refl eq_refl eq_refl)
      as [H3 _].
    rewrite (H3 ex_log_p ex_c eq_refl). vm_compute. reflexivity.
Defined.

(** C5, counterexample.  A call on a freshly constructed [ODEfunc] does not
    complete. *)
Lemma forward_before_before_odeint_raises :
  snd (ODEfunc.forward 0%Z [ex_y; ex_log_p] ex_sample (ODEfunc.init vjp_grad ex_diffeq))
    = Raise (AttributeError "ODEfunc" "_e").
Proof. reflexivity. Qed.

(** C5 at a fresh module and at the same module once armed, on 2 and on 3
    channels. *)
Lemma forward_samples_noise_once_armed_witness :
  snd (ODEfunc.forward 0%Z [ex_y; ex_log_p] ex_sample (ODEfunc.init vjp_grad ex_diffeq))
    = Raise (AttributeError "ODEfunc" "_e") /\
  (exists e,
     ODEfunc._e (fst (ODEfunc.forward 0%Z [ex_y; ex_log_p] ex_sample ex_odefunc))
       = Some (Some e) /\
     shape e = [2; 2] /\
     is_ok (snd (ODEfunc.forward 0%Z [ex_y; ex_log_p] ex_sample ex_odefunc)) = true) /\
  (exists e,
     ODEfunc._e (fst (ODEfunc.forward 0%Z [ex_y; ex_log_p; ex_c] ex_sample ex_odefunc))
       = Some (Some e) /\
     shape e = [2; 2] /\
     is_ok (snd (ODEfunc.forward 0%Z [ex_y; ex_log_p; ex_c] ex_sample ex_odefunc))
       = true).
Proof.
  split; [| split].
  - exact (proj1 forward_samples_noise_once_armed vjp_grad ex_diffeq 0%Z
             [ex_y; ex_log_p] ex_sample ex_y 2 eq_refl eq_refl).
  - destruct (proj2 forward_samples_noise_once_armed (ODEfunc.init vjp_grad ex_diffeq)
                0%Z [ex_y; ex_log_p] ex_sample ex_y 2 eq_refl eq_refl)
      as [He [Hshape _]].
    eexists. split; [exact He |]. split; [exact Hshape | vm_compute; reflexivity].
  - destruct (proj2 forward_samples_noise_once_armed (ODEfunc.init vjp_grad ex_diffeq)
                0%Z [ex_y; ex_log_p; ex_c] ex_sample ex_y 2 eq_refl eq_refl)
      as [He [Hshape _]].
    eexists. split; [exact He |]. split; [exact Hshape | vm_compute; reflexivity].
Defined.


(** C9, counterexample.  On a freshly constructed [ODEhyperfunc] a
    2-channel tuple does not end in [IndexError]: the call raises
    [AttributeError] where it reads [_e], before it reads [states[2]]. *)
Lemma fresh_ODEhyperfunc_raises_attribute_error :
  snd (ODEhyperfunc.forward vjp_grad 0%Z [ex_y3; ex_log_p] ex_sample
         (ODEhyperfunc.init true false ex_diffeq3))
    = Raise (AttributeError "ODEhyperfunc" "_e") /\
  (forall what,
     snd (ODEhyperfunc.forward vjp_grad 0%Z [ex_y3; ex_log_p] ex_sample
            (ODEhyperfunc.init true false ex_diffeq3))
       <> Raise (IndexError what)).
Proof. split; [reflexivity | discriminate]. Qed.

(** C9 at a 2-channel and at a 3-channel tuple. *)
Lemma ODEhyperfunc_reads_third_channel_witness :
  (exists what,
     snd (ODEhyperfunc.forward vjp_grad 0%Z [ex_y3; ex_log_p] ex_sample ex_odehyperfunc)
       = Raise (IndexError what)) /\
  (exists self' out z,
     ODEhyperfunc.forward vjp_grad 0%Z [ex_y3; ex_log_p; ex_w] ex_sample ex_odehyperfunc
       = (self', Ok out) /\
     nth_error out 2 = Some z /\ zero_like z ex_w).
Proof.
  split.
  - apply (proj1 (proj2 ODEhyperfunc_reads_third_channel) vjp_grad ex_odehyperfunc 0%Z
             [ex_y3; ex_log_p] ex_sample None eq_refl).
    simpl. lia.
  - destruct (method_ok_inv
                (ODEhyperfunc.forward vjp_grad 0%Z [ex_y3; ex_log_p; ex_w] ex_sample
                   ex_odehyperfunc))
      as [self' [out E]]; [vm_compute; reflexivity |].
    destruct (proj2 (proj2 ODEhyperfunc_reads_third_channel) _ _ _ _ _ _ _ E)
      as [y0 [batch [c [dy [_ [_ [Hc [_ [_ [z [Hz Hzero]]]]]]]]]]].
    injection Hc as <-.
    exists self', out, z. auto.
Defined.

(** C8, counterexample.  The assertion message is the same for states of
    different sizes: it does not carry the size of the state. *)
Lemma assertion_message_omits_state_size :
  divergence_approx vjp_grad (ex_total ex_state_a) ex_state_a ex_e
    = Raise (AssertionError (MsgFailedToAddNode [2; 1] true true false false false 10)) /\
  divergence_approx vjp_grad (ex_total ex_state_b) ex_state_b ex_e
    = Raise (AssertionError (MsgFailedToAddNode [2; 1] true true false false false 10)) /\
  shape ex_state_a <> shape ex_state_b.
Proof. split; [reflexivity | split; [reflexivity | discriminate]]. Qed.

(** C8 at a drift whose gradient never has gradient history: ten
    repetitions, then the assertion. *)
Lemma divergence_approx_retries_then_asserts_witness :
  divergence_approx vjp_grad (ex_total ex_state_a) ex_state_a ex_e
    = Raise (AssertionError (MsgFailedToAddNode [2; 1] true true false false false 10)).
Proof.
  assert (A : exists g p, attempt vjp_grad (ex_total ex_state_a) ex_state_a ex_e 10 g p /\
                          requires_grad g = false /\ requires_grad p = false).
  { eexists. eexists. split; [split; reflexivity | split; reflexivity]. }
  destruct A as [g [p [Hatt [Hg Hp]]]].
  destruct (divergence_approx_retries_then_asserts vjp_grad (ex_total ex_state_a) ex_state_a
              ex_e 10 g p
              (le_n 10)) as [_ Hfail].
  - intros j _. exists g, p. split; [exact Hatt | exact Hp].
  - exact Hatt.
  - rewrite (Hfail eq_refl Hp), Hg. reflexivity.
Defined.

(** C1, counterexample.  Inputs of the claim as worded on which the
    estimators do not return what it says.  On a state of size (batch, dim)
    [divergence_bf] raises [IndexError] at [dx[:, :, i]].  With a probe that
    does not require gradients, the linear drift makes [divergence_approx]
    fail its assertion.  For the drift that puts twice the first point at
    every point, [divergence_bf] returns 4 at the first point, where the
    trace of the Jacobian is 2, and [divergence_approx] with a probe of ones
    returns 4, where [e^T J e] is 2. *)
Lemma divergence_estimators_miss_the_trace :
  divergence_bf vjp_grad (linear_drift ex_matrix (requires_grad_ true ex_y))
    (requires_grad_ true ex_y)
    = Raise (IndexError "too many indices for tensor") /\
  divergence_approx vjp_grad (linear_drift ex_matrix (requires_grad_ true ex_y))
    (requires_grad_ true ex_y) ex_probe_without_grad
    = Raise (AssertionError (MsgFailedToAddNode [2; 2] true true false false false 10)) /\
  (entry (divergence_bf vjp_grad (ex_first_point_drift (requires_grad_ true ex_points))
            (requires_grad_ true ex_points)) [0; 0] = Some 4%Z /\
   jacobian_trace (jacobian (ex_first_point_drift (requires_grad_ true ex_points)))
     [0; 0] 1 = 2%Z) /\
  (entry (divergence_approx vjp_grad
            (ex_first_point_drift (requires_grad_ true ex_points))
            (requires_grad_ true ex_points)
            (randn_like (requires_grad_ true ex_points) ex_sample)) [0; 0] = Some 4%Z /\
   quadratic_form ex_sample
     (jacobian (ex_first_point_drift (requires_grad_ true ex_points))) [0; 0] 1 = 2%Z).
Proof.
  split; [vm_compute; reflexivity |]. split; [vm_compute; reflexivity |].
  split; split; vm_compute; reflexivity.
Qed.

(** C1 over the integers, at the linear drift with matrix [[1, 2], [3, 4]]
    and a probe of ones: [e^T A e] is 10 and the trace is 5. *)
Lemma divergence_estimators_compute_the_trace_witness :
  (exists out,
     divergence_approx vjp_grad (linear_drift ex_matrix (requires_grad_ true ex_y))
       (requires_grad_ true ex_y) (randn_like ex_y ex_sample) = Ok out /\
     data out [0] = 10%Z) /\
  (exists out,
     divergence_bf vjp_grad (linear_drift ex_matrix (requires_grad_ true ex_y3))
       (requires_grad_ true ex_y3) = Ok out /\
     data out [0; 1] = 5%Z).
Proof.
  split.
  - destruct (proj1 (@divergence_estimators_compute_the_trace Z ZScalar Zth)
                (linear_drift ex_matrix (requires_grad_ true ex_y))
                (requires_grad_ true ex_y) (randn_like ex_y ex_sample) [2] 2
                eq_refl eq_refl eq_refl eq_refl eq_refl eq_refl
                (linear_drift_batchwise ex_matrix (requires_grad_ true ex_y) [2]))
      as [g [p [out [_ [_ [Hrun [_ [_ Hout]]]]]]]].
    exists out. split; [exact Hrun |].
    rewrite (Hout [0]); [reflexivity |]. simpl. auto.
  - destruct (proj2 (proj2 (@divergence_estimators_compute_the_trace Z ZScalar Zth))
                ex_matrix (requires_grad_ true ex_y3) 1 2 2 eq_refl ltac:(lia) eq_refl)
      as [out [Hrun [_ Hout]]].
    exists out. split; [exact Hrun |].
    rewrite (Hout [0; 1]); [reflexivity |]. simpl. auto.
Defined.

(** ** The evaluation counter and the probe along a sequence of calls *)

(** Adding 1 in float32 is exact up to [2^24]. *)
Lemma float32_add_one (n : Z) :
  (0 <= n < 2 ^ 24)%Z -> float32_add n 1 = (n + 1)%Z.
Proof.
  intros Hn. unfold float32_add, round_float32.
  destruct (Z.ltb_spec (Z.abs (n + 1)) (2 ^ 24)) as [_ | Hge]; [reflexivity |].
  assert (n = 2 ^ 24 - 1)%Z as -> by lia. reflexivity.
Qed.

Section SolverCallFacts.

Context {R : Type} {SR : Scalar R}.

(** What one call does to the attributes of an [ODEfunc]. *)
Lemma ODEfunc_forward_attributes (self : ODEfunc.t) (time : R)
    (states : list (Tensor R)) (sample : list nat -> R) :
  let after := fst (ODEfunc.forward time states sample self) in
  ODEfunc._num_evals after =
    (if reaches_counter (time, states, sample)
     then float32_add (ODEfunc._num_evals self) 1 else ODEfunc._num_evals self) /\
  (forall e, ODEfunc._e self = Some (Some e) -> ODEfunc._e after = Some (Some e)) /\
  (ODEfunc._e self = None ->
     ODEfunc._e after = None /\
     is_ok (snd (ODEfunc.forward time states sample self)) = false) /\
  (forall y0 batch,
     ODEfunc._e self = Some None ->
     getitem states 0 = Ok y0 -> size0 y0 = Ok batch ->
     ODEfunc._e after = Some (Some (randn_like (requires_grad_ true y0) sample))) /\
  (ODEfunc._e self = Some None ->
     reaches_counter (time, states, sample) = false ->
     ODEfunc._e after = Some None).
Proof.
  unfold reaches_counter. cbn [fst snd].
  destruct (getitem states 0) as [y0 | ex] eqn:Hy.
  - destruct (size0 y0) as [batch | ex] eqn:Hb.
    + destruct (ODEfunc._e self) as [fixed |] eqn:He.
      * rewrite (ODEfunc_forward_armed self time sample Hy Hb He).
        cbv zeta. cbn [fst snd bind is_ok ODEfunc._num_evals ODEfunc._e].
        rewrite Hb. cbn [is_ok].
        split; [reflexivity |]. split.
        { intros e Hfixed. injection Hfixed as ->. reflexivity. }
        split; [discriminate |]. split; [| discriminate].
        intros y0' batch' Hfixed Hy' _. injection Hfixed as ->. injection Hy' as <-.
        reflexivity.
      * unfold ODEfunc.forward, mbind, lift, write. rewrite Hy, Hb.
        cbn [ODEfunc._e]. rewrite He.
        cbn [getattr fst snd bind is_ok ODEfunc._num_evals ODEfunc._e].
        rewrite Hb. cbn [is_ok].
        split; [reflexivity |]. split; [discriminate |].
        split; [auto |]. split; discriminate.
    + unfold ODEfunc.forward, mbind, lift. rewrite Hy, Hb. cbn [fst snd bind is_ok].
      rewrite Hb. cbn [is_ok].
      split; [reflexivity |]. split; [auto |]. split; [auto |]. split; [| auto].
      intros y0' batch' _ Hy' Hb'. injection Hy' as <-. congruence.
  - unfold ODEfunc.forward, mbind, lift. rewrite Hy. cbn [fst snd bind is_ok].
    split; [reflexivity |]. split; [auto |]. split; [auto |]. split; [| auto].
    intros y0' batch' _ Hy' _. discriminate Hy'.
Qed.

(** What one call does to the attributes of an [ODEhyperfunc]. *)
Lemma ODEhyperfunc_forward_attributes (autograd_grad : Autograd R) (self : ODEhyperfunc.t) (time : R)
    (states : list (Tensor R)) (sample : list nat -> R) :
  let after := fst (ODEhyperfunc.forward autograd_grad time states sample self) in
  ODEhyperfunc._num_evals after =
    (if reaches_counter (time, states, sample)
     then float32_add (ODEhyperfunc._num_evals self) 1 else ODEhyperfunc._num_evals self) /\
  (forall e, ODEhyperfunc._e self = Some (Some e) -> ODEhyperfunc._e after = Some (Some e)) /\
  (ODEhyperfunc._e self = None ->
     ODEhyperfunc._e after = None /\
     is_ok (snd (ODEhyperfunc.forward autograd_grad time states sample self)) = false) /\
  (forall y0 batch,
     ODEhyperfunc._e self = Some None ->
     getitem states 0 = Ok y0 -> size0 y0 = Ok batch ->
     ODEhyperfunc._e after = Some (Some (randn_like (requires_grad_ true y0) sample))) /\
  (ODEhyperfunc._e self = Some None ->
     reaches_counter (time, states, sample) = false ->
     ODEhyperfunc._e after = Some None).
Proof.
  unfold reaches_counter. cbn [fst snd].
  destruct (getitem states 0) as [y0 | ex] eqn:Hy.
  - destruct (size0 y0) as [batch | ex] eqn:Hb.
    + destruct (ODEhyperfunc._e self) as [fixed |] eqn:He.
      * rewrite (ODEhyperfunc_forward_armed autograd_grad self time sample Hy Hb He).
        cbv zeta. cbn [fst snd bind is_ok ODEhyperfunc._num_evals ODEhyperfunc._e].
        rewrite Hb. cbn [is_ok].
        split; [reflexivity |]. split.
        { intros e Hfixed. injection Hfixed as ->. reflexivity. }
        split; [discriminate |]. split; [| discriminate].
        intros y0' batch' Hfixed Hy' _. injection Hfixed as ->. injection Hy' as <-.
        reflexivity.
      * unfold ODEhyperfunc.forward, mbind, lift, write. rewrite Hy, Hb.
        cbn [ODEhyperfunc._e]. rewrite He.
        cbn [getattr fst snd bind is_ok ODEhyperfunc._num_evals ODEhyperfunc._e].
        rewrite Hb. cbn [is_ok].
        split; [reflexivity |]. split; [discriminate |].
        split; [auto |]. split; discriminate.
    + unfold ODEhyperfunc.forward, mbind, lift. rewrite Hy, Hb. cbn [fst snd bind is_ok].
      rewrite Hb. cbn [is_ok].
      split; [reflexivity |]. split; [auto |]. split; [auto |]. split; [| auto].
      intros y0' batch' _ Hy' Hb'. injection Hy' as <-. congruence.
  - unfold ODEhyperfunc.forward, mbind, lift. rewrite Hy. cbn [fst snd bind is_ok].
    split; [reflexivity |]. split; [auto |]. split; [auto |]. split; [| auto].
    intros y0' batch' _ Hy' _. discriminate Hy'.
Qed.

(** What one call does to the attributes of an [ODEhyperfunc2D]. *)
Lemma ODEhyperfunc2D_forward_attributes (self : ODEhyperfunc2D.t) (time : R)
    (states : list (Tensor R)) (sample : list nat -> R) :
  let after := fst (ODEhyperfunc2D.forward time states sample self) in
  ODEhyperfunc2D._num_evals after =
    (if reaches_counter (time, states, sample)
     then float32_add (ODEhyperfunc2D._num_evals self) 1 else ODEhyperfunc2D._num_evals self) /\
  (forall e, ODEhyperfunc2D._e self = Some (Some e) -> ODEhyperfunc2D._e after = Some (Some e)) /\
  (ODEhyperfunc2D._e self = None ->
     ODEhyperfunc2D._e after = None /\
     is_ok (snd (ODEhyperfunc2D.forward time states sample self)) = false) /\
  (forall y0 batch,
     ODEhyperfunc2D._e self = Some None ->
     getitem states 0 = Ok y0 -> size0 y0 = Ok batch ->
     ODEhyperfunc2D._e after = Some (Some (randn_like (requires_grad_ true y0) sample))) /\
  (ODEhyperfunc2D._e self = Some None ->
     reaches_counter (time, states, sample) = false ->
     ODEhyperfunc2D._e after = Some None).
Proof.
  unfold reaches_counter. cbn [fst snd].
  destruct (getitem states 0) as [y0 | ex] eqn:Hy.
  - destruct (size0 y0) as [batch | ex] eqn:Hb.
    + destruct (ODEhyperfunc2D._e self) as [fixed |] eqn:He.
      * rewrite (ODEhyperfunc2D_forward_armed self time sample Hy Hb He).
        cbv zeta. cbn [fst snd bind is_ok ODEhyperfunc2D._num_evals ODEhyperfunc2D._e].
        rewrite Hb. cbn [is_ok].
        split; [reflexivity |]. split.
        { intros e Hfixed. injection Hfixed as ->. reflexivity. }
        split; [discriminate |]. split; [| discriminate].
        intros y0' batch' Hfixed Hy' _. injection Hfixed as ->. injection Hy' as <-.
        reflexivity.
      * unfold ODEhyperfunc2D.forward, mbind, lift, write. rewrite Hy, Hb.
        cbn [ODEhyperfunc2D._e]. rewrite He.
        cbn [getattr fst snd bind is_ok ODEhyperfunc2D._num_evals ODEhyperfunc2D._e].
        rewrite Hb. cbn [is_ok].
        split; [reflexivity |]. split; [discriminate |].
        split; [auto |]. split; discriminate.
    + unfold ODEhyperfunc2D.forward, mbind, lift. rewrite Hy, Hb. cbn [fst snd bind is_ok].
      rewrite Hb. cbn [is_ok].
      split; [reflexivity |]. split; [auto |]. split; [auto |]. split; [| auto].
      intros y0' batch' _ Hy' Hb'. injection Hy' as <-. congruence.
  - unfold ODEhyperfunc2D.forward, mbind, lift. rewrite Hy. cbn [fst snd bind is_ok].
    split; [reflexivity |]. split; [auto |]. split; [auto |]. split; [| auto].
    intros y0' batch' _ Hy' _. discriminate Hy'.
Qed.

(** What a sequence of calls does to the attributes of an [ODEfunc]. *)
Lemma ODEfunc_calls_attributes (calls : list Call) (self : ODEfunc.t) :
  ((0 <= ODEfunc._num_evals self)%Z ->
   (ODEfunc._num_evals self + Z.of_nat (length calls) <= 2 ^ 24)%Z ->
   ODEfunc._num_evals (ODEfunc_calls calls self) =
     (ODEfunc._num_evals self + Z.of_nat (length (filter reaches_counter calls)))%Z) /\
  (forall e, ODEfunc._e self = Some (Some e) ->
     ODEfunc._e (ODEfunc_calls calls self) = Some (Some e)) /\
  (ODEfunc._e self = None -> ODEfunc._e (ODEfunc_calls calls self) = None) /\
  (ODEfunc._e self = Some None ->
     ODEfunc._e (ODEfunc_calls calls self) =
       Some (match find reaches_counter calls with
             | Some call => drawn_probe call
             | None => None
             end)).
Proof.
  revert self. induction calls as [| [[time states] sample] calls IH]; intros self.
  - cbn. repeat split; auto. intros _ _. lia.
  - destruct (ODEfunc_forward_attributes self time states sample)
      as [Hn [Hfixed [Hnone [Hdraw Hkeep]]]].
    destruct (IH (fst (ODEfunc.forward time states sample self)))
      as [IHn [IHfixed [IHnone IHdraw]]].
    unfold ODEfunc_calls in *. cbn [fold_left fst snd filter find].
    split; [| split; [| split]].
    + intros Hpos Hle. cbn [length] in Hle. rewrite IHn; rewrite Hn;
        destruct (reaches_counter (time, states, sample));
        try rewrite float32_add_one by lia; cbn [length]; lia.
    + intros e He. apply IHfixed, Hfixed, He.
    + intros He. apply IHnone, Hnone, He.
    + intros He. destruct (reaches_counter (time, states, sample)) eqn:Hr.
      * unfold reaches_counter in Hr. cbn [fst snd] in Hr.
        destruct (getitem states 0) as [y0 | ex] eqn:Hy; [| discriminate Hr].
        cbn [bind] in Hr.
        destruct (size0 y0) as [batch | ex] eqn:Hb; [| discriminate Hr].
        rewrite (IHfixed _ (Hdraw y0 batch He eq_refl Hb)).
        unfold drawn_probe. cbn [fst snd]. rewrite Hy. reflexivity.
      * apply IHdraw. apply Hkeep; [exact He | reflexivity].
Qed.

(** What a sequence of calls does to the attributes of an [ODEhyperfunc]. *)
Lemma ODEhyperfunc_calls_attributes (autograd_grad : Autograd R) (calls : list Call) (self : ODEhyperfunc.t) :
  ((0 <= ODEhyperfunc._num_evals self)%Z ->
   (ODEhyperfunc._num_evals self + Z.of_nat (length calls) <= 2 ^ 24)%Z ->
   ODEhyperfunc._num_evals (ODEhyperfunc_calls autograd_grad calls self) =
     (ODEhyperfunc._num_evals self + Z.of_nat (length (filter reaches_counter calls)))%Z) /\
  (forall e, ODEhyperfunc._e self = Some (Some e) ->
     ODEhyperfunc._e (ODEhyperfunc_calls autograd_grad calls self) = Some (Some e)) /\
  (ODEhyperfunc._e self = None -> ODEhyperfunc._e (ODEhyperfunc_calls autograd_grad calls self) = None) /\
  (ODEhyperfunc._e self = Some None ->
     ODEhyperfunc._e (ODEhyperfunc_calls autograd_grad calls self) =
       Some (match find reaches_counter calls with
             | Some call => drawn_probe call
             | None => None
             end)).
Proof.
  revert self. induction calls as [| [[time states] sample] calls IH]; intros self.
  - cbn. repeat split; auto. intros _ _. lia.
  - destruct (ODEhyperfunc_forward_attributes autograd_grad self time states sample)
      as [Hn [Hfixed [Hnone [Hdraw Hkeep]]]].
    destruct (IH (fst (ODEhyperfunc.forward autograd_grad time states sample self)))
      as [IHn [IHfixed [IHnone IHdraw]]].
    unfold ODEhyperfunc_calls in *. cbn [fold_left fst snd filter find].
    split; [| split; [| split]].
    + intros Hpos Hle. cbn [length] in Hle. rewrite IHn; rewrite Hn;
        destruct (reaches_counter (time, states, sample));
        try rewrite float32_add_one by lia; cbn [length]; lia.
    + intros e He. apply IHfixed, Hfixed, He.
    + intros He. apply IHnone, Hnone, He.
    + intros He. destruct (reaches_counter (time, states, sample)) eqn:Hr.
      * unfold reaches_counter in Hr. cbn [fst snd] in Hr.
        destruct (getitem states 0) as [y0 | ex] eqn:Hy; [| discriminate Hr].
        cbn [bind] in Hr.
        destruct (size0 y0) as [batch | ex] eqn:Hb; [| discriminate Hr].
        rewrite (IHfixed _ (Hdraw y0 batch He eq_refl Hb)).
        unfold drawn_probe. cbn [fst snd]. rewrite Hy. reflexivity.
      * apply IHdraw. apply Hkeep; [exact He | reflexivity].
Qed.

(** What a sequence of calls does to the attributes of an [ODEhyperfunc2D]. *)
Lemma ODEhyperfunc2D_calls_attributes (calls : list Call) (self : ODEhyperfunc2D.t) :
  ((0 <= ODEhyperfunc2D._num_evals self)%Z ->
   (ODEhyperfunc2D._num_evals self + Z.of_nat (length calls) <= 2 ^ 24)%Z ->
   ODEhyperfunc2D._num_evals (ODEhyperfunc2D_calls calls self) =
     (ODEhyperfunc2D._num_evals self + Z.of_nat (length (filter reaches_counter calls)))%Z) /\
  (forall e, ODEhyperfunc2D._e self = Some (Some e) ->
     ODEhyperfunc2D._e (ODEhyperfunc2D_calls calls self) = Some (Some e)) /\
  (ODEhyperfunc2D._e self = None -> ODEhyperfunc2D._e (ODEhyperfunc2D_calls calls self) = None) /\
  (ODEhyperfunc2D._e self = Some None ->
     ODEhyperfunc2D._e (ODEhyperfunc2D_calls calls self) =
       Some (match find reaches_counter calls with
             | Some call => drawn_probe call
             | None => None
             end)).
Proof.
  revert self. induction calls as [| [[time states] sample] calls IH]; intros self.
  - cbn. repeat split; auto. intros _ _. lia.
  - destruct (ODEhyperfunc2D_forward_attributes self time states sample)
      as [Hn [Hfixed [Hnone [Hdraw Hkeep]]]].
    destruct (IH (fst (ODEhyperfunc2D.forward time states sample self)))
      as [IHn [IHfixed [IHnone IHdraw]]].
    unfold ODEhyperfunc2D_calls in *. cbn [fold_left fst snd filter find].
    split; [| split; [| split]].
    + intros Hpos Hle. cbn [length] in Hle. rewrite IHn; rewrite Hn;
        destruct (reaches_counter (time, states, sample));
        try rewrite float32_add_one by lia; cbn [length]; lia.
    + intros e He. apply IHfixed, Hfixed, He.
    + intros He. apply IHnone, Hnone, He.
    + intros He. destruct (reaches_counter (time, states, sample)) eqn:Hr.
      * unfold reaches_counter in Hr. cbn [fst snd] in Hr.
        destruct (getitem states 0) as [y0 | ex] eqn:Hy; [| discriminate Hr].
        cbn [bind] in Hr.
        destruct (size0 y0) as [batch | ex] eqn:Hb; [| discriminate Hr].
        rewrite (IHfixed _ (Hdraw y0 batch He eq_refl Hb)).
        unfold drawn_probe. cbn [fst snd]. rewrite Hy. reflexivity.
      * apply IHdraw. apply Hkeep; [exact He | reflexivity].
Qed.

(** X1.  The evaluation counter counts the calls of [forward]: after
    [before_odeint] and any calls, each returning or raising, [_num_evals]
    is the number of those calls that got past [y = states[0]] and
    [y.size(0)]; in particular [before_odeint] sets it back to 0.  (The
    counter is a float32 buffer, which counts exactly up to [2^24] calls.) *)
Theorem evaluation_counter_counts_calls :
  (forall (calls : list Call) (self : ODEfunc.t) e,
     (Z.of_nat (length calls) <= 2 ^ 24)%Z ->
     ODEfunc._num_evals (ODEfunc_calls calls (ODEfunc.before_odeint e self))
       = Z.of_nat (length (filter reaches_counter calls))) /\
  (forall autograd_grad (calls : list Call) (self : ODEhyperfunc.t) e,
     (Z.of_nat (length calls) <= 2 ^ 24)%Z ->
     ODEhyperfunc._num_evals
       (ODEhyperfunc_calls autograd_grad calls (ODEhyperfunc.before_odeint e self))
       = Z.of_nat (length (filter reaches_counter calls))) /\
  (forall (calls : list Call) (self : ODEhyperfunc2D.t) e,
     (Z.of_nat (length calls) <= 2 ^ 24)%Z ->
     ODEhyperfunc2D._num_evals
       (ODEhyperfunc2D_calls calls (ODEhyperfunc2D.before_odeint e self))
       = Z.of_nat (length (filter reaches_counter calls))).
Proof.
  split; [| split].
  - intros calls self e Hle.
    rewrite (proj1 (ODEfunc_calls_attributes calls (ODEfunc.before_odeint e self)));
      cbn [ODEfunc.before_odeint ODEfunc._num_evals]; lia.
  - intros ag calls self e Hle.
    rewrite (proj1 (ODEhyperfunc_calls_attributes ag calls
                      (ODEhyperfunc.before_odeint e self)));
      cbn [ODEhyperfunc.before_odeint ODEhyperfunc._num_evals]; lia.
  - intros calls self e Hle.
    rewrite (proj1 (ODEhyperfunc2D_calls_attributes calls
                      (ODEhyperfunc2D.before_odeint e self)));
      cbn [ODEhyperfunc2D.before_odeint ODEhyperfunc2D._num_evals]; lia.
Qed.

(** X2.  The probe is fixed for the calls between two [before_odeint]: a
    probe handed to [before_odeint] is still in [_e] after any calls; and
    after [before_odeint()] without one and any calls, [_e] holds the noise
    drawn at the first of these calls that got past [y.size(0)], wherever
    that call stands among them and whatever the later calls would draw,
    and is still [None] when no call got that far. *)
Theorem probe_is_fixed_between_resets :
  (forall (calls : list Call) (self : ODEfunc.t) e,
     ODEfunc._e (ODEfunc_calls calls (ODEfunc.before_odeint (Some e) self))
       = Some (Some e)) /\
  (forall (calls : list Call) (self : ODEfunc.t),
     ODEfunc._e (ODEfunc_calls calls (ODEfunc.before_odeint None self))
       = Some (match find reaches_counter calls with
               | Some call => drawn_probe call
               | None => None
               end)) /\
  (forall autograd_grad (calls : list Call) (self : ODEhyperfunc.t) e,
     ODEhyperfunc._e
       (ODEhyperfunc_calls autograd_grad calls
          (ODEhyperfunc.before_odeint (Some e) self))
       = Some (Some e)) /\
  (forall autograd_grad (calls : list Call) (self : ODEhyperfunc.t),
     ODEhyperfunc._e
       (ODEhyperfunc_calls autograd_grad calls (ODEhyperfunc.before_odeint None self))
       = Some (match find reaches_counter calls with
               | Some call => drawn_probe call
               | None => None
               end)) /\
  (forall (calls : list Call) (self : ODEhyperfunc2D.t) e,
     ODEhyperfunc2D._e
       (ODEhyperfunc2D_calls calls (ODEhyperfunc2D.before_odeint (Some e) self))
       = Some (Some e)) /\
  (forall (calls : list Call) (self : ODEhyperfunc2D.t),
     ODEhyperfunc2D._e
       (ODEhyperfunc2D_calls calls (ODEhyperfunc2D.before_odeint None self))
       = Some (match find reaches_counter calls with
               | Some call => drawn_probe call
               | None => None
               end)).
Proof.
  repeat apply conj.
  - intros calls self e.
    apply (proj1 (proj2 (ODEfunc_calls_attributes calls _))). reflexivity.
  - intros calls self.
    apply (proj2 (proj2 (proj2 (ODEfunc_calls_attributes calls _)))). reflexivity.
  - intros ag calls self e.
    apply (proj1 (proj2 (ODEhyperfunc_calls_attributes ag calls _))). reflexivity.
  - intros ag calls self.
    apply (proj2 (proj2 (proj2 (ODEhyperfunc_calls_attributes ag calls _)))).
    reflexivity.
  - intros calls self e.
    apply (proj1 (proj2 (ODEhyperfunc2D_calls_attributes calls _))). reflexivity.
  - intros calls self.
    apply (proj2 (proj2 (proj2 (ODEhyperfunc2D_calls_attributes calls _)))).
    reflexivity.
Qed.

(** X3.  A module on which [before_odeint] was never called never returns
    from [forward]: after any calls [_e] is still unassigned, and the next
    call raises again. *)
Theorem forward_never_returns_before_before_odeint :
  (forall autograd_grad diffeq (calls : list Call) time states sample,
     let self := ODEfunc_calls calls (ODEfunc.init autograd_grad diffeq) in
     ODEfunc._e self = None /\
     is_ok (snd (ODEfunc.forward time states sample self)) = false) /\
  (forall autograd_grad train_flag test_flag diffeq (calls : list Call)
          time states sample,
     let self := ODEhyperfunc_calls autograd_grad calls
                   (ODEhyperfunc.init train_flag test_flag diffeq) in
     ODEhyperfunc._e self = None /\
     is_ok (snd (ODEhyperfunc.forward autograd_grad time states sample self)) = false) /\
  (forall autograd_grad diffeq (calls : list Call) time states sample,
     let self := ODEhyperfunc2D_calls calls (ODEhyperfunc2D.init autograd_grad diffeq) in
     ODEhyperfunc2D._e self = None /\
     is_ok (snd (ODEhyperfunc2D.forward time states sample self)) = false).
Proof.
  split; [| split].
  - intros ag diffeq calls time states sample self.
    assert (He : ODEfunc._e self = None)
      by (apply (proj1 (proj2 (proj2 (ODEfunc_calls_attributes calls _)))); reflexivity).
    split; [exact He |].
    apply (proj1 (proj2 (proj2 (ODEfunc_forward_attributes self time states sample))) He).
  - intros ag train_flag test_flag diffeq calls time states sample self.
    assert (He : ODEhyperfunc._e self = None)
      by (apply (proj1 (proj2 (proj2 (ODEhyperfunc_calls_attributes ag calls _))));
          reflexivity).
    split; [exact He |].
    apply (proj1 (proj2 (proj2 (ODEhyperfunc_forward_attributes ag self time states
                                  sample))) He).
  - intros ag diffeq calls time states sample self.
    assert (He : ODEhyperfunc2D._e self = None)
      by (apply (proj1 (proj2 (proj2 (ODEhyperfunc2D_calls_attributes calls _))));
          reflexivity).
    split; [exact He |].
    apply (proj1 (proj2 (proj2 (ODEhyperfunc2D_forward_attributes self time states
                                  sample))) He).
Qed.

End SolverCallFacts.

(** X1 at three calls, the second on an empty state tuple. *)
Lemma evaluation_counter_counts_calls_witness :
  ODEfunc._num_evals
    (ODEfunc_calls [(0%Z, [ex_y; ex_log_p], ex_sample); (1%Z, [], ex_sample);
                    (2%Z, [ex_y; ex_log_p; ex_c], ex_sample)]
       (ODEfunc.before_odeint None ex_odefunc)) = 2%Z.
Proof.
  rewrite (proj1 evaluation_counter_counts_calls
             [(0%Z, [ex_y; ex_log_p], ex_sample); (1%Z, [], ex_sample);
              (2%Z, [ex_y; ex_log_p; ex_c], ex_sample)] ex_odefunc None).
  - reflexivity.
  - cbn [length]. lia.
Defined.

(** X2 at three calls: the first stops at an empty state tuple, the two
    others would draw different noise. *)
Lemma probe_is_fixed_between_resets_witness :
  ODEfunc._e
    (ODEfunc_calls [(0%Z, [], fun _ => 3%Z); (1%Z, [ex_y; ex_log_p], ex_sample);
                    (2%Z, [ex_y; ex_log_p], fun _ => 7%Z)]
       (ODEfunc.before_odeint None ex_odefunc))
    = Some (Some (randn_like (requires_grad_ true ex_y) ex_sample)).
Proof.
  rewrite (proj1 (proj2 probe_is_fixed_between_resets)
             [(0%Z, [], fun _ => 3%Z); (1%Z, [ex_y; ex_log_p], ex_sample);
              (2%Z, [ex_y; ex_log_p], fun _ => 7%Z)] ex_odefunc).
  reflexivity.
Defined.

(** X3 after one call on a module that was only constructed. *)
Lemma forward_never_returns_before_before_odeint_witness :
  is_ok (snd (ODEfunc.forward 1%Z [ex_y; ex_log_p] ex_sample
                (ODEfunc_calls [(0%Z, [ex_y; ex_log_p], ex_sample)]
                   (ODEfunc.init vjp_grad ex_diffeq)))) = false.
Proof.
  exact (proj2 (proj1 forward_never_returns_before_before_odeint vjp_grad ex_diffeq
                  [(0%Z, [ex_y; ex_log_p], ex_sample)] 1%Z [ex_y; ex_log_p] ex_sample)).
Defined.

(** ** Construction of the drift networks *)

Lemma base_layer_table_keys (key : string) :
  (In key layer_type_keys -> exists base, base_layer_table key = Ok base) /\
  (~ In key layer_type_keys -> base_layer_table key = Raise (KeyError key)).
Proof.
  unfold base_layer_table, layer_type_keys.
  repeat match goal with
         | |- context [String.eqb key ?k] =>
             destruct (String.eqb_spec key k) as [-> | ?];
             [split; [intros _; eexists; reflexivity | intros H; exfalso; apply H; simpl; tauto] |]
         end.
  split; [| reflexivity].
  simpl. intros H. repeat (destruct H as [H | H]; [congruence |]). destruct H.
Qed.

Lemma NONLINEARITIES_keys (key : string) :
  (In key nonlinearity_keys -> exists act, NONLINEARITIES key = Ok act) /\
  (~ In key nonlinearity_keys -> NONLINEARITIES key = Raise (KeyError key)).
Proof.
  unfold NONLINEARITIES, nonlinearity_keys.
  repeat match goal with
         | |- context [String.eqb key ?k] =>
             destruct (String.eqb_spec key k) as [-> | ?];
             [split; [intros _; eexists; reflexivity | intros H; exfalso; apply H; simpl; tauto] |]
         end.
  split; [| reflexivity].
  simpl. intros H. repeat (destruct H as [H | H]; [congruence |]). destruct H.
Qed.

Lemma map_fst_combine {A B : Type} (xs : list A) (ys : list B) :
  length xs = length ys -> map fst (combine xs ys) = xs.
Proof.
  revert ys. induction xs as [| x xs IH]; intros [| y ys] H; simpl in *;
    try discriminate H; [reflexivity |].
  f_equal. apply IH. lia.
Qed.

Lemma map_snd_combine {A B : Type} (xs : list A) (ys : list B) :
  length xs = length ys -> map snd (combine xs ys) = ys.
Proof.
  revert ys. induction xs as [| x xs IH]; intros [| y ys] H; simpl in *;
    try discriminate H; [reflexivity |].
  f_equal. apply IH. lia.
Qed.

(** The loop of [ODEnet.__init__], with the widths it chains: every layer
    reads the width the layer before it produced. *)
Lemma ODEnet_init_loop_chain (base : LayerType) (context_dim : Z) (nonlinearity : string)
    (act : Nonlinearity) :
  NONLINEARITIES nonlinearity = Ok act ->
  forall (outs : list Z) (s : Building) (h : Z) (hs : list Z),
    hidden_shape s = h :: hs ->
    exists s',
      for_each (ODEnet_init_step base context_dim nonlinearity) outs s = Ok s' /\
      built_activation_fns s' = built_activation_fns s ++ repeat act (length outs) /\
      built_layers s' =
        built_layers s ++
        map (fun io => mkDiffeqLayer base (fst io) (snd io) context_dim)
          (combine (removelast (h :: outs)) outs).
Proof.
  intros Hact outs. induction outs as [| d outs IH]; intros s h hs Hs.
  - exists s. simpl. rewrite !app_nil_r. auto.
  - cbn [for_each]. unfold ODEnet_init_step at 1. rewrite Hs.
    cbn [getitem nth_error bind]. rewrite Hact. cbn [bind].
    destruct (IH (mkBuilding (built_layers s ++ [mkDiffeqLayer base h d context_dim])
                    (built_activation_fns s ++ [act]) (d :: tl (h :: hs))) d
                 (tl (h :: hs)) eq_refl) as [s' [Hrun [Hacts Hlayers]]].
    exists s'. split; [exact Hrun |]. cbn [built_activation_fns built_layers] in *.
    rewrite Hacts, Hlayers, <- !app_assoc. split; [reflexivity |].
    reflexivity.
Qed.

(** What a construction of [ODEnet] that returns has been given and has
    built. *)
Lemma ODEnet_init_inv (hidden_dims input_shape : list Z) (context_dim : Z)
    (layer_type nonlinearity : string) (net : ODEnet) :
  ODEnet_init hidden_dims input_shape context_dim layer_type nonlinearity = Ok net ->
  exists base act D rest,
    base_layer_table layer_type = Ok base /\
    NONLINEARITIES nonlinearity = Ok act /\
    input_shape = D :: rest /\
    activation_fns net = repeat act (length hidden_dims) /\
    layers net =
      map (fun io => mkDiffeqLayer base (fst io) (snd io) context_dim)
        (combine (D :: hidden_dims) (hidden_dims ++ [D])).
Proof.
  intros H. unfold ODEnet_init in H.
  destruct (base_layer_table layer_type) as [base | ex] eqn:Hbase; [| discriminate H].
  cbn [bind] in H.
  destruct input_shape as [| D rest]; [discriminate H |].
  cbn [getitem nth_error bind] in H.
  destruct (NONLINEARITIES nonlinearity) as [act | ex] eqn:Hact.
  - destruct (ODEnet_init_loop_chain base context_dim nonlinearity act Hact
                (hidden_dims ++ [D]) (mkBuilding [] [] (D :: rest)) D rest eq_refl)
      as [s [Hrun [Hacts Hlayers]]].
    rewrite Hrun in H. cbn [bind] in H. injection H as <-.
    exists base, act, D, rest. cbn [layers activation_fns].
    repeat split.
    + rewrite Hacts. cbn [built_activation_fns app].
      rewrite length_app, repeat_app. simpl. apply removelast_last.
    + rewrite Hlayers. cbn [built_layers app].
      change (D :: hidden_dims ++ [D]) with ((D :: hidden_dims) ++ [D]).
      rewrite removelast_last. reflexivity.
  - exfalso. destruct hidden_dims as [| d ds]; cbn [app for_each] in H;
      unfold ODEnet_init_step in H; cbn [hidden_shape getitem nth_error bind] in H;
      rewrite Hact in H; discriminate H.
Qed.

(** X4.  For every list of positive hidden widths and [D > 0], [ODEnet]
    built with a known layer type and nonlinearity on states of width [D]
    is a chain: one layer more than hidden widths, one activation less than
    layers, the first layer reads width [D], every other layer reads the
    width the layer before it writes, and the last layer writes width [D];
    every layer is of the class of the layer type and gets the context
    dimension. *)
Theorem ODEnet_layers_form_a_chain (hidden_dims rest : list Z) (D context_dim : Z)
    (layer_type nonlinearity : string) :
  (0 < D)%Z ->
  Forall (fun width => (0 < width)%Z) hidden_dims ->
  In layer_type layer_type_keys ->
  In nonlinearity nonlinearity_keys ->
  exists net base act,
    ODEnet_init hidden_dims (D :: rest) context_dim layer_type nonlinearity = Ok net /\
    base_layer_table layer_type = Ok base /\
    NONLINEARITIES nonlinearity = Ok act /\
    length (layers net) = length hidden_dims + 1 /\
    activation_fns net = repeat act (length hidden_dims) /\
    map dim_in (layers net) = D :: hidden_dims /\
    map dim_out (layers net) = hidden_dims ++ [D] /\
    Forall (fun layer => layer_class layer = base /\
                         layer_context_dim layer = context_dim) (layers net).
Proof.
  intros _ _ Hlt Hnl.
  destruct (proj1 (base_layer_table_keys layer_type) Hlt) as [base Hbase].
  destruct (proj1 (NONLINEARITIES_keys nonlinearity) Hnl) as [act Hact].
  destruct (ODEnet_init_loop_chain base context_dim nonlinearity act Hact
              (hidden_dims ++ [D]) (mkBuilding [] [] (D :: rest)) D rest eq_refl)
    as [s [Hrun [Hacts Hlayers]]].
  assert (Hinit : ODEnet_init hidden_dims (D :: rest) context_dim layer_type nonlinearity
                  = Ok (mkODEnet (built_layers s) (removelast (built_activation_fns s)))).
  { unfold ODEnet_init. rewrite Hbase. cbn [bind getitem nth_error]. rewrite Hrun.
    reflexivity. }
  destruct (ODEnet_init_inv _ _ _ _ _ _ Hinit)
    as [base' [act' [D' [rest' [Hb' [Ha' [Hshape [Hfns Hls]]]]]]]].
  rewrite Hbase in Hb'. injection Hb' as <-. rewrite Hact in Ha'. injection Ha' as <-.
  injection Hshape as <- <-.
  exists (mkODEnet (built_layers s) (removelast (built_activation_fns s))), base, act.
  split; [exact Hinit |]. split; [exact Hbase |]. split; [exact Hact |].
  assert (Hlen : length (D :: hidden_dims) = length (hidden_dims ++ [D]))
    by (rewrite length_app; simpl; lia).
  rewrite Hls, Hfns. repeat split.
  - rewrite length_map, length_combine, <- Hlen, Nat.min_id. simpl. lia.
  - rewrite map_map. cbn [dim_in].
    change (map (fun io : Z * Z => fst io)) with (map (@fst Z Z)).
    apply map_fst_combine. exact Hlen.
  - rewrite map_map. cbn [dim_out].
    change (map (fun io : Z * Z => snd io)) with (map (@snd Z Z)).
    apply map_snd_combine. exact Hlen.
  - apply Forall_forall. intros layer Hin. apply in_map_iff in Hin.
    destruct Hin as [io [<- _]]. split; reflexivity.
Qed.

(** X5.  The exceptions of [ODEnet.__init__], in the order the code reaches
    them: an unknown layer type raises [KeyError] with that key, whatever
    the other arguments; with a known layer type, an empty input shape
    raises [IndexError]; with a known layer type and positive widths, an
    unknown nonlinearity raises [KeyError] with that key, even without
    hidden layers (the lookup is made once for every layer, after the layer
    is built). *)
Theorem ODEnet_init_rejects_unknown_keys :
  (forall hidden_dims input_shape context_dim layer_type nonlinearity,
     ~ In layer_type layer_type_keys ->
     ODEnet_init hidden_dims input_shape context_dim layer_type nonlinearity
       = Raise (KeyError layer_type)) /\
  (forall hidden_dims context_dim layer_type nonlinearity,
     In layer_type layer_type_keys ->
     ODEnet_init hidden_dims [] context_dim layer_type nonlinearity
       = Raise (IndexError "tuple index out of range")) /\
  (forall hidden_dims D rest context_dim layer_type nonlinearity,
     (0 < D)%Z ->
     Forall (fun width => (0 < width)%Z) hidden_dims ->
     In layer_type layer_type_keys ->
     ~ In nonlinearity nonlinearity_keys ->
     ODEnet_init hidden_dims (D :: rest) context_dim layer_type nonlinearity
       = Raise (KeyError nonlinearity)).
Proof.
  split; [| split].
  - intros hidden_dims input_shape context_dim layer_type nonlinearity Hlt.
    unfold ODEnet_init. rewrite (proj2 (base_layer_table_keys layer_type) Hlt).
    reflexivity.
  - intros hidden_dims context_dim layer_type nonlinearity Hlt.
    destruct (proj1 (base_layer_table_keys layer_type) Hlt) as [base Hbase].
    unfold ODEnet_init. rewrite Hbase. reflexivity.
  - intros hidden_dims D rest context_dim layer_type nonlinearity _ _ Hlt Hnl.
    destruct (proj1 (base_layer_table_keys layer_type) Hlt) as [base Hbase].
    unfold ODEnet_init. rewrite Hbase. cbn [bind getitem nth_error].
    destruct hidden_dims as [| d ds]; cbn [app for_each];
      unfold ODEnet_init_step; cbn [hidden_shape getitem nth_error bind];
      rewrite (proj2 (NONLINEARITIES_keys nonlinearity) Hnl); reflexivity.
Qed.

Section DriftNetworkFacts.

Context {R : Type} {SR : Scalar R}.
Variable layer_forward : DiffeqLayer -> Tensor R -> Tensor R -> result (Tensor R).

(** The rest of the loop of [ODEnet.forward], from layer number [a] on, when
    every layer but the last has its activation: an exception it raises is
    one a layer raised. *)
Lemma ODEnet_forward_loop_raises (self : ODEnet) (context : Tensor R) :
  length (layers self) - 1 <= length (activation_fns self) ->
  forall (ls : list DiffeqLayer) (a : nat) (x : Tensor R) (ex : exn),
    a + length ls = length (layers self) ->
    for_each (ODEnet_forward_step layer_forward self context)
      (combine (seq a (length ls)) ls) x = Raise ex ->
    exists layer input, In layer ls /\ layer_forward layer context input = Raise ex.
Proof.
  intros Hacts ls. induction ls as [| layer ls IH]; intros a x ex Ha H.
  - discriminate H.
  - cbn [length seq combine for_each] in H. unfold ODEnet_forward_step at 1 in H.
    destruct (layer_forward layer context x) as [x1 | ex1] eqn:Hlayer.
    + cbn [bind] in H.
      assert (Hnext : exists x2,
        (if a <? length (layers self) - 1
         then act <- getitem (activation_fns self) a ;; Ok (apply_nonlinearity act x1)
         else Ok x1) = Ok x2).
      { destruct (a <? length (layers self) - 1) eqn:Hlt; [| eexists; reflexivity].
        apply Nat.ltb_lt in Hlt. unfold getitem.
        destruct (nth_error (activation_fns self) a) as [act |] eqn:Hnth.
        - eexists. reflexivity.
        - apply nth_error_None in Hnth. lia. }
      destruct Hnext as [x2 Hx2]. rewrite Hx2 in H. cbn [bind] in H.
      destruct (IH (S a) x2 ex) as [layer' [input [Hin Hraise]]];
        [simpl in Ha; lia | exact H |].
      exists layer', input. split; [right; exact Hin | exact Hraise].
    + cbn [bind] in H. injection H as <-.
      exists layer, x. split; [left; reflexivity | exact Hlayer].
Qed.

(** X6.  The forward pass of an [ODEnet] that [__init__] built raises no
    exception of its own: whatever it raises, one of its layers raised, so
    it returns whenever its layers do (the index into [activation_fns] is
    never out of range). *)
Theorem ODEnet_forward_raises_only_what_a_layer_raises (hidden_dims input_shape : list Z)
    (context_dim : Z) (layer_type nonlinearity : string) (net : ODEnet)
    (context y : Tensor R) (ex : exn) :
  ODEnet_init hidden_dims input_shape context_dim layer_type nonlinearity = Ok net ->
  ODEnet_forward layer_forward net context y = Raise ex ->
  exists layer input,
    In layer (layers net) /\ layer_forward layer context input = Raise ex.
Proof.
  intros Hinit H.
  destruct (ODEnet_init_inv _ _ _ _ _ _ Hinit)
    as [base [act [D [rest [_ [_ [_ [Hfns Hls]]]]]]]].
  apply (ODEnet_forward_loop_raises net context) with (a := 0) (x := y).
  - rewrite Hfns, Hls, repeat_length, length_map, length_combine, length_app.
    cbn [length]. lia.
  - reflexivity.
  - exact H.
Qed.

End DriftNetworkFacts.

Lemma ODEnet_layers_form_a_chain_witness :
  exists net,
    ODEnet_init [64; 32]%Z [3%Z] 1%Z "concatsquash" "tanh" = Ok net /\
    map dim_in (layers net) = [3; 64; 32]%Z /\
    map dim_out (layers net) = [64; 32; 3]%Z /\
    activation_fns net = [Tanh; Tanh].
Proof.
  destruct (ODEnet_layers_form_a_chain [64; 32]%Z [] 3%Z 1%Z "concatsquash" "tanh")
    as (net & base & act & Hinit & _ & Hact & _ & Hfns & Hin & Hout & _).
  - lia.
  - repeat constructor.
  - cbn. auto 10.
  - cbn. auto 10.
  - exists net. split; [exact Hinit |]. split; [exact Hin |]. split; [exact Hout |].
    rewrite Hfns. injection Hact as <-. reflexivity.
Defined.

Lemma ODEnet_forward_raises_only_what_a_layer_raises_witness :
  exists net layer input,
    ODEnet_init [2%Z] [2%Z] 0%Z "concat" "softplus" = Ok net /\
    In layer (layers net) /\
    (fun (layer : DiffeqLayer) (_ x : Tensor Z) =>
       if (dim_in layer =? 2)%Z && (dim_out layer =? 2)%Z
       then Raise (RuntimeError "size mismatch") else Ok x) layer ex_c input
      = Raise (RuntimeError "size mismatch").
Proof.
  destruct (is_ok_inv (ODEnet_init [2%Z] [2%Z] 0%Z "concat" "softplus"))
    as [net Hinit]; [reflexivity |].
  destruct (ODEnet_forward_raises_only_what_a_layer_raises
              (fun (layer : DiffeqLayer) (_ x : Tensor Z) =>
                 if (dim_in layer =? 2)%Z && (dim_out layer =? 2)%Z
                 then Raise (RuntimeError "size mismatch") else Ok x)
              [2%Z] [2%Z] 0%Z "concat" "softplus" net ex_c ex_y
              (RuntimeError "size mismatch") Hinit)
    as (layer & input & Hin & Hraise).
  - unfold ODEnet_init in Hinit. cbn in Hinit. injection Hinit as <-. reflexivity.
  - exists net, layer, input. auto.
Defined.

(** ** Parsing the dims string *)

Lemma split_dash_nonempty (s : string) : split_dash s <> [].
Proof.
  destruct s as [| c s]; simpl; [discriminate |].
  destruct (Ascii.eqb c dash); [discriminate |].
  destruct (split_dash s); discriminate.
Qed.

Lemma split_dash_length (s : string) : length (split_dash s) = S (count_dashes s).
Proof.
  unfold count_dashes. induction s as [| c s IH]; [reflexivity |].
  cbn [split_dash list_ascii_of_string count_occ].
  destruct (Ascii.eqb_spec c dash) as [-> | Hne].
  - destruct (ascii_dec dash dash) as [_ | Hd]; [| congruence].
    cbn [length]. rewrite IH. reflexivity.
  - destruct (ascii_dec c dash) as [Heq | _]; [congruence |].
    rewrite <- IH. pose proof (split_dash_nonempty s) as Hn.
    destruct (split_dash s); [congruence | reflexivity].
Qed.

(** No piece of the split holds a dash. *)
Lemma split_dash_pieces (s p : string) :
  In p (split_dash s) -> ~ In dash (list_ascii_of_string p).
Proof.
  revert p. induction s as [| c s IH]; intros p Hin.
  - destruct Hin as [<- | []]. intros [].
  - cbn [split_dash] in Hin. destruct (Ascii.eqb_spec c dash) as [-> | Hne].
    + destruct Hin as [<- | Hin]; [intros [] | apply IH; exact Hin].
    + pose proof (split_dash_nonempty s) as Hn.
      destruct (split_dash s) as [| q qs]; [congruence |].
      destruct Hin as [<- | Hin].
      * cbn [list_ascii_of_string]. intros [Heq | Hq]; [congruence |].
        apply (IH q (or_introl eq_refl)). exact Hq.
      * apply IH. right. exact Hin.
Qed.

Lemma lstrip_chars (s : string) (c : ascii) :
  In c (list_ascii_of_string (lstrip s)) -> In c (list_ascii_of_string s).
Proof.
  induction s as [| a s IH]; [auto |].
  cbn [lstrip]. destruct (is_space a); [| auto].
  intros H. right. apply IH. exact H.
Qed.

Lemma digit_val_nonneg (c : ascii) (d : Z) : digit_val c = Some d -> (0 <= d)%Z.
Proof.
  unfold digit_val. destruct (_ && _); [| discriminate].
  intros H. injection H as <-. lia.
Qed.

Lemma scan_digits_nonneg (s : string) :
  forall (prev : bool) (acc : Z) (digits : nat) (value : Z) (count : nat)
         (tail : string),
    (0 <= acc)%Z ->
    scan_digits prev acc digits s = Some (value, count, tail) -> (0 <= value)%Z.
Proof.
  induction s as [| c s IH]; intros prev acc digits value count tail Hacc H;
    cbn [scan_digits] in H.
  - destruct prev; [discriminate H |]. injection H as <- _ _. exact Hacc.
  - destruct (digit_val c) as [d |] eqn:Hd.
    + apply digit_val_nonneg in Hd.
      apply (IH false (10 * acc + d)%Z (S digits) value count tail); [lia | exact H].
    + destruct (Ascii.eqb c underscore).
      * destruct prev; [discriminate H |].
        apply (IH true acc digits value count tail); assumption.
      * destruct prev; [discriminate H |]. injection H as <- _ _. exact Hacc.
Qed.

(** [int] of a string without a dash is not negative. *)
Lemma py_int_nonneg (s : string) (z : Z) :
  ~ In dash (list_ascii_of_string s) -> py_int s = Ok z -> (0 <= z)%Z.
Proof.
  intros Hdash H. unfold py_int in H.
  assert (Hbody : ~ In dash (list_ascii_of_string (lstrip s)))
    by (intros Hin; apply Hdash, lstrip_chars, Hin).
  assert (Hsign : fst (match lstrip s with
                       | String c r =>
                           if Ascii.eqb c plus_sign then (false, r)
                           else if Ascii.eqb c dash then (true, r)
                           else (false, lstrip s)
                       | EmptyString => (false, lstrip s)
                       end) = false).
  { destruct (lstrip s) as [| c r]; [reflexivity |].
    destruct (Ascii.eqb c plus_sign); [reflexivity |].
    destruct (Ascii.eqb_spec c dash) as [-> | _]; [| reflexivity].
    exfalso. apply Hbody. left. reflexivity. }
  rewrite Hsign in H.
  destruct (snd _) as [| c rest] eqn:Hrest; [discriminate H |].
  destruct (Ascii.eqb c underscore); [discriminate H |].
  destruct (scan_digits false 0 0 (String c rest)) as [[[value digits] tail] |] eqn:Hscan;
    [| discriminate H].
  destruct (int_max_str_digits <? digits); [discriminate H |].
  destruct (digits =? 0); [discriminate H |].
  destruct (lstrip tail); [| discriminate H].
  injection H as <-.
  apply (scan_digits_nonneg _ _ _ _ _ _ _ (Z.le_refl 0) Hscan).
Qed.

(** Whatever [int] raises is a [ValueError]. *)
Lemma py_int_raises (s : string) (ex : exn) :
  py_int s = Raise ex -> exists what, ex = ValueError what.
Proof.
  unfold py_int. intros H.
  destruct (snd _) as [| c rest]; [injection H as <-; eexists; reflexivity |].
  destruct (Ascii.eqb c underscore); [injection H as <-; eexists; reflexivity |].
  destruct (scan_digits false 0 0 (String c rest)) as [[[value digits] tail] |];
    [| injection H as <-; eexists; reflexivity].
  destruct (int_max_str_digits <? digits); [injection H as <-; eexists; reflexivity |].
  destruct (digits =? 0); [injection H as <-; eexists; reflexivity |].
  destruct (lstrip tail); [discriminate H | injection H as <-; eexists; reflexivity].
Qed.

Lemma map_result_ok {A B : Type} (f : A -> result B) (xs : list A) (ys : list B) :
  map_result f xs = Ok ys -> Forall2 (fun x y => f x = Ok y) xs ys.
Proof.
  revert ys. induction xs as [| x xs IH]; intros ys H; cbn [map_result] in H.
  - injection H as <-. constructor.
  - destruct (f x) as [y |] eqn:Hx; [| discriminate H]. cbn [bind] in H.
    destruct (map_result f xs) as [ys' |]; [| discriminate H]. cbn [bind] in H.
    injection H as <-. constructor; [exact Hx | apply IH; reflexivity].
Qed.

Lemma map_result_raises {A B : Type} (f : A -> result B) (xs : list A) (ex : exn) :
  map_result f xs = Raise ex -> exists x, In x xs /\ f x = Raise ex.
Proof.
  induction xs as [| x xs IH]; intros H; cbn [map_result] in H; [discriminate H |].
  destruct (f x) as [y |] eqn:Hx.
  - cbn [bind] in H. destruct (map_result f xs) as [ys |] eqn:Hxs.
    + discriminate H.
    + cbn [bind] in H. injection H as <-.
      destruct (IH eq_refl) as [x' [Hin Hx']]. exists x'. split; [right |]; assumption.
  - cbn [bind] in H. injection H as <-. exists x. split; [left; reflexivity | exact Hx].
Qed.

Lemma map_result_ok_all {A B : Type} (f : A -> result B) (xs : list A) (ys : list B)
    (x : A) :
  map_result f xs = Ok ys -> In x xs -> is_ok (f x) = true.
Proof.
  intros H Hin. apply map_result_ok in H. induction H as [| a b xs' ys' Hab _ IH].
  - destruct Hin.
  - destruct Hin as [<- | Hin]; [rewrite Hab; reflexivity | apply IH; exact Hin].
Qed.

(** X7.  [ODEHypernet.__init__] (and [ODEHypernet2D.__init__]): an unknown
    nonlinearity raises [KeyError] before the dims string is read.  For a
    dims string of ASCII characters: one with an empty piece (the empty
    string, a leading, trailing or doubled dash) raises [ValueError]; and
    when the construction returns, [dims] is [input_dim], one width for each
    of the dash-separated pieces, none of them negative, and [input_dim]
    again, so the network has at least two layers. *)
Theorem ODEHypernet_init_parses_widths :
  (forall dims_str input_dim nonlinearity flag,
     ~ In nonlinearity nonlinearity_keys ->
     ODEHypernet_init dims_str input_dim nonlinearity flag
       = Raise (KeyError nonlinearity)) /\
  (forall dims_str input_dim nonlinearity flag,
     ascii_only dims_str = true ->
     In nonlinearity nonlinearity_keys ->
     In EmptyString (split_dash dims_str) ->
     exists what,
       ODEHypernet_init dims_str input_dim nonlinearity flag
         = Raise (ValueError what)) /\
  (forall dims_str input_dim nonlinearity flag self,
     ascii_only dims_str = true ->
     ODEHypernet_init dims_str input_dim nonlinearity flag = Ok self ->
     exists hidden,
       dims self = [input_dim] ++ hidden ++ [input_dim] /\
       length hidden = S (count_dashes dims_str) /\
       Forall (fun width => (0 <= width)%Z) hidden /\
       2 <= length (dims self) - 1 /\
       NONLINEARITIES nonlinearity = Ok (activation self) /\
       use_bias self = flag).
Proof.
  split; [| split].
  - intros dims_str input_dim nonlinearity flag Hnl. unfold ODEHypernet_init.
    rewrite (proj2 (NONLINEARITIES_keys nonlinearity) Hnl). reflexivity.
  - intros dims_str input_dim nonlinearity flag _ Hnl Hempty.
    destruct (proj1 (NONLINEARITIES_keys nonlinearity) Hnl) as [act Hact].
    unfold ODEHypernet_init. rewrite Hact. cbn [bind].
    destruct (map_result py_int (split_dash dims_str)) as [hidden | ex] eqn:Hmap.
    + pose proof (map_result_ok_all _ _ _ _ Hmap Hempty) as Hok. discriminate Hok.
    + destruct (map_result_raises _ _ _ Hmap) as [piece [_ Hpiece]].
      apply py_int_raises in Hpiece. destruct Hpiece as [what ->].
      exists what. reflexivity.
  - intros dims_str input_dim nonlinearity flag self _ H. unfold ODEHypernet_init in H.
    destruct (NONLINEARITIES nonlinearity) as [act |] eqn:Hact; [| discriminate H].
    cbn [bind] in H.
    destruct (map_result py_int (split_dash dims_str)) as [hidden |] eqn:Hmap;
      [| discriminate H].
    cbn [bind] in H. injection H as <-. exists hidden. cbn [dims activation use_bias].
    pose proof (map_result_ok _ _ _ Hmap) as Hall.
    assert (Hlen : length hidden = S (count_dashes dims_str)).
    { rewrite <- split_dash_length. symmetry. apply (Forall2_length Hall). }
    split; [reflexivity |]. split; [exact Hlen |]. split.
    + pose proof (split_dash_pieces dims_str) as Hpieces. clear Hlen Hmap.
      induction Hall as [| piece width pieces widths Hpw _ IH]; constructor.
      * apply (py_int_nonneg piece); [apply Hpieces; left; reflexivity | exact Hpw].
      * apply IH. intros p Hp. apply Hpieces. right. exact Hp.
    + split; [| auto]. cbn [app length]. rewrite length_app. simpl. lia.
Qed.

(** X7 at the dims strings ["32--16"], whose second piece is empty, and
    ["32-16"], which gives the widths 2, 32, 16, 2. *)
Lemma ODEHypernet_init_parses_widths_witness :
  (exists what, ODEHypernet_init "32--16" 2%Z "relu" true = Raise (ValueError what)) /\
  (exists self hidden,
     ODEHypernet_init "32-16" 2%Z "relu" true = Ok self /\
     dims self = [2%Z] ++ hidden ++ [2%Z] /\
     length hidden = 2 /\
     dims self = [2; 32; 16; 2]%Z).
Proof.
  split.
  - apply (proj1 (proj2 ODEHypernet_init_parses_widths) "32--16"%string 2%Z
             "relu"%string true).
    + reflexivity.
    + right. left. reflexivity.
    + right. left. reflexivity.
  - destruct (is_ok_inv (ODEHypernet_init "32-16" 2%Z "relu" true)) as [self E];
      [reflexivity |].
    destruct (proj2 (proj2 ODEHypernet_init_parses_widths) "32-16"%string 2%Z
                "relu"%string true self eq_refl E) as [hidden [Hdims [Hlen _]]].
    exists self, hidden. split; [exact E |]. split; [exact Hdims |].
    split; [exact Hlen |].
    assert (Hself : Ok self = Ok (mkODEHypernet ReLU true [2; 32; 16; 2]%Z))
      by (rewrite <- E; reflexivity).
    injection Hself as ->. reflexivity.
Defined.

(** ** Sizes along a forward pass of the hypernetwork *)

Section HypernetSizes.

Context {R : Type} {SR : Scalar R}.

Lemma slice_cols_shape (w t : Tensor R) (B W : nat) (a b : Z) :
  shape w = [B; W] -> slice_cols w a b = Ok t ->
  shape t = [B; slice_bound W b - slice_bound W a].
Proof.
  intros Hw H. unfold slice_cols in H. rewrite Hw in H. injection H as <-. reflexivity.
Qed.

Lemma filter_nonneg (ds : list Z) :
  Forall (fun d => (0 <= d)%Z) ds ->
  existsb (fun d => (d <? -1)%Z) ds = false /\
  filter (fun d => (d =? -1)%Z) ds = [] /\
  filter (fun d => negb (d =? -1)%Z) ds = ds.
Proof.
  induction 1 as [| d ds Hd _ [IH1 [IH2 IH3]]]; [auto |].
  cbn [existsb filter]. rewrite IH1, IH2, IH3.
  replace (d <? -1)%Z with false by lia. replace (d =? -1)%Z with false by lia.
  auto.
Qed.

Lemma view_nonneg (ds : list Z) (t v : Tensor R) :
  Forall (fun d => (0 <= d)%Z) ds -> view ds t = Ok v ->
  shape v = map Z.to_nat ds /\ numel (map Z.to_nat ds) = numel (shape t).
Proof.
  intros Hds H. unfold view in H. bind_inv H. injection H as <-. cbn [shape].
  unfold view_shape in E. destruct (filter_nonneg ds Hds) as [H1 [H2 H3]].
  rewrite H1, H2, H3 in E. cbn [length] in E. fold (numel (map Z.to_nat ds)) in E.
  destruct (Nat.eqb_spec (numel (map Z.to_nat ds)) (numel (shape t))) as [Heq | _];
    [| discriminate E].
  injection E as <-. auto.
Qed.

Lemma bmm_shape (a b c : Tensor R) :
  bmm a b = Ok c ->
  exists ba n m p, shape a = [ba; n; m] /\ shape b = [ba; m; p] /\ shape c = [ba; n; p].
Proof.
  unfold bmm. intros H.
  destruct (shape a) as [| ba [| n [| m [| ? ?]]]]; try discriminate H.
  destruct (shape b) as [| bb [| m' [| p [| ? ?]]]]; try discriminate H.
  destruct (Nat.eqb_spec ba bb) as [<- |]; [| discriminate H].
  destruct (Nat.eqb_spec m m') as [<- |]; [| discriminate H].
  cbn [andb negb] in H. destruct (Dtype_eqb (dtype a) (dtype b)); [| discriminate H].
  cbn [negb] in H. injection H as <-. exists ba, n, m, p. auto.
Qed.

Lemma add__shape (a b c : Tensor R) : add_ a b = Ok c -> shape c = shape a.
Proof.
  unfold add_. intros H. destruct (broadcast_shapes (shape a) (shape b)); [| discriminate H].
  destruct (list_nat_eqb l (shape a)); [| discriminate H]. injection H as <-. reflexivity.
Qed.

Lemma binop_shape (f : R -> R -> R) (a b c : Tensor R) :
  binop f a b = Ok c -> broadcast_shapes (shape a) (shape b) = Some (shape c).
Proof.
  unfold binop. intros H. destruct (broadcast_shapes (shape a) (shape b)); [| discriminate H].
  injection H as <-. reflexivity.
Qed.

Lemma unsqueeze_shape (k : nat) (t u : Tensor R) :
  unsqueeze k t = Ok u -> shape u = firstn k (shape t) ++ 1 :: skipn k (shape t).
Proof.
  unfold unsqueeze. intros H. destruct (k <=? length (shape t)); [| discriminate H].
  injection H as <-. reflexivity.
Qed.

Lemma broadcast_row (B n p : nat) : broadcast_shapes [B; 1; p] [B; n; p] = Some [B; n; p].
Proof.
  unfold broadcast_shapes. cbn [rev app broadcast_rev]. rewrite !Nat.eqb_refl.
  destruct (1 =? n) eqn:Hn; [apply Nat.eqb_eq in Hn; subst n |]; reflexivity.
Qed.

(** A layer that returns found its five segments inside the weight vector. *)
Lemma ODEHypernet_layer_in_range (self : ODEHypernet) (context w : Tensor R)
    (B W l : nat) (s s' : Locals R) :
  shape w = [B; W] -> 0 < B ->
  (0 <= cursor s)%Z -> (0 < nth l (dims self) 0)%Z -> (0 < nth (S l) (dims self) 0)%Z ->
  ODEHypernet_layer self context w B l s = Ok s' ->
  (cursor s <= cursor s' <= Z.of_nat W)%Z.
Proof.
  intros Hw HB Hc H0 H1 H. unfold ODEHypernet_layer in H. binds_inv H.
  injection H as <-. cbn [cursor].
  match goal with
  | Hs : slice_cols w ?a ?b = Ok ?t, Hv : view _ ?t = Ok ?u, Hb : bmm _ ?u = Ok _,
    Ha : add_ _ _ = Ok _ |- (_ <= ?b' <= _)%Z =>
      constr_eq b b';
      pose proof (slice_cols_shape _ _ _ _ _ _ Hw Hs) as Hshape;
      apply view_nonneg in Hv; [| repeat constructor; lia];
      destruct Hv as [_ Hnum]; rewrite Hshape in Hnum
  end.
  cbn [map numel fold_right] in Hnum. rewrite !Nat.mul_1_r, ?Nat.mul_1_l, Nat2Z.id in Hnum.
  apply Nat.mul_cancel_l in Hnum; [| lia]. unfold slice_bound in Hnum.
  set (d1 := nth (S l) (dims self) 0%Z) in *.
  assert (Hpos : (0 <= nth l (dims self) 0 * d1)%Z) by nia.
  set (P := (nth l (dims self) 0 * d1)%Z) in *.
  repeat match type of Hnum with
         | context [(?z <? 0)%Z] => replace (z <? 0)%Z with false in Hnum by lia
         end.
  lia.
Qed.

Lemma slice_bound_in_range (W : nat) (z : Z) :
  (0 <= z <= Z.of_nat W)%Z -> slice_bound W z = Z.to_nat z.
Proof.
  intros Hz. unfold slice_bound. replace (z <? 0)%Z with false by lia. lia.
Qed.

Ltac shape_facts Hw :=
  repeat match goal with
         | H : slice_cols _ _ _ = Ok _ |- _ => apply (slice_cols_shape _ _ _ _ _ _ Hw) in H
         | H : view _ _ = Ok _ |- _ =>
             apply view_nonneg in H; [destruct H as [H _] | repeat constructor; lia]
         | H : bmm _ _ = Ok _ |- _ =>
             apply bmm_shape in H; destruct H as (? & ? & ? & ? & ? & ? & ?)
         | H : add_ _ _ = Ok _ |- _ => apply add__shape in H
         | H : add _ _ = Ok _ |- _ => apply binop_shape in H
         | H : mul _ _ = Ok _ |- _ => apply binop_shape in H
         | H : unsqueeze _ _ = Ok _ |- _ => apply unsqueeze_shape in H
         end.

Lemma ODEHypernet_layer_shape (self : ODEHypernet) (context w : Tensor R)
    (B W bc l : nat) (s s' : Locals R) :
  shape w = [B; W] -> shape context = [bc; 1] -> 0 < B ->
  (0 <= cursor s)%Z -> (0 < nth l (dims self) 0)%Z -> (0 < nth (S l) (dims self) 0)%Z ->
  ODEHypernet_layer self context w B l s = Ok s' ->
  exists n, shape (dx s) = [B; n; Z.to_nat (nth l (dims self) 0%Z)] /\
            shape (dx s') = [B; n; Z.to_nat (nth (S l) (dims self) 0%Z)].
Proof.
  intros Hw Hctx HB Hc H0 H1 H.
  pose proof (ODEHypernet_layer_in_range _ _ _ _ _ _ _ _ Hw HB Hc H0 H1 H) as [_ Hrange].
  unfold ODEHypernet_layer in H. binds_inv H. injection H as <-. cbn [cursor dx] in *.
  set (d0 := nth l (dims self) 0%Z) in *. set (d1 := nth (S l) (dims self) 0%Z) in *.
  assert (Hpos : (0 < d0 * d1)%Z) by nia.
  set (P := (d0 * d1)%Z) in *.
  shape_facts Hw.
  rewrite !slice_bound_in_range in * by lia.
  repeat match goal with
         | H : shape _ = [B; ?a - ?b] |- _ =>
             replace (a - b) with (Z.to_nat d1) in H by lia
         end.
  rewrite E0 in H8. cbn [map] in H8. rewrite Nat2Z.id in H8. injection H8 as <- <- <-.
  rewrite Hctx in E9. cbn [firstn skipn app] in E9. rewrite E9 in H4.
  injection H4 as <- <- <-.
  rewrite E6 in H5. cbn [map] in H5. rewrite Nat2Z.id in H5. injection H5 as <- <-.
  rewrite E7 in E8. cbn [firstn skipn app] in E8.
  rewrite H6, E8, broadcast_shapes_refl in E11. injection E11 as E11.
  change (shape (sigmoid v11)) with (shape v11) in E12.
  rewrite <- E11, E4, H9, broadcast_row in E12. injection E12 as E12.
  exists x8. split; [exact H7 |].
  destruct (l <? length (dims self) - 2);
    [change (shape (apply_nonlinearity (activation self) v17)) with (shape v17) |];
    rewrite E17, <- E12; reflexivity.
Qed.

Lemma cat_shape (k : nat) (a b c : Tensor R) :
  cat k a b = Ok c ->
  exists da db,
    nth_error (shape a) k = Some da /\ nth_error (shape b) k = Some db /\
    firstn k (shape a) ++ skipn (S k) (shape a)
      = firstn k (shape b) ++ skipn (S k) (shape b) /\
    shape c = firstn k (shape a) ++ (da + db) :: skipn (S k) (shape a).
Proof.
  unfold cat. intros H.
  destruct (nth_error (shape a) k) as [da |]; [| discriminate H].
  destruct (nth_error (shape b) k) as [db |]; [| discriminate H].
  destruct (list_nat_eqb _ _) eqn:Heq; [| discriminate H].
  apply list_nat_eqb_eq in Heq. injection H as <-. exists da, db. auto.
Qed.

Lemma ODEHypernet2D_layer_in_range (self : ODEHypernet) (context y_points w : Tensor R)
    (B W l : nat) (s s' : Locals R) :
  shape w = [B; W] -> 0 < B ->
  (0 <= cursor s)%Z -> (0 < nth l (dims self) 0)%Z -> (0 < nth (S l) (dims self) 0)%Z ->
  ODEHypernet2D_layer self context y_points w B l s = Ok s' ->
  (cursor s <= cursor s' <= Z.of_nat W)%Z.
Proof.
  intros Hw HB Hc H0 H1 H. unfold ODEHypernet2D_layer in H. binds_inv H.
  injection H as <-. cbn [cursor].
  match goal with
  | Hs : slice_cols w ?a ?b = Ok ?t, Hv : view _ ?t = Ok ?u, Hb : bmm _ ?u = Ok _,
    Ha : add_ _ _ = Ok _ |- (_ <= ?b' <= _)%Z =>
      constr_eq b b';
      pose proof (slice_cols_shape _ _ _ _ _ _ Hw Hs) as Hshape;
      apply view_nonneg in Hv; [| repeat constructor; lia];
      destruct Hv as [_ Hnum]; rewrite Hshape in Hnum
  end.
  cbn [map numel fold_right] in Hnum. rewrite !Nat.mul_1_r, ?Nat.mul_1_l, Nat2Z.id in Hnum.
  apply Nat.mul_cancel_l in Hnum; [| lia]. unfold slice_bound in Hnum.
  set (d1 := nth (S l) (dims self) 0%Z) in *.
  assert (Hpos : (0 <= (nth l (dims self) 0 + 2) * d1)%Z) by nia.
  set (P := ((nth l (dims self) 0 + 2) * d1)%Z) in *.
  repeat match type of Hnum with
         | context [(?z <? 0)%Z] => replace (z <? 0)%Z with false in Hnum by lia
         end.
  lia.
Qed.

Lemma ODEHypernet2D_layer_shape (self : ODEHypernet) (context y_points w : Tensor R)
    (B W bc bp np l : nat) (s s' : Locals R) :
  shape w = [B; W] -> shape context = [bc; 1] -> shape y_points = [bp; np; 2] ->
  0 < B ->
  (0 <= cursor s)%Z -> (0 < nth l (dims self) 0)%Z -> (0 < nth (S l) (dims self) 0)%Z ->
  ODEHypernet2D_layer self context y_points w B l s = Ok s' ->
  exists n, shape (dx s) = [B; n; Z.to_nat (nth l (dims self) 0%Z)] /\
            shape (dx s') = [B; n; Z.to_nat (nth (S l) (dims self) 0%Z)].
Proof.
  intros Hw Hctx Hyp HB Hc H0 H1 H.
  pose proof (ODEHypernet2D_layer_in_range _ _ _ _ _ _ _ _ _ Hw HB Hc H0 H1 H)
    as [_ Hrange].
  unfold ODEHypernet2D_layer in H. binds_inv H. injection H as <-. cbn [cursor dx] in *.
  set (d0 := nth l (dims self) 0%Z) in *. set (d1 := nth (S l) (dims self) 0%Z) in *.
  assert (Hpos : (0 < (d0 + 2) * d1)%Z) by nia.
  set (P := ((d0 + 2) * d1)%Z) in *.
  match goal with
  | H : cat 2 _ _ = Ok _ |- _ =>
      apply cat_shape in H; destruct H as (da & db & Hda & Hdb & Hrest & Hcat)
  end.
  shape_facts Hw.
  rewrite !slice_bound_in_range in * by lia.
  repeat match goal with
         | H : shape _ = [B; ?a - ?b] |- _ =>
             replace (a - b) with (Z.to_nat d1) in H by lia
         end.
  rewrite E0 in H8. cbn [map] in H8. rewrite Nat2Z.id in H8. injection H8 as <- <- <-.
  rewrite Hyp in Hdb. injection Hdb as <-.
  rewrite Hcat in H7. clear Hcat Hrest.
  destruct (shape (dx s)) as [| a [| b [| c [| ? ?]]]]; try discriminate Hda;
    try discriminate H7.
  injection Hda as <-. cbn [firstn skipn app] in H7. injection H7 as -> <- Hc2.
  assert (Hc0 : c = Z.to_nat d0) by lia. subst c. clear Hc2.
  rewrite Hctx in E10. cbn [firstn skipn app] in E10. rewrite E10 in H4.
  injection H4 as <- <- <-.
  rewrite E7 in H5. cbn [map] in H5. rewrite Nat2Z.id in H5. injection H5 as <- <-.
  rewrite E8 in E9. cbn [firstn skipn app] in E9.
  rewrite H6, E9, broadcast_shapes_refl in E12. injection E12 as E12.
  change (shape (sigmoid v12)) with (shape v12) in E13.
  rewrite <- E12, E5, H9, broadcast_row in E13. injection E13 as E13.
  exists b. split; [reflexivity |].
  destruct (l <? length (dims self) - 2);
    [change (shape (apply_nonlinearity (activation self) v18)) with (shape v18) |];
    rewrite E18, <- E13; reflexivity.
Qed.

End HypernetSizes.

Section LayerLoop.

Context {R : Type} {SR : Scalar R}.

Variable body : nat -> Locals R -> result (Locals R).
Variable ds : list Z.
Variables B W : nat.

Hypothesis body_in_range : forall l s s',
  S l < length ds -> (0 <= cursor s)%Z -> body l s = Ok s' ->
  (cursor s <= cursor s' <= Z.of_nat W)%Z.

Hypothesis body_shape : forall l s s',
  S l < length ds -> (0 <= cursor s)%Z -> body l s = Ok s' ->
  exists n, shape (dx s) = [B; n; Z.to_nat (nth l ds 0%Z)] /\
            shape (dx s') = [B; n; Z.to_nat (nth (S l) ds 0%Z)].

Lemma for_each_in_range (n : nat) :
  forall a s s',
    a + n < length ds \/ n = 0 -> (0 <= cursor s <= Z.of_nat W)%Z ->
    for_each body (seq a n) s = Ok s' ->
    (cursor s <= cursor s' <= Z.of_nat W)%Z.
Proof.
  induction n as [| n IH]; intros a s s' Hlen Hc H; cbn [seq for_each] in H.
  - injection H as <-. lia.
  - bind_inv H.
    assert (Hstep : (cursor s <= cursor v <= Z.of_nat W)%Z)
      by (apply (body_in_range a); [lia | lia | exact E]).
    assert (Hrest : (cursor v <= cursor s' <= Z.of_nat W)%Z)
      by (apply (IH (S a) v s'); [lia | lia | exact H]).
    lia.
Qed.

Lemma for_each_shape (n : nat) :
  forall a s s',
    a + S n < length ds -> (0 <= cursor s <= Z.of_nat W)%Z ->
    for_each body (seq a (S n)) s = Ok s' ->
    exists N, shape (dx s) = [B; N; Z.to_nat (nth a ds 0%Z)] /\
              shape (dx s') = [B; N; Z.to_nat (nth (a + S n) ds 0%Z)].
Proof.
  induction n as [| n IH]; intros a s s' Hlen Hc H.
  - cbn [seq for_each] in H. bind_inv H. injection H as <-.
    replace (a + 1) with (S a) by lia.
    apply (body_shape a); [lia | lia | exact E].
  - change (seq a (S (S n))) with (a :: seq (S a) (S n)) in H. cbn [for_each] in H.
    bind_inv H.
    assert (Hstep : (cursor s <= cursor v <= Z.of_nat W)%Z)
      by (apply (body_in_range a); [lia | lia | exact E]).
    destruct (body_shape a s v) as [N [Hs Hv]]; [lia | lia | exact E |].
    destruct (IH (S a) v s') as [N' [Hv' Hs']]; [lia | lia | exact H |].
    rewrite Hv in Hv'. injection Hv' as <-.
    exists N. split; [exact Hs |].
    replace (a + S (S n)) with (S a + S n) by lia. exact Hs'.
Qed.

End LayerLoop.

Lemma positive_widths (ds : list Z) (l : nat) :
  Forall (fun d => (0 < d)%Z) ds -> l < length ds -> (0 < nth l ds 0)%Z.
Proof.
  intros Hds Hl. exact (proj1 (Forall_nth _ ds) Hds l 0%Z Hl).
Qed.

Section HypernetPasses.

Context {R : Type} {SR : Scalar R}.

Lemma ODEHypernet_forward_in_range (self : ODEHypernet) (context y w out : Tensor R)
    (B W : nat) :
  shape w = [B; W] -> 0 < B ->
  Forall (fun d => (0 < d)%Z) (dims self) ->
  ODEHypernet_forward self context y w = Ok out ->
  (layout_width 0 (dims self) <= Z.of_nat W)%Z.
Proof.
  intros Hw HB Hdims H. unfold ODEHypernet_forward in H. bind_inv H. clear H.
  destruct (ODEHypernet_run_layout _ _ _ _ _ E) as [<- _].
  unfold ODEHypernet_run in E. bind_inv E.
  unfold size0 in E0. rewrite Hw in E0. injection E0 as <-.
  apply (for_each_in_range _ (dims self) W) in E.
  - exact (proj2 E).
  - intros l s s' Hl Hc Hs.
    apply (ODEHypernet_layer_in_range self context w B W l s s' Hw HB Hc);
      [apply positive_widths; [exact Hdims | lia]
      | apply positive_widths; [exact Hdims | lia] | exact Hs].
  - destruct (length (dims self)); [right; reflexivity | left; lia].
  - cbn [cursor]. lia.
Qed.

Lemma ODEHypernet2D_forward_in_range (self : ODEHypernet)
    (context y y_points w out : Tensor R) (B W : nat) :
  shape w = [B; W] -> 0 < B ->
  Forall (fun d => (0 < d)%Z) (dims self) ->
  ODEHypernet2D_forward self context y y_points w = Ok out ->
  (layout_width 2 (dims self) <= Z.of_nat W)%Z.
Proof.
  intros Hw HB Hdims H. unfold ODEHypernet2D_forward in H. bind_inv H. clear H.
  destruct (ODEHypernet2D_run_layout _ _ _ _ _ _ E) as [<- _].
  unfold ODEHypernet2D_run in E. bind_inv E.
  unfold size0 in E0. rewrite Hw in E0. injection E0 as <-.
  apply (for_each_in_range _ (dims self) W) in E.
  - exact (proj2 E).
  - intros l s s' Hl Hc Hs.
    apply (ODEHypernet2D_layer_in_range self context y_points w B W l s s' Hw HB Hc);
      [apply positive_widths; [exact Hdims | lia]
      | apply positive_widths; [exact Hdims | lia] | exact Hs].
  - destruct (length (dims self)); [right; reflexivity | left; lia].
  - cbn [cursor]. lia.
Qed.

(** X8.  A forward pass of [ODEHypernet] or [ODEHypernet2D] never reads
    short: when the weight vector has [B > 0] rows of [W] entries and every
    width of [dims] is positive, a pass that returns had the whole layout
    inside the weight vector, so a weight vector shorter than the layout
    makes [forward] raise. *)
Theorem forward_needs_the_whole_layout (self : ODEHypernet)
    (context y y_points w : Tensor R) (B W : nat)
    (Hw : shape w = [B; W]) (HB : 0 < B)
    (Hdims : Forall (fun d => (0 < d)%Z) (dims self)) :
  (forall out, ODEHypernet_forward self context y w = Ok out ->
     (layout_width 0 (dims self) <= Z.of_nat W)%Z) /\
  (forall out, ODEHypernet2D_forward self context y y_points w = Ok out ->
     (layout_width 2 (dims self) <= Z.of_nat W)%Z) /\
  ((Z.of_nat W < layout_width 0 (dims self))%Z ->
   is_ok (ODEHypernet_forward self context y w) = false) /\
  ((Z.of_nat W < layout_width 2 (dims self))%Z ->
   is_ok (ODEHypernet2D_forward self context y y_points w) = false).
Proof.
  split; [| split; [| split]].
  - intros out H. exact (ODEHypernet_forward_in_range _ _ _ _ _ _ _ Hw HB Hdims H).
  - intros out H. exact (ODEHypernet2D_forward_in_range _ _ _ _ _ _ _ _ Hw HB Hdims H).
  - intros Hlt.
    destruct (ODEHypernet_forward self context y w) as [out |] eqn:E; [| reflexivity].
    pose proof (ODEHypernet_forward_in_range _ _ _ _ _ _ _ Hw HB Hdims E). lia.
  - intros Hlt.
    destruct (ODEHypernet2D_forward self context y y_points w) as [out |] eqn:E;
      [| reflexivity].
    pose proof (ODEHypernet2D_forward_in_range _ _ _ _ _ _ _ _ Hw HB Hdims E). lia.
Qed.

Lemma init_dims_ends (dims_str nonlinearity : string) (input_dim : Z) (flag : bool)
    (self : ODEHypernet) :
  ODEHypernet_init dims_str input_dim nonlinearity flag = Ok self ->
  exists n, length (dims self) - 1 = S n /\
            nth 0 (dims self) 0%Z = input_dim /\
            nth (0 + S n) (dims self) 0%Z = input_dim.
Proof.
  intros H. destruct (ODEHypernet_init_dims _ _ _ _ _ H) as [hidden [_ [Hd _]]].
  exists (length hidden). rewrite Hd. cbn [app length nth]. rewrite length_app.
  cbn [length]. split; [lia |]. split; [reflexivity |].
  cbn [Nat.add nth]. apply nth_middle.
Qed.

Lemma ODEHypernet_forward_size (dims_str nonlinearity : string) (input_dim : Z)
    (flag : bool) (self : ODEHypernet) (context y w out : Tensor R) (B W bc : nat) :
  ODEHypernet_init dims_str input_dim nonlinearity flag = Ok self ->
  Forall (fun d => (0 < d)%Z) (dims self) ->
  shape w = [B; W] -> 0 < B -> shape context = [bc; 1] ->
  ODEHypernet_forward self context y w = Ok out ->
  shape out = shape y /\ exists N, shape y = [B; N; Z.to_nat input_dim].
Proof.
  intros Hinit Hdims Hw HB Hctx H.
  destruct (init_dims_ends _ _ _ _ _ Hinit) as [n [Hn [Hfirst Hlast]]].
  unfold ODEHypernet_forward in H. bind_inv H. injection H as <-.
  unfold ODEHypernet_run in E. bind_inv E.
  unfold size0 in E0. rewrite Hw in E0. injection E0 as <-.
  rewrite Hn in E.
  apply (for_each_shape _ (dims self) B W) in E.
  - destruct E as [N [Hy Hout]]. cbn [dx] in Hy. rewrite Hfirst in Hy.
    rewrite Hlast in Hout. split; [congruence | exists N; exact Hy].
  - intros l s s' Hl Hc Hs.
    apply (ODEHypernet_layer_in_range self context w B W l s s' Hw HB Hc);
      [apply positive_widths; [exact Hdims | lia]
      | apply positive_widths; [exact Hdims | lia] | exact Hs].
  - intros l s s' Hl Hc Hs.
    apply (ODEHypernet_layer_shape self context w B W bc l s s' Hw Hctx HB Hc);
      [apply positive_widths; [exact Hdims | lia]
      | apply positive_widths; [exact Hdims | lia] | exact Hs].
  - lia.
  - cbn [cursor]. lia.
Qed.

Lemma ODEHypernet2D_forward_size (dims_str nonlinearity : string) (input_dim : Z)
    (flag : bool) (self : ODEHypernet) (context y y_points w out : Tensor R)
    (B W bc bp np : nat) :
  ODEHypernet_init dims_str input_dim nonlinearity flag = Ok self ->
  Forall (fun d => (0 < d)%Z) (dims self) ->
  shape w = [B; W] -> 0 < B -> shape context = [bc; 1] ->
  shape y_points = [bp; np; 2] ->
  ODEHypernet2D_forward self context y y_points w = Ok out ->
  shape out = shape y /\ exists N, shape y = [B; N; Z.to_nat input_dim].
Proof.
  intros Hinit Hdims Hw HB Hctx Hyp H.
  destruct (init_dims_ends _ _ _ _ _ Hinit) as [n [Hn [Hfirst Hlast]]].
  unfold ODEHypernet2D_forward in H. bind_inv H. injection H as <-.
  unfold ODEHypernet2D_run in E. bind_inv E.
  unfold size0 in E0. rewrite Hw in E0. injection E0 as <-.
  rewrite Hn in E.
  apply (for_each_shape _ (dims self) B W) in E.
  - destruct E as [N [Hy Hout]]. cbn [dx] in Hy. rewrite Hfirst in Hy.
    rewrite Hlast in Hout. split; [congruence | exists N; exact Hy].
  - intros l s s' Hl Hc Hs.
    apply (ODEHypernet2D_layer_in_range self context y_points w B W l s s' Hw HB Hc);
      [apply positive_widths; [exact Hdims | lia]
      | apply positive_widths; [exact Hdims | lia] | exact Hs].
  - intros l s s' Hl Hc Hs.
    apply (ODEHypernet2D_layer_shape self context y_points w B W bc bp np l s s'
             Hw Hctx Hyp HB Hc);
      [apply positive_widths; [exact Hdims | lia]
      | apply positive_widths; [exact Hdims | lia] | exact Hs].
  - lia.
  - cbn [cursor]. lia.
Qed.

(** X9.  The drift of a module built by [__init__] has the size of the
    state: with positive widths, a weight vector of [B > 0] rows, a context
    of one column (the time, as the state functions pass it) and, for
    [ODEHypernet2D], point coordinates of width 2, a pass that returns was
    given a state of size [(B, N, input_dim)] and returns a tensor of that
    size. *)
Theorem drift_has_the_size_of_the_state (dims_str nonlinearity : string)
    (input_dim : Z) (flag : bool) (self : ODEHypernet)
    (context y y_points w : Tensor R) (B W bc : nat)
    (Hinit : ODEHypernet_init dims_str input_dim nonlinearity flag = Ok self)
    (Hdims : Forall (fun d => (0 < d)%Z) (dims self))
    (Hw : shape w = [B; W]) (HB : 0 < B) (Hctx : shape context = [bc; 1]) :
  (forall out, ODEHypernet_forward self context y w = Ok out ->
     shape out = shape y /\
     exists N, shape y = [B; N; Z.to_nat input_dim]) /\
  (forall out bp np, shape y_points = [bp; np; 2] ->
     ODEHypernet2D_forward self context y y_points w = Ok out ->
     shape out = shape y /\
     exists N, shape y = [B; N; Z.to_nat input_dim]).
Proof.
  split.
  - intros out H.
    exact (ODEHypernet_forward_size _ _ _ _ _ _ _ _ _ _ _ _ Hinit Hdims Hw HB Hctx H).
  - intros out bp np Hyp H.
    exact (ODEHypernet2D_forward_size _ _ _ _ _ _ _ _ _ _ _ _ _ _ _ Hinit Hdims Hw HB
             Hctx Hyp H).
Qed.

End HypernetPasses.

Lemma forward_needs_the_whole_layout_witness :
  (layout_width 0 (dims ex_hypernet) <= 16)%Z /\
  (layout_width 2 (dims ex_hypernet) <= 22)%Z /\
  is_ok (ODEHypernet_forward ex_hypernet ex_context ex_points
           (tensor2 1 15 true [[1; 2; 3; 4; 1; 1; 0; 0; 5; 6; 1; 1; 7; 1; 0]%Z]))
    = false.
Proof.
  assert (Hpos : Forall (fun d => (0 < d)%Z) (dims ex_hypernet))
    by (repeat constructor).
  split; [| split].
  - destruct (is_ok_inv (ODEHypernet_forward ex_hypernet ex_context ex_points ex_weights))
      as [out E]; [vm_compute; reflexivity |].
    exact (proj1 (forward_needs_the_whole_layout ex_hypernet ex_context ex_points
                    ex_y_points ex_weights 1 16 eq_refl (Nat.lt_0_succ 0) Hpos) out E).
  - destruct (is_ok_inv (ODEHypernet2D_forward ex_hypernet ex_context ex_points
                           ex_y_points ex_weights2D))
      as [out E]; [vm_compute; reflexivity |].
    exact (proj1 (proj2 (forward_needs_the_whole_layout ex_hypernet ex_context ex_points
                           ex_y_points ex_weights2D 1 22 eq_refl (Nat.lt_0_succ 0) Hpos))
             out E).
  - apply (forward_needs_the_whole_layout ex_hypernet ex_context ex_points ex_y_points
             (tensor2 1 15 true [[1; 2; 3; 4; 1; 1; 0; 0; 5; 6; 1; 1; 7; 1; 0]%Z])
             1 15 eq_refl (Nat.lt_0_succ 0) Hpos).
    vm_compute. reflexivity.
Defined.

Lemma drift_has_the_size_of_the_state_witness :
  (exists out, ODEHypernet_forward ex_hypernet ex_context ex_points ex_weights = Ok out /\
               shape out = [1; 2; 1]) /\
  (exists out, ODEHypernet2D_forward ex_hypernet ex_context ex_points ex_y_points
                 ex_weights2D = Ok out /\
               shape out = [1; 2; 1]).
Proof.
  assert (Hinit : ODEHypernet_init "2" 1 "relu" true = Ok ex_hypernet) by reflexivity.
  assert (Hpos : Forall (fun d => (0 < d)%Z) (dims ex_hypernet))
    by (repeat constructor).
  split.
  - destruct (is_ok_inv (ODEHypernet_forward ex_hypernet ex_context ex_points ex_weights))
      as [out E]; [vm_compute; reflexivity |].
    exists out. split; [exact E |].
    exact (proj1 (proj1 (drift_has_the_size_of_the_state "2" "relu" 1 true ex_hypernet
                           ex_context ex_points ex_y_points ex_weights 1 16 1 Hinit Hpos
                           eq_refl (Nat.lt_0_succ 0) eq_refl) out E)).
  - destruct (is_ok_inv (ODEHypernet2D_forward ex_hypernet ex_context ex_points
                           ex_y_points ex_weights2D))
      as [out E]; [vm_compute; reflexivity |].
    exists out. split; [exact E |].
    exact (proj1 (proj2 (drift_has_the_size_of_the_state "2" "relu" 1 true ex_hypernet
                           ex_context ex_points ex_y_points ex_weights2D 1 22 1 Hinit Hpos
                           eq_refl (Nat.lt_0_succ 0) eq_refl) out 1 2 eq_refl E)).
Defined.

(** ** How many derivatives a state function returns *)

Lemma getitem_length {A : Type} (xs : list A) (n : nat) (a : A) :
  getitem xs n = Ok a -> n < length xs.
Proof.
  unfold getitem. destruct (nth_error xs n) eqn:E; [| discriminate].
  intros _. apply nth_error_Some. rewrite E. discriminate.
Qed.

Section DerivativeTuples.

Context {R : Type} {SR : Scalar R}.

(** X10.  The number of derivatives a call that returns gives back:
    [ODEfunc.forward] returns only on 2 or 3 channels and gives one
    derivative for each; [ODEhyperfunc.forward] returns on 3 channels or
    more and gives 3 derivatives, and [ODEhyperfunc2D.forward] on 4 or more
    and gives 4, whatever the number of channels was. *)
Theorem forward_derivative_counts :
  (forall (self self' : ODEfunc.t) time states sample out,
     ODEfunc.forward time states sample self = (self', Ok out) ->
     (length states = 2 \/ length states = 3) /\ length out = length states) /\
  (forall autograd_grad (self self' : ODEhyperfunc.t) time states sample out,
     ODEhyperfunc.forward autograd_grad time states sample self = (self', Ok out) ->
     3 <= length states /\ length out = 3) /\
  (forall (self self' : ODEhyperfunc2D.t) time states sample out,
     ODEhyperfunc2D.forward time states sample self = (self', Ok out) ->
     4 <= length states /\ length out = 4).
Proof.
  split; [| split].
  - intros self self' time states sample out H.
    destruct (ODEfunc_forward_ok_inv H) as [y0 [batch [fixed [Hy [Hb He]]]]].
    rewrite (ODEfunc_forward_armed self time sample Hy Hb He) in H.
    cbv zeta in H. injection H as _ H.
    destruct (length states) as [| [| [| [| n]]]]; try discriminate H.
    + binds_inv H. injection H as <-. split; [left |]; reflexivity.
    + binds_inv H. injection H as <-. split; [right |]; reflexivity.
  - intros ag self self' time states sample out H.
    destruct (ODEhyperfunc_forward_ok_inv H) as [y0 [batch [fixed [Hy [Hb He]]]]].
    rewrite (ODEhyperfunc_forward_armed ag self time sample Hy Hb He) in H.
    cbv zeta in H. injection H as _ H. binds_inv H. injection H as <-.
    apply getitem_length in E. rewrite length_map in E. split; [lia | reflexivity].
  - intros self self' time states sample out H.
    destruct (ODEhyperfunc2D_forward_ok_inv H) as [y0 [batch [fixed [Hy [Hb He]]]]].
    rewrite (ODEhyperfunc2D_forward_armed self time sample Hy Hb He) in H.
    cbv zeta in H. injection H as _ H. binds_inv H. injection H as <-.
    apply getitem_length in E0. rewrite length_map in E0. split; [lia | reflexivity].
Qed.

End DerivativeTuples.

Lemma forward_derivative_counts_witness :
  exists self' out,
    ODEhyperfunc.forward vjp_grad 0%Z [ex_y3; ex_log_p; ex_w; ex_c; ex_c] ex_sample
      ex_odehyperfunc = (self', Ok out) /\
    length out = 3.
Proof.
  destruct (method_ok_inv
              (ODEhyperfunc.forward vjp_grad 0%Z [ex_y3; ex_log_p; ex_w; ex_c; ex_c]
                 ex_sample ex_odehyperfunc))
    as [self' [out E]]; [vm_compute; reflexivity |].
  exists self', out. split; [exact E |].
  exact (proj2 (proj1 (proj2 forward_derivative_counts) vjp_grad ex_odehyperfunc self'
                  0%Z _ ex_sample out E)).
Defined.

(** ** The log-density derivative a state function returns *)

Lemma indices_single (b k : nat) : k < b -> In [k] (indices [b]).
Proof.
  intros Hk. cbn [indices]. apply in_flat_map. exists k.
  split; [apply in_seq; lia | left; reflexivity].
Qed.

Lemma view_shape_column (n : nat) : view_shape n [(-1)%Z; 1%Z] = Ok [n; 1].
Proof.
  unfold view_shape. simpl. change (fst (Nat.divmod n 0 0 0)) with (n / 1).
  rewrite Nat.div_1_r. reflexivity.
Qed.

Section LogDensity.

Context {R : Type} {SR : Scalar R}.
Hypothesis Rth : ring_theory szero sone sadd smul ssub sopp (@eq R).

Lemma ODEfunc_forward_vjp (self : ODEfunc.t) (time : R) (y log_p : Tensor R)
    (sample : list nat -> R) (fixed : option (Tensor R)) (B D : nat)
    (dy : GraphTensor R) :
  let y' := requires_grad_ true y in
  let e := probe fixed y' sample in
  ODEfunc._e self = Some fixed ->
  ODEfunc.divergence_fn self = divergence_approx vjp_grad ->
  shape y = [B; D] ->
  shape e = [B; D] ->
  double_backward dy || requires_grad e = true ->
  ODEfunc.diffeq self (broadcast_time B y time) y' = Ok dy ->
  shape (value dy) = [B; D] ->
  requires_grad (value dy) = true ->
  batchwise (jacobian dy) [B] ->
  exists self' div,
    ODEfunc.forward time [y; log_p] sample self = (self', Ok [value dy; div]) /\
    shape div = [B; 1] /\
    forall b, b < B ->
      data div [b; 0] = sopp (quadratic_form (data e) (jacobian dy) [b] D).
Proof.
  intros y' e He Hfn Hy Hes Hgrad Hdy Hdys Hdyg Hbatch.
  assert (Hsize : size0 y = Ok B) by (unfold size0; rewrite Hy; reflexivity).
  rewrite (ODEfunc_forward_armed self time sample (states := [y; log_p]) eq_refl Hsize He).
  cbv zeta. cbn [length]. fold y'. fold e. rewrite Hdy. cbn [bind]. rewrite Hfn.
  destruct (divergence_approx_vjp Rth dy y' e [B] D)
    as (g & p & out & _ & _ & Hdiv & _ & Hout & Hdata); try assumption;
    try (cbn [y' requires_grad_ shape]; congruence); try reflexivity.
  rewrite Hdiv. cbn [bind].
  unfold view. rewrite view_shape_column, Hout. cbn [bind].
  eexists. eexists. split; [reflexivity |].
  split; [cbn [neg shape numel fold_right]; rewrite Nat.mul_1_r; reflexivity |].
  intros b Hb. cbn [neg data numel fold_right ravel unravel].
  rewrite !Nat.mul_1_r, Nat.add_0_r, Nat.div_1_r.
  rewrite (Hdata [b] (indices_single B b Hb)). reflexivity.
Qed.

Lemma ODEhyperfunc_forward_vjp (self : ODEhyperfunc.t) (time : R)
    (y log_p c : Tensor R) (sample : list nat -> R) (fixed : option (Tensor R))
    (B N D : nat) (dy : GraphTensor R) :
  let y' := requires_grad_ true y in
  let e := probe fixed y' sample in
  ODEhyperfunc._e self = Some fixed ->
  shape y = [B; N; D] ->
  0 < D ->
  shape e = [B; N; D] ->
  double_backward dy || requires_grad e = true ->
  ODEhyperfunc.diffeq self (broadcast_time B y time) y' (requires_grad_ true c) = Ok dy ->
  shape (value dy) = [B; N; D] ->
  requires_grad (value dy) = true ->
  batchwise (jacobian dy) [B; N] ->
  exists self' div,
    ODEhyperfunc.forward vjp_grad time [y; log_p; c] sample self
      = (self', Ok [value dy; div; requires_grad_ true (zeros_like (requires_grad_ true c))]) /\
    shape div = [B; N; 1] /\
    forall b n, b < B -> n < N ->
      data div [b; n; 0] =
        sopp (match selected_estimator (ODEhyperfunc.training self)
                      (ODEhyperfunc.use_div_approx_train self)
                      (ODEhyperfunc.use_div_approx_test self) with
              | Approximate => quadratic_form (data e) (jacobian dy) [b; n] D
              | BruteForce => jacobian_trace (jacobian dy) [b; n] D
              end).
Proof.
  intros y' e He Hy HD Hes Hgrad Hdy Hdys Hdyg Hbatch.
  assert (Hsize : size0 y = Ok B) by (unfold size0; rewrite Hy; reflexivity).
  rewrite (ODEhyperfunc_forward_armed vjp_grad self time sample
             (states := [y; log_p; c]) eq_refl Hsize He).
  cbv zeta. fold y'. fold e. cbn [map getitem nth_error bind]. rewrite Hdy. cbn [bind].
  assert (Hys : shape y' = [B; N; D]) by exact Hy.
  destruct (selected_estimator _ _ _).
  - destruct (divergence_approx_vjp Rth dy y' e [B; N] D)
      as (g & p & out & _ & _ & Hdiv & _ & Hout & Hdata); try assumption;
      try congruence; try reflexivity.
    rewrite Hdiv. cbn [bind]. eexists. eexists. split; [reflexivity |].
    split; [cbn [neg unsqueeze_last shape]; rewrite Hout; reflexivity |].
    intros b n Hb Hn. cbn [neg unsqueeze_last data removelast].
    rewrite (Hdata [b; n]); [reflexivity |].
    apply indices_pair. exists b, n. auto.
  - destruct (divergence_bf_vjp Rth dy y' B N D) as (out & Hdiv & Hout & Hdata);
      try assumption; try reflexivity.
    rewrite Hdiv. cbn [bind]. eexists. eexists. split; [reflexivity |].
    split; [cbn [neg unsqueeze_last shape]; rewrite Hout; reflexivity |].
    intros b n Hb Hn. cbn [neg unsqueeze_last data removelast].
    rewrite (Hdata [b; n]); [reflexivity |].
    apply indices_pair. exists b, n. auto.
Qed.

(** X11.  What the state functions return for the log-density, with
    [torch.autograd.grad] as documented, a probe of the size of the state,
    and a drift of the size of the state that has no derivative across
    batch elements (for [ODEfunc], on states of size [(B, D)]) or across the
    points of all batch elements (for [ODEhyperfunc], on states of size
    [(B, N, D)]: an output entry depends on the state at its own point
    only): [ODEfunc.forward] on a state [(y, log_p)] with [y] of size
    [(B, D)] returns the drift and a column of size [(B, 1)] whose entry
    [b] is minus the quadratic form [e^T J e] of the probe at batch element
    [b]; [ODEhyperfunc.forward] on [(y, log_p, c)] with [y] of size
    [(B, N, D)] returns the drift, a tensor of size [(B, N, 1)] whose entry
    [(b, n)] is minus the quadratic form when the approximate estimator is
    selected and minus the trace of the Jacobian otherwise, and zeros. *)
Theorem forward_returns_minus_the_divergence :
  (forall (self : ODEfunc.t) time y log_p sample fixed B D dy,
     ODEfunc._e self = Some fixed ->
     ODEfunc.divergence_fn self = divergence_approx vjp_grad ->
     shape y = [B; D] ->
     shape (probe fixed (requires_grad_ true y) sample) = [B; D] ->
     double_backward dy || requires_grad (probe fixed (requires_grad_ true y) sample)
       = true ->
     ODEfunc.diffeq self (broadcast_time B y time) (requires_grad_ true y) = Ok dy ->
     shape (value dy) = [B; D] ->
     requires_grad (value dy) = true ->
     batchwise (jacobian dy) [B] ->
     exists self' div,
       ODEfunc.forward time [y; log_p] sample self = (self', Ok [value dy; div]) /\
       shape div = [B; 1] /\
       forall b, b < B ->
         data div [b; 0] =
           sopp (quadratic_form (data (probe fixed (requires_grad_ true y) sample))
                   (jacobian dy) [b] D)) /\
  (forall (self : ODEhyperfunc.t) time y log_p c sample fixed B N D dy,
     ODEhyperfunc._e self = Some fixed ->
     shape y = [B; N; D] ->
     0 < D ->
     shape (probe fixed (requires_grad_ true y) sample) = [B; N; D] ->
     double_backward dy || requires_grad (probe fixed (requires_grad_ true y) sample)
       = true ->
     ODEhyperfunc.diffeq self (broadcast_time B y time) (requires_grad_ true y)
       (requires_grad_ true c) = Ok dy ->
     shape (value dy) = [B; N; D] ->
     requires_grad (value dy) = true ->
     batchwise (jacobian dy) [B; N] ->
     exists self' div,
       ODEhyperfunc.forward vjp_grad time [y; log_p; c] sample self
         = (self', Ok [value dy; div;
                       requires_grad_ true (zeros_like (requires_grad_ true c))]) /\
       shape div = [B; N; 1] /\
       forall b n, b < B -> n < N ->
         data div [b; n; 0] =
           sopp (match selected_estimator (ODEhyperfunc.training self)
                         (ODEhyperfunc.use_div_approx_train self)
                         (ODEhyperfunc.use_div_approx_test self) with
                 | Approximate =>
                     quadratic_form (data (probe fixed (requires_grad_ true y) sample))
                       (jacobian dy) [b; n] D
                 | BruteForce => jacobian_trace (jacobian dy) [b; n] D
                 end)).
Proof.
  split.
  - intros self time y log_p sample fixed B D dy.
    exact (ODEfunc_forward_vjp self time y log_p sample fixed B D dy).
  - intros self time y log_p c sample fixed B N D dy.
    exact (ODEhyperfunc_forward_vjp self time y log_p c sample fixed B N D dy).
Qed.

End LogDensity.

Lemma forward_returns_minus_the_divergence_witness :
  (exists self' div,
     ODEfunc.forward 0%Z [ex_y; ex_log_p] ex_sample ex_odefunc
       = (self', Ok [value (linear_drift ex_matrix (requires_grad_ true ex_y)); div]) /\
     shape div = [2; 1] /\ data div [1; 0] = (-10)%Z) /\
  (exists self' div,
     ODEhyperfunc.forward vjp_grad 0%Z [ex_y3; ex_log_p; ex_w] ex_sample ex_odehyperfunc
       = (self', Ok [value (linear_drift ex_matrix (requires_grad_ true ex_y3)); div;
                     requires_grad_ true (zeros_like (requires_grad_ true ex_w))]) /\
     shape div = [1; 2; 1] /\ data div [0; 1; 0] = (-5)%Z).
Proof.
  split.
  - destruct (proj1 (@forward_returns_minus_the_divergence Z ZScalar Zth)
                ex_odefunc 0%Z ex_y ex_log_p ex_sample None 2 2
                (linear_drift ex_matrix (requires_grad_ true ex_y)))
      as (self' & div & Hrun & Hshape & Hdata);
      try reflexivity; [apply linear_drift_batchwise |].
    exists self', div. split; [exact Hrun |]. split; [exact Hshape |].
    rewrite (Hdata 1); [reflexivity | lia].
  - destruct (proj2 (@forward_returns_minus_the_divergence Z ZScalar Zth)
                ex_odehyperfunc 0%Z ex_y3 ex_log_p ex_w ex_sample None 1 2 2
                (linear_drift ex_matrix (requires_grad_ true ex_y3)))
      as (self' & div & Hrun & Hshape & Hdata);
      try reflexivity; try lia; [apply linear_drift_batchwise |].
    exists self', div. split; [exact Hrun |]. split; [exact Hshape |].
    rewrite (Hdata 0 1); [reflexivity | lia | lia].
Defined.

(** ** The states [divergence_bf] accepts *)

Lemma for_each_ok_steps {A S : Type} (body : A -> S -> result S) (xs : list A) :
  forall s s', for_each body xs s = Ok s' ->
    forall x, In x xs -> exists s1 s2, body x s1 = Ok s2.
Proof.
  induction xs as [| a xs IH]; intros s s' H x Hin; [destruct Hin |].
  cbn [for_each] in H. bind_inv H. destruct Hin as [<- | Hin].
  - exists s, v. exact E.
  - exact (IH v s' H x Hin).
Qed.

Lemma rev_head_last (sh : list nat) (d : nat) (rest : list nat) :
  rev sh = d :: rest -> last sh 0 = d /\ sh <> [].
Proof.
  intros H. assert (Hsh : sh = rev rest ++ [d]).
  { rewrite <- (rev_involutive sh), H. reflexivity. }
  subst sh. rewrite last_last. split; [reflexivity |].
  destruct (rev rest); discriminate.
Qed.

Section BruteForceShapes.

Context {R : Type} {SR : Scalar R}.
Variable autograd_grad : Autograd R.

(** X12.  [divergence_bf] and the sizes of its arguments, whatever the
    gradient engine answers: a state without dimensions raises
    [IndexError] at [y.shape[-1]]; a state whose last dimension is 0 raises
    [AttributeError], as the float [0.] has no [contiguous]; a drift of
    fewer than 3 dimensions raises [IndexError] at [dx[:, :, 0]]; and a call
    that returns had a drift of at least 3 dimensions whose third dimension
    is at least the last dimension of the state. *)
Theorem divergence_bf_needs_three_dimensions (dx : GraphTensor R) (y : Tensor R) :
  (shape y = [] ->
   divergence_bf autograd_grad dx y = Raise (IndexError "tuple index out of range")) /\
  (shape y <> [] -> last (shape y) 0 = 0 ->
   divergence_bf autograd_grad dx y = Raise (AttributeError "float" "contiguous")) /\
  (0 < last (shape y) 0 -> length (shape (value dx)) < 3 ->
   divergence_bf autograd_grad dx y
     = Raise (IndexError "too many indices for tensor")) /\
  (forall out, divergence_bf autograd_grad dx y = Ok out ->
     0 < last (shape y) 0 /\
     exists b n k rest,
       shape (value dx) = b :: n :: k :: rest /\ last (shape y) 0 <= k).
Proof.
  unfold divergence_bf. split; [| split; [| split]].
  - intros ->. reflexivity.
  - intros Hne Hlast. destruct (rev (shape y)) as [| d rest] eqn:Hrev.
    + apply (f_equal (@rev nat)) in Hrev. rewrite rev_involutive in Hrev.
      contradiction.
    + destruct (rev_head_last _ _ _ Hrev) as [Hd _]. rewrite Hlast in Hd. subst d.
      reflexivity.
  - intros Hpos Hrank. destruct (rev (shape y)) as [| d rest] eqn:Hrev.
    + apply (f_equal (@rev nat)) in Hrev. rewrite rev_involutive in Hrev.
      rewrite Hrev in Hpos. cbn [rev last] in Hpos. lia.
    + destruct (rev_head_last _ _ _ Hrev) as [Hd _]. rewrite Hd in Hpos.
      destruct d as [| d]; [lia |]. cbn [bind seq for_each].
      unfold divergence_bf_step at 1, graph_index_dim2, index_dim2.
      destruct (shape (value dx)) as [| b [| n [| k l]]]; try reflexivity.
      cbn [length] in Hrank. lia.
  - intros out H. destruct (rev (shape y)) as [| d rest] eqn:Hrev; [discriminate H |].
    destruct (rev_head_last _ _ _ Hrev) as [Hd _]. rewrite Hd. cbn [bind] in H.
    bind_inv H. destruct d as [| d]; [cbn [seq for_each] in E; injection E as <-;
      discriminate H |].
    split; [lia |].
    destruct (for_each_ok_steps _ _ _ _ E d) as [s1 [s2 Hstep]];
      [apply in_seq; lia |].
    unfold divergence_bf_step, graph_index_dim2, index_dim2 in Hstep.
    destruct (shape (value dx)) as [| b [| n [| k l]]]; try discriminate Hstep.
    exists b, n, k, l. split; [reflexivity |].
    destruct (Nat.ltb_spec d k) as [Hlt |]; [lia | discriminate Hstep].
Qed.

End BruteForceShapes.

Lemma divergence_bf_needs_three_dimensions_witness :
  divergence_bf vjp_grad (linear_drift ex_matrix ex_y) ex_y
    = Raise (IndexError "too many indices for tensor").
Proof.
  apply (proj1 (proj2 (proj2 (divergence_bf_needs_three_dimensions vjp_grad
                                (linear_drift ex_matrix ex_y) ex_y)))).
  - cbn. lia.
  - cbn. lia.
Defined.

(** ** A hypernetwork as the drift of a state function *)

Section HypernetDriftFacts.

Context {R : Type} {SR : Scalar R}.

(** X13.  [ODEhyperfunc] over an [ODEHypernet] built by [__init__] with
    positive widths, and [ODEhyperfunc2D] over an [ODEHypernet2D]: the last
    channel of the state is the weight vector and the time is the context.
    When [forward] returns on a weight channel of [B > 0] rows and [W]
    columns, the layout fits in [W] columns, the state [y] has size
    [(B, N, input_dim)], the derivative of [y] has the size of [y], and the
    derivatives of the other channels read have the sizes of these
    channels. *)
Theorem hypernet_state_function_sizes (dims_str nonlinearity : string)
    (input_dim : Z) (flag : bool) (net : ODEHypernet) (history : bool)
    (Hinit : ODEHypernet_init dims_str input_dim nonlinearity flag = Ok net)
    (Hdims : Forall (fun d => (0 < d)%Z) (dims net)) :
  (forall jac autograd_grad (self self' : ODEhyperfunc.t) time y log_p w sample out B W,
     ODEhyperfunc.diffeq self = ODEHypernet_diffeq net jac history ->
     shape w = [B; W] -> 0 < B ->
     ODEhyperfunc.forward autograd_grad time [y; log_p; w] sample self = (self', Ok out) ->
     (layout_width 0 (dims net) <= Z.of_nat W)%Z /\
     exists N dy div z,
       out = [dy; div; z] /\ shape y = [B; N; Z.to_nat input_dim] /\
       shape dy = shape y /\ shape z = shape w) /\
  (forall jac (self self' : ODEhyperfunc2D.t) time y log_p c w sample out B W bp np,
     ODEhyperfunc2D.diffeq self = ODEHypernet2D_diffeq net jac history ->
     shape w = [B; W] -> 0 < B -> shape c = [bp; np; 2] ->
     ODEhyperfunc2D.forward time [y; log_p; c; w] sample self = (self', Ok out) ->
     (layout_width 2 (dims net) <= Z.of_nat W)%Z /\
     exists N dy div zc zw,
       out = [dy; div; zc; zw] /\ shape y = [B; N; Z.to_nat input_dim] /\
       shape dy = shape y /\ shape zc = shape c /\ shape zw = shape w).
Proof.
  split.
  - intros jac ag self self' time y log_p w sample out B W Hdiffeq Hw HB H.
    destruct (ODEhyperfunc_forward_ok_inv H) as [y0 [batch [fixed [Hy [Hb He]]]]].
    rewrite (ODEhyperfunc_forward_armed ag self time sample Hy Hb He) in H.
    cbv zeta in H. injection H as _ H. injection Hy as <-.
    cbn [map getitem nth_error bind] in H. bind_inv H. bind_inv H. injection H as <-.
    rewrite Hdiffeq in E. unfold ODEHypernet_diffeq in E. bind_inv E.
    injection E as <-. cbn [value].
    assert (Hw' : shape (requires_grad_ true w) = [B; W]) by exact Hw.
    split.
    + exact (ODEHypernet_forward_in_range _ _ _ _ _ _ _ Hw' HB Hdims E1).
    + destruct (ODEHypernet_forward_size _ _ _ _ _ (broadcast_time batch y time) _ _ _
                  _ _ batch Hinit Hdims Hw' HB eq_refl E1) as [Hout [N HN]].
      exists N. eexists. eexists. eexists. split; [reflexivity |].
      split; [exact HN |]. split; [exact Hout | reflexivity].
  - intros jac self self' time y log_p c w sample out B W bp np Hdiffeq Hw HB Hc H.
    destruct (ODEhyperfunc2D_forward_ok_inv H) as [y0 [batch [fixed [Hy [Hb He]]]]].
    rewrite (ODEhyperfunc2D_forward_armed self time sample Hy Hb He) in H.
    cbv zeta in H. injection H as _ H. injection Hy as <-.
    cbn [map getitem nth_error bind] in H. bind_inv H. bind_inv H. injection H as <-.
    rewrite Hdiffeq in E. unfold ODEHypernet2D_diffeq in E. bind_inv E.
    injection E as <-. cbn [value].
    assert (Hw' : shape (requires_grad_ true w) = [B; W]) by exact Hw.
    assert (Hc' : shape (requires_grad_ true c) = [bp; np; 2]) by exact Hc.
    split.
    + exact (ODEHypernet2D_forward_in_range _ _ _ _ _ _ _ _ Hw' HB Hdims E1).
    + destruct (ODEHypernet2D_forward_size _ _ _ _ _ (broadcast_time batch y time) _ _
                  _ _ _ _ batch _ _ Hinit Hdims Hw' HB eq_refl Hc' E1) as [Hout [N HN]].
      exists N. eexists. eexists. eexists. eexists. split; [reflexivity |].
      split; [exact HN |]. split; [exact Hout |]. split; reflexivity.
Qed.

End HypernetDriftFacts.

Lemma hypernet_state_function_sizes_witness :
  exists self' dy div z,
    ODEhyperfunc.forward vjp_grad 0%Z [ex_points; ex_log_p; ex_weights] ex_sample
      ex_hypernet_func = (self', Ok [dy; div; z]) /\
    shape dy = [1; 2; 1] /\ shape z = [1; 16].
Proof.
  destruct (method_ok_inv
              (ODEhyperfunc.forward vjp_grad 0%Z [ex_points; ex_log_p; ex_weights]
                 ex_sample ex_hypernet_func))
    as [self' [out E]]; [vm_compute; reflexivity |].
  destruct (proj1 (hypernet_state_function_sizes "2" "relu" 1%Z true ex_hypernet true
                     eq_refl ltac:(repeat constructor))
              (fun _ _ _ _ _ => 0%Z) vjp_grad ex_hypernet_func self' 0%Z ex_points
              ex_log_p ex_weights ex_sample out 1 16 eq_refl eq_refl (Nat.lt_0_succ 0) E)
    as [_ (N & dy & div & z & -> & _ & Hdy & Hz)].
  exists self', dy, div, z. split; [exact E |]. split; [exact Hdy | exact Hz].
Defined.

(** ** The hypernetwork acts on every point by itself *)

Lemma indices_triple (B N D b n z : nat) :
  b < B -> n < N -> z < D -> In [b; n; z] (indices [B; N; D]).
Proof.
  intros Hb Hn Hz.
  change [b; n; z] with ([b; n] ++ [z]). change [B; N; D] with ([B; N] ++ [D]).
  apply indices_snoc_in; [| exact Hz].
  apply indices_pair. exists b, n. auto.
Qed.

Section PointwiseDrift.

Context {R : Type} {SR : Scalar R}.

Lemma bmm_data (a b c : Tensor R) :
  bmm a b = Ok c ->
  exists ba n m, shape a = [ba; n; m] /\
    forall r x z, data c [r; x; z]
      = rsum (seq 0 m) (fun k => smul (data a [r; x; k]) (data b [r; k; z])).
Proof.
  unfold bmm. intros H.
  destruct (shape a) as [| ba [| n [| m [| ? ?]]]]; try discriminate H.
  destruct (shape b) as [| bb [| m' [| p [| ? ?]]]]; try discriminate H.
  destruct (negb _); [discriminate H |].
  destruct (negb _); [discriminate H |].
  injection H as <-. exists ba, n, m. split; reflexivity.
Qed.

Lemma add__data (a b c : Tensor R) :
  add_ a b = Ok c ->
  forall idx, data c idx = sadd (data a idx) (data b (bidx (shape b) idx)).
Proof.
  unfold add_. intros H.
  destruct (broadcast_shapes (shape a) (shape b)); [| discriminate H].
  destruct (list_nat_eqb l (shape a)); [| discriminate H].
  injection H as <-. reflexivity.
Qed.

Lemma binop_data (f : R -> R -> R) (a b c : Tensor R) :
  binop f a b = Ok c ->
  forall idx, data c idx
    = f (data a (bidx (shape a) idx)) (data b (bidx (shape b) idx)).
Proof.
  unfold binop. intros H.
  destruct (broadcast_shapes (shape a) (shape b)); [| discriminate H].
  injection H as <-. reflexivity.
Qed.

Lemma cat2_data (a b c : Tensor R) :
  cat 2 a b = Ok c ->
  exists da, nth_error (shape a) 2 = Some da /\
    forall r x z, data c [r; x; z]
      = if z <? da then data a [r; x; z] else data b [r; x; z - da].
Proof.
  unfold cat. intros H.
  destruct (nth_error (shape a) 2) as [da |]; [| discriminate H].
  destruct (nth_error (shape b) 2) as [db |]; [| discriminate H].
  destruct (list_nat_eqb _ _); [| discriminate H].
  injection H as <-. exists da. split; reflexivity.
Qed.

(** Computations that do not depend on the state give the same result in
    two runs. *)
Ltac same_results :=
  repeat match goal with
         | H1 : ?c = Ok ?a, H2 : ?c = Ok ?b |- _ =>
             assert (a = b) by (rewrite H1 in H2; injection H2; auto);
             subst b; clear H2
         end.

Lemma ODEHypernet_layer_pointwise (self : ODEHypernet) (context w : Tensor R)
    (B l N b n : nat) (s1 s2 s1' s2' : Locals R) :
  (0 < nth l (dims self) 0)%Z -> (0 < nth (S l) (dims self) 0)%Z ->
  cursor s2 = cursor s1 ->
  shape (dx s1) = [B; N; Z.to_nat (nth l (dims self) 0%Z)] ->
  shape (dx s2) = [B; N; Z.to_nat (nth l (dims self) 0%Z)] ->
  b < B -> n < N ->
  (forall k, k < Z.to_nat (nth l (dims self) 0%Z) ->
     data (dx s1) [b; n; k] = data (dx s2) [b; n; k]) ->
  ODEHypernet_layer self context w B l s1 = Ok s1' ->
  ODEHypernet_layer self context w B l s2 = Ok s2' ->
  forall z, z < Z.to_nat (nth (S l) (dims self) 0%Z) ->
    data (dx s1') [b; n; z] = data (dx s2') [b; n; z].
Proof.
  intros H0 H1 Hcur Hs1 Hs2 Hb Hn Hagree Hrun1 Hrun2 z Hz.
  unfold ODEHypernet_layer in Hrun1, Hrun2. rewrite Hcur in Hrun2.
  binds_inv Hrun1. binds_inv Hrun2. injection Hrun1 as <-. injection Hrun2 as <-.
  cbn [dx]. same_results.
  assert (Hidx : In [b; n; z] (indices [B; N; Z.to_nat (nth (S l) (dims self) 0%Z)]))
    by (apply indices_triple; assumption).
  assert (Hv0 : shape v0 = [B; Z.to_nat (nth l (dims self) 0%Z);
                            Z.to_nat (nth (S l) (dims self) 0%Z)]).
  { apply view_nonneg in E0; [| repeat constructor; lia].
    destruct E0 as [E0 _]. rewrite E0. cbn [map]. rewrite Nat2Z.id. reflexivity. }
  assert (Hsh : forall u u', bmm u v0 = Ok u' -> shape u = shape (dx s1) ->
                  shape u' = [B; N; Z.to_nat (nth (S l) (dims self) 0%Z)]).
  { intros u u' Hu Hsu. apply bmm_shape in Hu.
    destruct Hu as (ba & n' & m & p & Ha & Hb' & Hc'). rewrite Hsu, Hs1 in Ha.
    rewrite Hv0 in Hb'. injection Ha as <- <- <-. injection Hb' as <-.
    exact Hc'. }
  assert (Hv4 : shape v4 = [B; N; Z.to_nat (nth (S l) (dims self) 0%Z)])
    by (rewrite (add__shape _ _ _ E4); exact (Hsh _ _ E1 eq_refl)).
  assert (Hv23 : shape v23 = [B; N; Z.to_nat (nth (S l) (dims self) 0%Z)])
    by (rewrite (add__shape _ _ _ E23); apply (Hsh _ _ E20); congruence).
  assert (Hgoal : data v17 [b; n; z] = data v36 [b; n; z]).
  { rewrite (add__data _ _ _ E17), (add__data _ _ _ E36). f_equal.
    unfold mul in E12, E31.
    rewrite (binop_data _ _ _ _ E12), (binop_data _ _ _ _ E31). f_equal.
    rewrite Hv4, Hv23, (bidx_id _ _ Hidx).
    rewrite (add__data _ _ _ E4), (add__data _ _ _ E23). f_equal.
    destruct (bmm_data _ _ _ E1) as (ba & n' & m & Hm & Hd1).
    destruct (bmm_data _ _ _ E20) as (ba2 & n2 & m2 & Hm2 & Hd2).
    rewrite Hs1 in Hm. rewrite Hs2 in Hm2. injection Hm as <- <- <-.
    injection Hm2 as <- <- <-. rewrite Hd1, Hd2.
    apply rsum_ext. intros k Hk. apply in_seq in Hk.
    rewrite Hagree by lia. reflexivity. }
  destruct (l <? length (dims self) - 2); [| exact Hgoal].
  cbn [apply_nonlinearity pointwise data]. rewrite Hgoal. reflexivity.
Qed.

Lemma ODEHypernet2D_layer_pointwise (self : ODEHypernet)
    (context y_points w : Tensor R) (B l N b n : nat) (s1 s2 s1' s2' : Locals R) :
  (0 < nth l (dims self) 0)%Z -> (0 < nth (S l) (dims self) 0)%Z ->
  cursor s2 = cursor s1 ->
  shape (dx s1) = [B; N; Z.to_nat (nth l (dims self) 0%Z)] ->
  shape (dx s2) = [B; N; Z.to_nat (nth l (dims self) 0%Z)] ->
  b < B -> n < N ->
  (forall k, k < Z.to_nat (nth l (dims self) 0%Z) ->
     data (dx s1) [b; n; k] = data (dx s2) [b; n; k]) ->
  ODEHypernet2D_layer self context y_points w B l s1 = Ok s1' ->
  ODEHypernet2D_layer self context y_points w B l s2 = Ok s2' ->
  forall z, z < Z.to_nat (nth (S l) (dims self) 0%Z) ->
    data (dx s1') [b; n; z] = data (dx s2') [b; n; z].
Proof.
  intros H0 H1 Hcur Hs1 Hs2 Hb Hn Hagree Hrun1 Hrun2 z Hz.
  unfold ODEHypernet2D_layer in Hrun1, Hrun2. rewrite Hcur in Hrun2.
  binds_inv Hrun1. binds_inv Hrun2. injection Hrun1 as <-. injection Hrun2 as <-.
  cbn [dx]. same_results.
  assert (Hidx : In [b; n; z] (indices [B; N; Z.to_nat (nth (S l) (dims self) 0%Z)]))
    by (apply indices_triple; assumption).
  assert (Hv0 : shape v0 = [B; Z.to_nat (nth l (dims self) 0%Z + 2);
                            Z.to_nat (nth (S l) (dims self) 0%Z)]).
  { apply view_nonneg in E0; [| repeat constructor; lia].
    destruct E0 as [E0 _]. rewrite E0. cbn [map]. rewrite Nat2Z.id. reflexivity. }
  assert (Hsh : forall s u u', cat 2 (dx s) y_points = Ok u -> bmm u v0 = Ok u' ->
                  shape (dx s) = shape (dx s1) ->
                  shape u' = [B; N; Z.to_nat (nth (S l) (dims self) 0%Z)]).
  { intros s u u' Hcat Hu Hsu. apply cat_shape in Hcat.
    destruct Hcat as (da & db & _ & _ & _ & Hcat). rewrite Hsu, Hs1 in Hcat.
    cbn [firstn skipn app] in Hcat. apply bmm_shape in Hu.
    destruct Hu as (ba & n' & m & p & Ha & Hb' & Hc'). rewrite Hcat in Ha.
    rewrite Hv0 in Hb'. injection Ha as <- <- _. injection Hb' as _ <-.
    exact Hc'. }
  assert (Hv5 : shape v5 = [B; N; Z.to_nat (nth (S l) (dims self) 0%Z)])
    by (rewrite (add__shape _ _ _ E5); exact (Hsh _ _ _ E1 E2 eq_refl)).
  assert (Hv25 : shape v25 = [B; N; Z.to_nat (nth (S l) (dims self) 0%Z)])
    by (rewrite (add__shape _ _ _ E25); apply (Hsh _ _ _ E21 E22); congruence).
  assert (Hgoal : data v18 [b; n; z] = data v38 [b; n; z]).
  { rewrite (add__data _ _ _ E18), (add__data _ _ _ E38). f_equal.
    unfold mul in E13, E33.
    rewrite (binop_data _ _ _ _ E13), (binop_data _ _ _ _ E33). f_equal.
    rewrite Hv5, Hv25, (bidx_id _ _ Hidx).
    rewrite (add__data _ _ _ E5), (add__data _ _ _ E25). f_equal.
    destruct (bmm_data _ _ _ E2) as (ba & n' & m & Hm & Hd1).
    destruct (bmm_data _ _ _ E22) as (ba2 & n2 & m2 & Hm2 & Hd2).
    assert (Hmm : m2 = m).
    { apply bmm_shape in E2, E22.
      destruct E2 as (? & ? & ? & ? & Ha & Hb' & _).
      destruct E22 as (? & ? & ? & ? & Ha2 & Hb2 & _).
      rewrite Hm in Ha. rewrite Hm2 in Ha2. rewrite Hb' in Hb2. congruence. }
    subst m2. rewrite Hd1, Hd2.
    apply rsum_ext. intros k Hk. f_equal.
    destruct (cat2_data _ _ _ E1) as (da & Hda & Hc1).
    destruct (cat2_data _ _ _ E21) as (da2 & Hda2 & Hc2).
    rewrite Hs1 in Hda. rewrite Hs2 in Hda2. injection Hda as <-. injection Hda2 as <-.
    rewrite Hc1, Hc2.
    destruct (Nat.ltb_spec k (Z.to_nat (nth l (dims self) 0%Z))) as [Hlt | _];
      [apply Hagree; exact Hlt | reflexivity]. }
  destruct (l <? length (dims self) - 2); [| exact Hgoal].
  cbn [apply_nonlinearity pointwise data]. rewrite Hgoal. reflexivity.
Qed.


End PointwiseDrift.

Section PointwiseLoop.

Context {R : Type} {SR : Scalar R}.

Variable body : nat -> Locals R -> result (Locals R).
Variable ds : list Z.
Variable extra : Z.
Variables B W N b n : nat.

Hypothesis body_advances : advances extra ds body.

Hypothesis body_in_range : forall l s s',
  S l < length ds -> (0 <= cursor s)%Z -> body l s = Ok s' ->
  (cursor s <= cursor s' <= Z.of_nat W)%Z.

Hypothesis body_shape : forall l s s',
  S l < length ds -> (0 <= cursor s)%Z -> body l s = Ok s' ->
  exists n, shape (dx s) = [B; n; Z.to_nat (nth l ds 0%Z)] /\
            shape (dx s') = [B; n; Z.to_nat (nth (S l) ds 0%Z)].

Hypothesis body_pointwise : forall l s1 s2 s1' s2',
  S l < length ds ->
  cursor s2 = cursor s1 ->
  shape (dx s1) = [B; N; Z.to_nat (nth l ds 0%Z)] ->
  shape (dx s2) = [B; N; Z.to_nat (nth l ds 0%Z)] ->
  (forall k, k < Z.to_nat (nth l ds 0%Z) ->
     data (dx s1) [b; n; k] = data (dx s2) [b; n; k]) ->
  body l s1 = Ok s1' -> body l s2 = Ok s2' ->
  forall z, z < Z.to_nat (nth (S l) ds 0%Z) ->
    data (dx s1') [b; n; z] = data (dx s2') [b; n; z].

Lemma for_each_pointwise (count : nat) :
  forall a s1 s2 s1' s2',
    a + count < length ds \/ count = 0 ->
    (0 <= cursor s1)%Z ->
    cursor s2 = cursor s1 ->
    shape (dx s1) = [B; N; Z.to_nat (nth a ds 0%Z)] ->
    shape (dx s2) = [B; N; Z.to_nat (nth a ds 0%Z)] ->
    (forall k, k < Z.to_nat (nth a ds 0%Z) ->
       data (dx s1) [b; n; k] = data (dx s2) [b; n; k]) ->
    for_each body (seq a count) s1 = Ok s1' ->
    for_each body (seq a count) s2 = Ok s2' ->
    forall z, z < Z.to_nat (nth (a + count) ds 0%Z) ->
      data (dx s1') [b; n; z] = data (dx s2') [b; n; z].
Proof.
  induction count as [| count IH];
    intros a s1 s2 s1' s2' Hlen Hc Hcur Hs1 Hs2 Hagree H1 H2 z Hz;
    cbn [seq for_each] in H1, H2.
  - injection H1 as <-. injection H2 as <-. rewrite Nat.add_0_r in Hz.
    apply Hagree. exact Hz.
  - bind_inv H1. bind_inv H2.
    assert (Hl : S a < length ds) by lia.
    assert (Hc2 : (0 <= cursor s2)%Z) by lia.
    pose proof (body_in_range a s1 v Hl Hc E) as Hr1.
    destruct (body_shape a s1 v Hl Hc E) as [n1 [Hn1 Hv1]].
    destruct (body_shape a s2 v0 Hl Hc2 E0) as [n2 [Hn2 Hv2]].
    rewrite Hs1 in Hn1. injection Hn1 as <-. rewrite Hs2 in Hn2. injection Hn2 as <-.
    replace (a + S count) with (S a + count) in Hz by lia.
    apply (IH (S a) v v0 s1' s2'); try assumption.
    + lia.
    + lia.
    + rewrite (proj1 (body_advances a s1 v E)), (proj1 (body_advances a s2 v0 E0)).
      lia.
    + exact (body_pointwise a s1 s2 v v0 Hl Hcur Hs1 Hs2 Hagree E E0).
Qed.

End PointwiseLoop.

Section PointwisePasses.

Context {R : Type} {SR : Scalar R}.

Lemma ODEHypernet_forward_pointwise (self : ODEHypernet) (context y1 y2 w : Tensor R)
    (B W bc N D b n : nat) (out1 out2 : Tensor R) :
  Forall (fun d => (0 < d)%Z) (dims self) ->
  shape w = [B; W] -> 0 < B -> shape context = [bc; 1] ->
  shape y1 = [B; N; D] -> shape y2 = [B; N; D] ->
  b < B -> n < N ->
  (forall k, data y1 [b; n; k] = data y2 [b; n; k]) ->
  ODEHypernet_forward self context y1 w = Ok out1 ->
  ODEHypernet_forward self context y2 w = Ok out2 ->
  forall z D', shape out1 = [B; N; D'] -> z < D' ->
    data out1 [b; n; z] = data out2 [b; n; z].
Proof.
  intros Hdims Hw HB Hctx Hy1 Hy2 Hb Hn Hagree H1 H2 z D' Hout Hz.
  unfold ODEHypernet_forward in H1, H2. bind_inv H1. bind_inv H2.
  injection H1 as <-. injection H2 as <-.
  unfold ODEHypernet_run in E, E0. bind_inv E. bind_inv E0.
  unfold size0 in E1, E2. rewrite Hw in E1, E2. injection E1 as <-. injection E2 as <-.
  assert (Hrange : forall l s s', S l < length (dims self) -> (0 <= cursor s)%Z ->
            ODEHypernet_layer self context w B l s = Ok s' ->
            (cursor s <= cursor s' <= Z.of_nat W)%Z).
  { intros l s s' Hl Hc Hs.
    apply (ODEHypernet_layer_in_range self context w B W l s s' Hw HB Hc);
      [apply positive_widths; [exact Hdims | lia]
      | apply positive_widths; [exact Hdims | lia] | exact Hs]. }
  assert (Hshape : forall l s s', S l < length (dims self) -> (0 <= cursor s)%Z ->
            ODEHypernet_layer self context w B l s = Ok s' ->
            exists n, shape (dx s) = [B; n; Z.to_nat (nth l (dims self) 0%Z)] /\
                      shape (dx s') = [B; n; Z.to_nat (nth (S l) (dims self) 0%Z)]).
  { intros l s s' Hl Hc Hs.
    apply (ODEHypernet_layer_shape self context w B W bc l s s' Hw Hctx HB Hc);
      [apply positive_widths; [exact Hdims | lia]
      | apply positive_widths; [exact Hdims | lia] | exact Hs]. }
  destruct (length (dims self) - 1) as [| count] eqn:Hcount.
  - cbn [seq for_each] in E, E0. injection E as <-. injection E0 as <-.
    cbn [dx]. apply Hagree.
  - destruct (for_each_shape _ (dims self) B W Hrange Hshape count 0
                (mkLocals y1 0%Z []) v) as [N' [Hy Ho]];
      [lia | cbn [cursor]; lia | exact E |].
    cbn [dx] in Hy. rewrite Hy1 in Hy. injection Hy as <- ->.
    rewrite Hout in Ho. injection Ho as ->.
    apply (for_each_pointwise _ (dims self) 0%Z B W N b n
             (ODEHypernet_layer_advances self context w B) Hrange Hshape)
      with (count := S count) (a := 0) (s1 := mkLocals y1 0%Z [])
           (s2 := mkLocals y2 0%Z []) (s1' := v) (s2' := v0);
      try assumption; try reflexivity.
    + intros l s1 s2 s1' s2' Hl Hcur Hs1 Hs2 Hag Hr1 Hr2.
      apply (ODEHypernet_layer_pointwise self context w B l N b n s1 s2 s1' s2');
        try assumption; apply positive_widths; try assumption; lia.
    + left. lia.
    + intros k _. apply Hagree.
Qed.

Lemma ODEHypernet2D_forward_pointwise (self : ODEHypernet)
    (context y1 y2 y_points w : Tensor R) (B W bc bp np N D b n : nat)
    (out1 out2 : Tensor R) :
  Forall (fun d => (0 < d)%Z) (dims self) ->
  shape w = [B; W] -> 0 < B -> shape context = [bc; 1] ->
  shape y_points = [bp; np; 2] ->
  shape y1 = [B; N; D] -> shape y2 = [B; N; D] ->
  b < B -> n < N ->
  (forall k, data y1 [b; n; k] = data y2 [b; n; k]) ->
  ODEHypernet2D_forward self context y1 y_points w = Ok out1 ->
  ODEHypernet2D_forward self context y2 y_points w = Ok out2 ->
  forall z D', shape out1 = [B; N; D'] -> z < D' ->
    data out1 [b; n; z] = data out2 [b; n; z].
Proof.
  intros Hdims Hw HB Hctx Hyp Hy1 Hy2 Hb Hn Hagree H1 H2 z D' Hout Hz.
  unfold ODEHypernet2D_forward in H1, H2. bind_inv H1. bind_inv H2.
  injection H1 as <-. injection H2 as <-.
  unfold ODEHypernet2D_run in E, E0. bind_inv E. bind_inv E0.
  unfold size0 in E1, E2. rewrite Hw in E1, E2. injection E1 as <-. injection E2 as <-.
  assert (Hrange : forall l s s', S l < length (dims self) -> (0 <= cursor s)%Z ->
            ODEHypernet2D_layer self context y_points w B l s = Ok s' ->
            (cursor s <= cursor s' <= Z.of_nat W)%Z).
  { intros l s s' Hl Hc Hs.
    apply (ODEHypernet2D_layer_in_range self context y_points w B W l s s' Hw HB Hc);
      [apply positive_widths; [exact Hdims | lia]
      | apply positive_widths; [exact Hdims | lia] | exact Hs]. }
  assert (Hshape : forall l s s', S l < length (dims self) -> (0 <= cursor s)%Z ->
            ODEHypernet2D_layer self context y_points w B l s = Ok s' ->
            exists n, shape (dx s) = [B; n; Z.to_nat (nth l (dims self) 0%Z)] /\
                      shape (dx s') = [B; n; Z.to_nat (nth (S l) (dims self) 0%Z)]).
  { intros l s s' Hl Hc Hs.
    apply (ODEHypernet2D_layer_shape self context y_points w B W bc bp np l s s'
             Hw Hctx Hyp HB Hc);
      [apply positive_widths; [exact Hdims | lia]
      | apply positive_widths; [exact Hdims | lia] | exact Hs]. }
  destruct (length (dims self) - 1) as [| count] eqn:Hcount.
  - cbn [seq for_each] in E, E0. injection E as <-. injection E0 as <-.
    cbn [dx]. apply Hagree.
  - destruct (for_each_shape _ (dims self) B W Hrange Hshape count 0
                (mkLocals y1 0%Z []) v) as [N' [Hy Ho]];
      [lia | cbn [cursor]; lia | exact E |].
    cbn [dx] in Hy. rewrite Hy1 in Hy. injection Hy as <- ->.
    rewrite Hout in Ho. injection Ho as ->.
    apply (for_each_pointwise _ (dims self) 2%Z B W N b n
             (ODEHypernet2D_layer_advances self context y_points w B) Hrange Hshape)
      with (count := S count) (a := 0) (s1 := mkLocals y1 0%Z [])
           (s2 := mkLocals y2 0%Z []) (s1' := v) (s2' := v0);
      try assumption; try reflexivity.
    + intros l s1 s2 s1' s2' Hl Hcur Hs1 Hs2 Hag Hr1 Hr2.
      apply (ODEHypernet2D_layer_pointwise self context y_points w B l N b n
               s1 s2 s1' s2');
        try assumption; apply positive_widths; try assumption; lia.
    + left. lia.
    + intros k _. apply Hagree.
Qed.

(** X14.  The hypernetwork drift acts on every point of every batch
    element by itself: with positive widths, a weight vector of [B > 0]
    rows and a context of one column, two states of one size that agree at
    point [n] of batch element [b] give drifts that agree at that point,
    whatever the states hold elsewhere: no entry of another point or of
    another batch element reaches it. *)
Theorem hypernet_drift_acts_on_each_point (self : ODEHypernet)
    (context y1 y2 y_points w : Tensor R) (B W bc N D b n : nat)
    (Hdims : Forall (fun d => (0 < d)%Z) (dims self))
    (Hw : shape w = [B; W]) (HB : 0 < B) (Hctx : shape context = [bc; 1])
    (Hy1 : shape y1 = [B; N; D]) (Hy2 : shape y2 = [B; N; D])
    (Hb : b < B) (Hn : n < N)
    (Hagree : forall k, data y1 [b; n; k] = data y2 [b; n; k]) :
  (forall out1 out2,
     ODEHypernet_forward self context y1 w = Ok out1 ->
     ODEHypernet_forward self context y2 w = Ok out2 ->
     forall z D', shape out1 = [B; N; D'] -> z < D' ->
       data out1 [b; n; z] = data out2 [b; n; z]) /\
  (forall out1 out2 bp np,
     shape y_points = [bp; np; 2] ->
     ODEHypernet2D_forward self context y1 y_points w = Ok out1 ->
     ODEHypernet2D_forward self context y2 y_points w = Ok out2 ->
     forall z D', shape out1 = [B; N; D'] -> z < D' ->
       data out1 [b; n; z] = data out2 [b; n; z]).
Proof.
  split.
  - intros out1 out2 H1 H2.
    exact (ODEHypernet_forward_pointwise self context y1 y2 w B W bc N D b n out1 out2
             Hdims Hw HB Hctx Hy1 Hy2 Hb Hn Hagree H1 H2).
  - intros out1 out2 bp np Hyp H1 H2.
    exact (ODEHypernet2D_forward_pointwise self context y1 y2 y_points w B W bc bp np
             N D b n out1 out2 Hdims Hw HB Hctx Hyp Hy1 Hy2 Hb Hn Hagree H1 H2).
Qed.

End PointwisePasses.

(** X14 at two states that differ at the second point only: the drifts
    agree at the first point (and differ at the second). *)
Lemma hypernet_drift_acts_on_each_point_witness :
  entry (ODEHypernet_forward ex_hypernet ex_context ex_points ex_weights) [0; 0; 0]
    = entry (ODEHypernet_forward ex_hypernet ex_context ex_points_moved ex_weights)
        [0; 0; 0] /\
  entry (ODEHypernet_forward ex_hypernet ex_context ex_points ex_weights) [0; 1; 0]
    <> entry (ODEHypernet_forward ex_hypernet ex_context ex_points_moved ex_weights)
         [0; 1; 0].
Proof.
  split; [| vm_compute; discriminate].
  destruct (is_ok_inv (ODEHypernet_forward ex_hypernet ex_context ex_points ex_weights))
    as [out1 E1]; [vm_compute; reflexivity |].
  destruct (is_ok_inv (ODEHypernet_forward ex_hypernet ex_context ex_points_moved
                         ex_weights))
    as [out2 E2]; [vm_compute; reflexivity |].
  rewrite E1, E2. cbn [entry]. f_equal.
  assert (Hsize : shape out1 = [1; 2; 1]).
  { exact (proj1 (ODEHypernet_forward_size "2" "relu" 1%Z true ex_hypernet ex_context
                    ex_points ex_weights out1 1 16 1 eq_refl
                    ltac:(repeat constructor) eq_refl (Nat.lt_0_succ 0) eq_refl E1)). }
  apply (proj1 (hypernet_drift_acts_on_each_point ex_hypernet ex_context ex_points
                  ex_points_moved ex_y_points ex_weights 1 16 1 2 1 0 0
                  ltac:(repeat constructor) eq_refl (Nat.lt_0_succ 0) eq_refl eq_refl
                  eq_refl (Nat.lt_0_succ 0) (Nat.lt_0_succ 1)
                  ltac:(intros [| k]; reflexivity))
           out1 out2 E1 E2 0 1 Hsize (Nat.lt_0_succ 0)).
Defined.
